(** * Constant propagation for ONNX operations (src/Transform/ONNX/ConstProp.cpp)

    A shallow embedding of the constant-propagation rewriters of onnx-mlir and
    the properties of their folds.

    Conventions of the embedding.
    - The build with assertions enabled is modelled: a failed [assert] and a
      reached [llvm_unreachable] print their message and abort the process
      ([Abort msg]).  What C++ leaves undefined (a read or write outside a
      buffer through a raw pointer, a division by zero) is [Undefined].
    - [int64_t], [size_t], [int] and [unsigned] values are integers of [Z] with
      the wrap-around of their width written out ([to_i64], [to_size_t],
      [to_int], [to_unsigned]); signed arithmetic wraps in two's complement.
    - MLIR itself (types, attributes, the rewriter) is an external library; its
      operations are modelled by what they are documented to do.
    - The pass state (the static counter map, the constants created by the
      rewriter, the diagnostics, the text written to [llvm::outs()]) is
      threaded explicitly by the monad [M]. *)

From Stdlib Require Import ZArith String List Lia.
From Stdlib Require Import SpecFloat.
From stdpp Require Import base option list gmap strings fin_maps numbers pretty.

Local Open Scope string_scope.
Local Open Scope list_scope.
Local Open Scope Z_scope.

(** ** Outcomes of (pure) C++ computations *)

Inductive Result (A : Type) : Type :=
| Ok (a : A)
| Abort (msg : string)
| Undefined.
Arguments Ok {A} a.
Arguments Abort {A} msg.
Arguments Undefined {A}.

Definition rbind {A B} (r : Result A) (k : A -> Result B) : Result B :=
  match r with
  | Ok a => k a
  | Abort m => Abort m
  | Undefined => Undefined
  end.

Definition rassert (c : bool) (msg : string) : Result unit :=
  if c then Ok tt else Abort msg.

Declare Scope result_scope.
Delimit Scope result_scope with result.
Notation "x <- r ;; k" := (rbind r (fun x => k))
  (at level 100, r at next level, right associativity) : result_scope.
Notation "'check' c 'else' msg ;; k" := (rbind (rassert c msg) (fun _ => k))
  (at level 100, c at next level, msg at next level, right associativity)
  : result_scope.

(** Monadic left fold and map over a list. *)
Fixpoint rfold {A B} (f : A -> B -> Result A) (l : list B) (a : A) : Result A :=
  match l with
  | [] => Ok a
  | b :: l' => rbind (f a b) (rfold f l')
  end.

Fixpoint rmap {A B} (f : A -> Result B) (l : list A) : Result (list B) :=
  match l with
  | [] => Ok []
  | a :: l' => rbind (f a) (fun b => rbind (rmap f l') (fun bs => Ok (b :: bs)))
  end.

(** ** Machine integers *)

Definition wrap_u (w z : Z) : Z := z mod 2 ^ w.
Definition wrap_s (w z : Z) : Z := (z + 2 ^ (w - 1)) mod 2 ^ w - 2 ^ (w - 1).

Definition to_i64 : Z -> Z := wrap_s 64.
Definition to_size_t : Z -> Z := wrap_u 64.
Definition to_int : Z -> Z := wrap_s 32.
Definition to_unsigned : Z -> Z := wrap_u 32.

(** ** Element types and wide numbers *)

Inductive ElementType : Type :=
| I1 | I8 | I16 | I32 | I64
| U8 | U16 | U32 | U64
| F16 | BF16 | F32 | F64.

#[global] Instance ElementType_eq_dec : EqDecision ElementType.
Proof. solve_decision. Defined.

Inductive Family : Type := SignedInt | UnsignedInt | FloatFam | BoolFam.

#[global] Instance Family_eq_dec : EqDecision Family.
Proof. solve_decision. Defined.

(** Modelled from the spec: the element-type registry of WideNum.hpp and
    TypeUtilities.hpp (section 3, "ElementType"), which maps every element
    type to its bit width and its family. *)
Definition family (t : ElementType) : Family :=
  match t with
  | I1 => BoolFam
  | I8 | I16 | I32 | I64 => SignedInt
  | U8 | U16 | U32 | U64 => UnsignedInt
  | F16 | BF16 | F32 | F64 => FloatFam
  end.

Definition bitWidth (t : ElementType) : Z :=
  match t with
  | I1 => 1
  | I8 | U8 => 8
  | I16 | U16 | F16 | BF16 => 16
  | I32 | U32 | F32 => 32
  | I64 | U64 | F64 => 64
  end.

(** Precision and maximal exponent of the binary floating-point formats. *)
Definition floatFormat (t : ElementType) : Z * Z :=
  match t with
  | F16 => (11, 16)
  | BF16 => (8, 128)
  | F32 => (24, 128)
  | _ => (53, 1024)
  end.

(** Modelled from the spec: WideNum (WideNum.hpp, section 3), the union of the
    widest scalar of each family.  The C++ union carries no tag; the
    constructor used here is the member that the accompanying element type
    selects. *)
Inductive WideNum : Type :=
| W_i64 (i : Z)
| W_u64 (u : Z)
| W_dbl (d : spec_float)
| W_b (b : bool).

#[global] Instance spec_float_eq_dec : EqDecision spec_float.
Proof. solve_decision. Defined.
#[global] Instance WideNum_eq_dec : EqDecision WideNum.
Proof. solve_decision. Defined.

(** Rounding of a float to the format (prec, emax), to nearest even. *)
Definition SFround (fmt : Z * Z) (x : spec_float) : spec_float :=
  match x with
  | S754_finite s m e =>
      binary_normalize (fst fmt) (snd fmt) (if s then Zneg m else Zpos m) e s
  | _ => x
  end.

Definition SFofZ (fmt : Z * Z) (z : Z) : spec_float :=
  binary_normalize (fst fmt) (snd fmt) z 0 false.

(** Truncation of a float toward zero; NaN and the infinities give 0. *)
Definition SFtoZ (x : spec_float) : Z :=
  match x with
  | S754_finite s m e =>
      let a := match e with
               | Zneg p => Z.shiftr (Zpos m) (Zpos p)
               | _ => Z.shiftl (Zpos m) e
               end in
      if s then - a else a
  | _ => 0
  end.

Definition SFisZero (x : spec_float) : bool :=
  match x with S754_zero _ => true | _ => false end.

(** The scalar read as each member of the union.  In the folds the element
    type fixes the family, so a member is read at the family it was written
    at; read at another family (only [castElementType] does so) the value is
    converted as the C++ conversion does. *)
Definition wide_i64 (w : WideNum) : Z :=
  match w with
  | W_i64 i => i
  | W_u64 u => to_i64 u
  | W_b b => if b then 1 else 0
  | W_dbl d => SFtoZ d
  end.

Definition wide_u64 (w : WideNum) : Z :=
  match w with
  | W_u64 u => u
  | W_i64 i => to_size_t i
  | W_b b => if b then 1 else 0
  | W_dbl d => to_size_t (SFtoZ d)
  end.

Definition wide_dbl (w : WideNum) : spec_float :=
  match w with
  | W_dbl d => d
  | W_i64 i => SFofZ (53, 1024) i
  | W_u64 u => SFofZ (53, 1024) u
  | W_b b => SFofZ (53, 1024) (if b then 1 else 0)
  end.

Definition wide_b (w : WideNum) : bool :=
  match w with
  | W_b b => b
  | W_i64 i => negb (i =? 0)
  | W_u64 u => negb (u =? 0)
  | W_dbl d => negb (SFisZero d)
  end.

(** Modelled from the spec: [WideNum::narrow<T>] followed by
    [WideNum::widen<T>] (section 4.1): the wide representative of the value
    that the element type [t] stores. *)
Definition narrowWiden (t : ElementType) (w : WideNum) : WideNum :=
  match family t with
  | SignedInt => W_i64 (wrap_s (bitWidth t) (wide_i64 w))
  | UnsignedInt => W_u64 (wrap_u (bitWidth t) (wide_u64 w))
  | FloatFam => W_dbl (SFround (floatFormat t) (wide_dbl w))
  | BoolFam => W_b (wide_b w)
  end.

(** ** Shapes, types and constant elements *)

(** A dimension is an [int64_t]; a negative one stands for a dynamic size
    ([ShapedType::kDynamic]). *)
Abbreviation Shape := (list Z) (only parsing).

Definition hasStaticShape (s : Shape) : bool := forallb (fun d => 0 <=? d) s.

(** [ShapedType::getNumElements]: the product of the dimensions. *)
Definition getNumElements (s : Shape) : Z := fold_right Z.mul 1 s.

Inductive MlirType : Type :=
| RankedTensorType (shape : Shape) (elementType : ElementType)
| UnrankedTensorType (elementType : ElementType)
| NoneType.

#[global] Instance MlirType_eq_dec : EqDecision MlirType.
Proof. solve_decision. Defined.

(** The two ways a dense constant stores its values: one scalar per element in
    row-major order, or one scalar for all elements (a splat). *)
Inductive Payload : Type :=
| Dense (values : list WideNum)
| Splat (value : WideNum).

Record ElementsAttr : Type := mkElements {
  e_shape : Shape;
  e_elementType : ElementType;
  e_payload : Payload
}.

Definition e_type (e : ElementsAttr) : MlirType :=
  RankedTensorType (e_shape e) (e_elementType e).

(** [ElementsAttr::size] and [ElementsAttr::empty]. *)
Definition e_size (e : ElementsAttr) : Z := getNumElements (e_shape e).
Definition e_empty (e : ElementsAttr) : bool := e_size e =? 0.

(** [readElementsWideNums], [getElementsWideNums]: the elements in row-major
    order, a splat expanded. *)
Definition e_values (e : ElementsAttr) : list WideNum :=
  match e_payload e with
  | Dense l => l
  | Splat w => replicate (Z.to_nat (e_size e)) w
  end.

(** [getElementsArray<int64_t>]: the elements read as [int64_t]. *)
Definition e_int64s (e : ElementsAttr) : list Z := map wide_i64 (e_values e).

(** ** The IR: attributes, values, the ops the rewriter creates *)

Definition Loc : Type := nat.

Inductive Attribute : Type :=
| IntegerAttr (v : Z)
| ArrayAttr (elts : list Z)
| UnitAttr.

(** What defines a value: an [ONNXConstantOp] (whose [value] attribute is a
    dense [ElementsAttr], or which holds its constant in another form), the
    none value, another operation (with its attribute dictionary), or nothing
    (a block argument). *)
Inductive DefiningOp : Type :=
| DefConstant (value : option ElementsAttr)
| DefNone
| DefOp (name : string) (attrs : gmap string Attribute)
| DefBlockArgument.

Record Value : Type := mkValue {
  v_loc : Loc;
  v_type : MlirType;
  v_def : DefiningOp
}.

Definition isDenseONNXConstant (v : Value) : bool :=
  match v_def v with DefConstant (Some _) => true | _ => false end.

Definition isFromNone (v : Value) : bool :=
  match v_def v with DefNone => true | _ => false end.

(** [getONNXConstantOp]: the defining op when it is an [ONNXConstantOp]. *)
Definition getONNXConstantOp (v : Value) : option (option ElementsAttr) :=
  match v_def v with DefConstant c => Some c | _ => None end.

(** [getONNXConstantOp(v).getValueAttr().cast<ElementsAttr>()]: the cast
    asserts. *)
Definition getConstValueElements (constValue : Value) : Result ElementsAttr :=
  match v_def constValue with
  | DefConstant (Some e) => Ok e
  | _ => Abort "cast<Ty>() argument of incompatible type!"
  end.

(** [isVariadicOperandFromDenseONNXConstantOp]. *)
Definition isVariadicOperandFromDenseONNXConstantOp (operands : list Value) : bool :=
  forallb isDenseONNXConstant operands.

Record ONNXConstantOp : Type := mkConstantOp {
  c_loc : Loc;
  c_type : MlirType;
  c_value : ElementsAttr
}.

(** [ONNXConstantOp::getResult]. *)
Definition getResult (c : ONNXConstantOp) : Value :=
  mkValue (c_loc c) (c_type c) (DefConstant (Some (c_value c))).

(** ** The pass state *)

Record ConstPropCounters : Type := mkCounters {
  invocations : Z;
  input_elms : Z
}.

Record PassState : Type := mkState {
  counters : gmap string ConstPropCounters;   (* ConstPropCounters::map *)
  created : list ONNXConstantOp;              (* rewriter.create, oldest first *)
  replaced : list (Loc * list Value);         (* rewriter.replaceOp *)
  diagnostics : list (Loc * string);          (* emitError *)
  outs : string;                              (* llvm::outs() *)
  passFailed : bool                           (* signalPassFailure *)
}.

Definition M (A : Type) : Type := PassState -> Result (A * PassState).

Definition mret {A} (a : A) : M A := fun st => Ok (a, st).
Definition mbind {A B} (m : M A) (k : A -> M B) : M B :=
  fun st => match m st with
            | Ok (a, st') => k a st'
            | Abort msg => Abort msg
            | Undefined => Undefined
            end.
Definition lift {A} (r : Result A) : M A :=
  fun st => match r with
            | Ok a => Ok (a, st)
            | Abort msg => Abort msg
            | Undefined => Undefined
            end.

Declare Scope pass_scope.
Delimit Scope pass_scope with pass.
Notation "x <- m ;; k" := (mbind m (fun x => k))
  (at level 100, m at next level, right associativity) : pass_scope.
Notation "m ;;; k" := (mbind m (fun _ => k))
  (at level 100, right associativity) : pass_scope.

Definition set_counters (f : gmap string ConstPropCounters -> gmap string ConstPropCounters)
    (st : PassState) : PassState :=
  mkState (f (counters st)) (created st) (replaced st) (diagnostics st)
    (outs st) (passFailed st).

(** [getNumberOfElements(Type)]: the number of elements of a shaped type;
    the cast to [ShapedType] asserts. *)
Definition getNumberOfElements (t : MlirType) : Result Z :=
  match t with
  | RankedTensorType s _ => Ok (getNumElements s)
  | _ => Abort "cast<Ty>() argument of incompatible type!"
  end.

Definition getShape (t : MlirType) : Result Shape :=
  match t with
  | RankedTensorType s _ => Ok s
  | _ => Abort "cast<Ty>() argument of incompatible type!"
  end.

Definition getElementType (t : MlirType) : Result ElementType :=
  match t with
  | RankedTensorType _ e | UnrankedTensorType e => Ok e
  | NoneType => Abort "cast<Ty>() argument of incompatible type!"
  end.

Definition newline : string := String (Ascii.ascii_of_nat 10) EmptyString.

Module Counters.

(** [map[name]]: the entry, default-constructed when absent. *)
Definition entry (name : string) (m : gmap string ConstPropCounters) : ConstPropCounters :=
  default (mkCounters 0 0) (m !! name).

(** The body of [count] on the map. *)
Definition add_invocation (c : ConstPropCounters) : ConstPropCounters :=
  mkCounters (to_size_t (invocations c + 1)) (input_elms c).

Definition add_elms (c : ConstPropCounters) (n : Z) : ConstPropCounters :=
  mkCounters (invocations c) (to_size_t (input_elms c + n)).

Definition count_map (name : string) (operands : list Value)
    (m : gmap string ConstPropCounters) : Result (gmap string ConstPropCounters) :=
  rbind (rfold (fun c oprnd => rbind (getNumberOfElements (v_type oprnd))
                                 (fun n => Ok (add_elms c n)))
           operands (add_invocation (entry name m)))
        (fun c => Ok (<[name := c]> m)).

Definition count (name : string) (operands : list Value) : M unit :=
  fun st => rbind (count_map name operands (counters st))
              (fun m => Ok (tt, set_counters (fun _ => m) st)).

(** The sequence in which [for (auto &entry : map)] visits the entries of the
    [unordered_map]: every entry once, in an order that the container does not
    specify and that is the same for the two loops of one [dump]. *)
Definition Iteration : Type :=
  gmap string ConstPropCounters -> list (string * ConstPropCounters).

Definition visitsAll (iterate : Iteration) : Prop :=
  forall m, iterate m ≡ₚ map_to_list m.

(** The totals of the header line of [dump]. *)
Definition total_invocations (entries : list (string * ConstPropCounters)) : Z :=
  fold_left (fun acc e => to_size_t (acc + invocations e.2)) entries 0.
Definition total_input_elms (entries : list (string * ConstPropCounters)) : Z :=
  fold_left (fun acc e => to_size_t (acc + input_elms e.2)) entries 0.

Definition dump_entry (e : string * ConstPropCounters) : string :=
  "  " +:+ e.1 +:+ " invocations:" +:+ pretty (invocations e.2)
    +:+ " input elements:" +:+ pretty (input_elms e.2) +:+ newline.

(** [dump]: the text written to the stream. *)
Definition dump_text (iterate : Iteration) (m : gmap string ConstPropCounters) : string :=
  "constprop report (cumulative), entries: " +:+ pretty (Z.of_nat (size m))
    +:+ ", total invocations:" +:+ pretty (total_invocations (iterate m))
    +:+ ", total input elements:" +:+ pretty (total_input_elms (iterate m)) +:+ newline
    +:+ foldr (fun e acc => dump_entry e +:+ acc) "" (iterate m).

Definition dump (iterate : Iteration) : M unit :=
  fun st => Ok (tt, mkState (counters st) (created st) (replaced st)
                      (diagnostics st) (outs st +:+ dump_text iterate (counters st))
                      (passFailed st)).

End Counters.

(** Creates ONNXConstantOp with the location and result type from
    replacingValue. *)
Definition createReplacingConstantOp (replacingValue : Value)
    (elements : ElementsAttr) : M ONNXConstantOp :=
  fun st =>
    let op := mkConstantOp (v_loc replacingValue) (v_type replacingValue) elements in
    Ok (op, mkState (counters st) (created st ++ [op]) (replaced st)
              (diagnostics st) (outs st) (passFailed st)).

Definition replaceOp (op : Loc) (newValues : list Value) : M unit :=
  fun st => Ok (tt, mkState (counters st) (created st)
                      (replaced st ++ [(op, newValues)]) (diagnostics st)
                      (outs st) (passFailed st)).

Definition emitError (loc : Loc) (msg : string) : M unit :=
  fun st => Ok (tt, mkState (counters st) (created st) (replaced st)
                      (diagnostics st ++ [(loc, msg)]) (outs st) (passFailed st)).

(** ** Element-wise operations *)

Inductive BinaryOp : Type :=
| ONNXAddOp | ONNXSubOp | ONNXMulOp | ONNXDivOp | ONNXMinOp | ONNXMaxOp.

Inductive UnaryOp : Type := ONNXNegOp | ONNXSqrtOp | ONNXReluOp.

#[global] Instance BinaryOp_eq_dec : EqDecision BinaryOp.
Proof. solve_decision. Defined.

Definition minSigned (w : Z) : Z := - 2 ^ (w - 1).

(** [ElementWiseBinaryOpImpl<OP, T>::eval] at the C++ type [T] of the element
    type [t]; the operands and the result are given by their wide
    representatives.  The primary template is [llvm_unreachable]; the
    arithmetic specialisations exclude [bool]. *)
Definition ElementWiseBinaryOpImpl (op : BinaryOp) (t : ElementType)
    (lhs rhs : WideNum) : Result WideNum :=
  match family t with
  | BoolFam =>
      let x := wide_b lhs in let y := wide_b rhs in
      match op with
      | ONNXMinOp => Ok (W_b (if negb y && x then y else x))
      | ONNXMaxOp => Ok (W_b (if negb x && y then y else x))
      | _ => Abort "unsupported op or type"
      end
  | SignedInt =>
      let w := bitWidth t in
      let x := wide_i64 lhs in let y := wide_i64 rhs in
      match op with
      | ONNXAddOp => Ok (W_i64 (wrap_s w (x + y)))
      | ONNXSubOp => Ok (W_i64 (wrap_s w (x - y)))
      | ONNXMulOp => Ok (W_i64 (wrap_s w (x * y)))
      | ONNXDivOp =>
          if y =? 0 then Undefined
          else if (32 <=? w) && (x =? minSigned w) && (y =? -1) then Undefined
          else Ok (W_i64 (wrap_s w (Z.quot x y)))
      | ONNXMinOp => Ok (W_i64 (if y <? x then y else x))
      | ONNXMaxOp => Ok (W_i64 (if x <? y then y else x))
      end
  | UnsignedInt =>
      let w := bitWidth t in
      let x := wide_u64 lhs in let y := wide_u64 rhs in
      match op with
      | ONNXAddOp => Ok (W_u64 (wrap_u w (x + y)))
      | ONNXSubOp => Ok (W_u64 (wrap_u w (x - y)))
      | ONNXMulOp => Ok (W_u64 (wrap_u w (x * y)))
      | ONNXDivOp => if y =? 0 then Undefined else Ok (W_u64 (wrap_u w (Z.quot x y)))
      | ONNXMinOp => Ok (W_u64 (if y <? x then y else x))
      | ONNXMaxOp => Ok (W_u64 (if x <? y then y else x))
      end
  | FloatFam =>
      let '(prec, emax) := floatFormat t in
      let x := wide_dbl lhs in let y := wide_dbl rhs in
      match op with
      | ONNXAddOp => Ok (W_dbl (SFadd prec emax x y))
      | ONNXSubOp => Ok (W_dbl (SFsub prec emax x y))
      | ONNXMulOp => Ok (W_dbl (SFmul prec emax x y))
      | ONNXDivOp => Ok (W_dbl (SFdiv prec emax x y))
      | ONNXMinOp => Ok (W_dbl (if SFltb y x then y else x))
      | ONNXMaxOp => Ok (W_dbl (if SFltb x y then y else x))
      end
  end.

(** [ElementWiseUnaryOpImpl<OP, T>::eval]: negation and relu for every type
    but [bool], square root for [double] only. *)
Definition ElementWiseUnaryOpImpl (op : UnaryOp) (t : ElementType)
    (val : WideNum) : Result WideNum :=
  match op, family t with
  | ONNXNegOp, SignedInt => Ok (W_i64 (wrap_s (bitWidth t) (- wide_i64 val)))
  | ONNXNegOp, UnsignedInt => Ok (W_u64 (wrap_u (bitWidth t) (- wide_u64 val)))
  | ONNXNegOp, FloatFam => Ok (W_dbl (SFopp (wide_dbl val)))
  | ONNXReluOp, SignedInt => Ok (W_i64 (if wide_i64 val <? 0 then 0 else wide_i64 val))
  | ONNXReluOp, UnsignedInt => Ok (W_u64 (wide_u64 val))
  | ONNXReluOp, FloatFam =>
      Ok (W_dbl (if SFltb (wide_dbl val) (S754_zero false) then S754_zero false
                 else wide_dbl val))
  | ONNXSqrtOp, FloatFam =>
      match t with
      | F64 => Ok (W_dbl (SFsqrt 53 1024 (wide_dbl val)))
      | _ => Abort "unsupported op or type"
      end
  | _, _ => Abort "unsupported op or type"
  end.

(** Modelled from the spec: [getWideNumWrappedTemplateFunction] of
    WideNum.hpp (section 4.1): the operator that narrows each wide operand to
    the element type, invokes the function at that type and widens the result
    back. *)
Definition elementwiseBinaryOpCombiner (op : BinaryOp) (elemType : ElementType)
    (lhs rhs : WideNum) : Result WideNum :=
  ElementWiseBinaryOpImpl op elemType (narrowWiden elemType lhs) (narrowWiden elemType rhs).

Definition elementwiseUnaryOpFunction (op : UnaryOp) (elemType : ElementType)
    (val : WideNum) : Result WideNum :=
  ElementWiseUnaryOpImpl op elemType (narrowWiden elemType val).

(** [divideBy]: the division by [denominator] at the wide C++ type of the
    family of [type] ([int64_t], [uint64_t] or [double]).
    [wideZeroDispatchNonBool] rejects [bool] when [divideBy] is called. *)
Definition divideBy (type : ElementType) (denominator : Z)
    : Result (WideNum -> Result WideNum) :=
  match family type with
  | BoolFam => Abort "wideZeroDispatchNonBool: bool"
  | SignedInt =>
      Ok (fun x => if denominator =? 0 then Undefined
                   else if (wide_i64 x =? minSigned 64) && (denominator =? -1) then Undefined
                   else Ok (W_i64 (Z.quot (wide_i64 x) denominator)))
  | UnsignedInt =>
      Ok (fun x => if to_size_t denominator =? 0 then Undefined
                   else Ok (W_u64 (Z.quot (wide_u64 x) (to_size_t denominator))))
  | FloatFam =>
      Ok (fun x => Ok (W_dbl (SFdiv 53 1024 (wide_dbl x) (SFofZ (53, 1024) denominator))))
  end.

(** ** The elements builder (OnnxElementsAttrBuilder)

    The builder is declared in OnnxElementsAttrBuilder.hpp; its operations
    are modelled from section 4.2 of the specification.  A result holds the
    wide scalars as they were computed: narrowing to the element type happens
    when a constant is materialised ([materialise]). *)

(** Modelled from the spec: the values a constant stores once materialised
    (section 3: "narrowing occurs only at materialisation"). *)
Definition materialise (e : ElementsAttr) : list WideNum :=
  map (narrowWiden (e_elementType e)) (e_values e).

(** The row-major multi-index of the flat position [p] in [shape]. *)
Fixpoint unravel (shape : Shape) (p : Z) : list Z :=
  match shape with
  | [] => []
  | _ :: rest =>
      let inner := getNumElements rest in
      (p / inner) :: unravel rest (p mod inner)
  end.

Definition dot (idx coef : list Z) : Z :=
  fold_right Z.add 0 (zip_with Z.mul idx coef).

(** The row-major strides of a shape. *)
Fixpoint rowMajorStrides (shape : Shape) : list Z :=
  match shape with
  | [] => []
  | _ :: rest => getNumElements rest :: rowMajorStrides rest
  end.

Definition readAt (values : list WideNum) (p : Z) : Result WideNum :=
  if p <? 0 then Undefined
  else match values !! Z.to_nat p with
       | Some v => Ok v
       | None => Undefined
       end.

(** Modelled from the spec: a view (section 3): the elements of [outShape]
    read from the base values through an affine index transform. *)
Definition affineView (values : list WideNum) (outShape : Shape)
    (coef : list Z) : Result (list WideNum) :=
  rmap (fun p => readAt values (dot (unravel outShape p) coef))
       (seqZ 0 (getNumElements outShape)).

(** Modelled from the spec: [transform] (section 4.2.1). *)
Definition transform (src : ElementsAttr) (outType : ElementType)
    (unaryFn : WideNum -> Result WideNum) : Result ElementsAttr :=
  match e_payload src with
  | Splat w => rbind (unaryFn w) (fun v => Ok (mkElements (e_shape src) outType (Splat v)))
  | Dense l => rbind (rmap unaryFn l) (fun vs => Ok (mkElements (e_shape src) outType (Dense vs)))
  end.

(** Modelled from the spec: [reshape] (section 4.2.5). *)
Definition reshape (src : ElementsAttr) (newShape : Shape) : Result ElementsAttr :=
  rbind (rassert (getNumElements newShape =? e_size src) "reshape: element count must be equal")
    (fun _ => Ok (mkElements newShape (e_elementType src) (e_payload src))).

(** The coefficients that read a tensor of shape [srcShape] at the multi-index
    of a broadcast shape of rank [rank]: dimensions are aligned from the
    right, a dimension of size 1 (or a missing one) is read at 0. *)
Definition broadcastCoef (srcShape : Shape) (rank : nat) : list Z :=
  replicate (rank - length srcShape) 0
    ++ zip_with (fun d st => if d =? 1 then 0 else st) srcShape (rowMajorStrides srcShape).

Fixpoint broadcastable (src target : list Z) : bool :=
  match src, target with
  | [], _ => true
  | _ :: _, [] => false
  | d :: src', t :: target' => ((d =? 1) || (d =? t)) && broadcastable src' target'
  end.

(** Modelled from the spec: [expand] (section 4.2.6). *)
Definition expand (src : ElementsAttr) (targetShape : Shape) : Result ElementsAttr :=
  rbind (rassert (broadcastable (rev (e_shape src)) (rev targetShape))
           "expand: shapes are not broadcast compatible") (fun _ =>
  match e_payload src with
  | Splat w => Ok (mkElements targetShape (e_elementType src) (Splat w))
  | Dense l =>
      rbind (affineView l targetShape (broadcastCoef (e_shape src) (length targetShape)))
        (fun vs => Ok (mkElements targetShape (e_elementType src) (Dense vs)))
  end).

(** Modelled from the spec: [transpose] (section 4.2.4). *)
Definition transpose (src : ElementsAttr) (perm : list Z) : Result ElementsAttr :=
  let shape := e_shape src in
  let pick (l : list Z) := map (fun i => default 0 (l !! Z.to_nat i)) perm in
  rbind (rassert (bool_decide (Permutation (map Z.to_nat perm) (seq 0 (length shape))))
           "transpose: perm must be a permutation") (fun _ =>
  let outShape := pick shape in
  match e_payload src with
  | Splat w => Ok (mkElements outShape (e_elementType src) (Splat w))
  | Dense l =>
      rbind (affineView l outShape (pick (rowMajorStrides shape)))
        (fun vs => Ok (mkElements outShape (e_elementType src) (Dense vs)))
  end).

Fixpoint rzip {A B C} (f : A -> B -> Result C) (l : list A) (k : list B) : Result (list C) :=
  match l, k with
  | a :: l', b :: k' => rbind (f a b) (fun c => rbind (rzip f l' k') (fun cs => Ok (c :: cs)))
  | _, _ => Ok []
  end.

(** Modelled from the spec: [combine] (section 4.2.2). *)
Definition combine (lhs rhs : ElementsAttr) (outShapedType : MlirType)
    (binaryFn : WideNum -> WideNum -> Result WideNum) : Result ElementsAttr :=
  rbind (getShape outShapedType) (fun outShape =>
  rbind (rassert (bool_decide (e_elementType lhs = e_elementType rhs))
           "combine: element types must be equal") (fun _ =>
  match e_payload lhs, e_payload rhs with
  | Splat x, Splat y =>
      rbind (binaryFn x y) (fun v => Ok (mkElements outShape (e_elementType lhs) (Splat v)))
  | _, _ =>
      rbind (expand lhs outShape) (fun l =>
      rbind (expand rhs outShape) (fun r =>
      rbind (rzip binaryFn (e_values l) (e_values r)) (fun vs =>
      Ok (mkElements outShape (e_elementType lhs) (Dense vs)))))
  end)).

(** Modelled from the spec: [where] (section 4.2.3). *)
Definition where_ (cond lhs rhs : ElementsAttr) (outShapedType : MlirType)
    : Result ElementsAttr :=
  rbind (getShape outShapedType) (fun outShape =>
  rbind (expand cond outShape) (fun c =>
  rbind (expand lhs outShape) (fun l =>
  rbind (expand rhs outShape) (fun r =>
  rbind (rzip (fun b xy => Ok (if wide_b b then fst xy else snd xy))
           (e_values c) (zip (e_values l) (e_values r))) (fun vs =>
  Ok (mkElements outShape (e_elementType lhs) (Dense vs))))))).

(** The wide scalar of an element of type [from] converted to the family of
    the element type [to]. *)
Definition convertWide (from to : ElementType) (w : WideNum) : WideNum :=
  let w := narrowWiden from w in
  narrowWiden to
    match family to with
    | SignedInt => W_i64 (wide_i64 w)
    | UnsignedInt => W_u64 (wide_u64 w)
    | FloatFam => W_dbl (wide_dbl w)
    | BoolFam => W_b (wide_b w)
    end.

(** Modelled from the spec: [castElementType] (section 4.2.7). *)
Definition castElementType (src : ElementsAttr) (newType : ElementType) : Result ElementsAttr :=
  transform src newType (fun w => Ok (convertWide (e_elementType src) newType w)).

(** The output shape of a reduction over [axes]: a reduced axis is kept with
    size 1 ([keepDims]) or removed. *)
Fixpoint reduceShapeFrom (axis : Z) (axes : list Z) (keepDims : bool)
    (shape : Shape) : Shape :=
  match shape with
  | [] => []
  | d :: rest =>
      (if bool_decide (axis ∈ axes) then (if keepDims then [1] else []) else [d])
        ++ reduceShapeFrom (axis + 1) axes keepDims rest
  end.

Definition reduceShape (axes : list Z) (keepDims : bool) (shape : Shape) : Shape :=
  reduceShapeFrom 0 axes keepDims shape.

(** The flat position, in the output, of the group that the element at flat
    position [p] of the input is reduced into. *)
Fixpoint reducePosFrom (axis : Z) (axes : list Z) (shape : Shape) (p : Z) : Z :=
  match shape with
  | [] => 0
  | _ :: rest =>
      let inner := getNumElements rest in
      let sub := reducePosFrom (axis + 1) axes rest (p mod inner) in
      if bool_decide (axis ∈ axes) then sub
      else (p / inner) * getNumElements (reduceShapeFrom (axis + 1) axes false rest) + sub
  end.

(** The elements reduced into the output position [o], in row-major order of
    the input. *)
Definition reduceGroup (axes : list Z) (shape : Shape) (vals : list WideNum)
    (o : Z) : list WideNum :=
  (filter (fun pv => reducePosFrom 0 axes shape pv.1 = o)
          (zip (seqZ 0 (Z.of_nat (length vals))) vals)).*2.

Definition foldGroup (combiner : WideNum -> WideNum -> Result WideNum)
    (group : list WideNum) : Result WideNum :=
  match group with
  | [] => Abort "reduce: empty tensor"
  | v :: vs => rfold combiner vs v
  end.

(** Modelled from the spec: [reduce] (section 4.2.8): for a non-empty input
    the left fold of the combiner along the collapsed axes in row-major
    order. *)
Definition reduce (src : ElementsAttr) (axes : list Z) (keepDims : bool)
    (combiner : WideNum -> WideNum -> Result WideNum) : Result ElementsAttr :=
  let outShape := reduceShape axes keepDims (e_shape src) in
  rbind (rmap (fun o => foldGroup combiner (reduceGroup axes (e_shape src) (e_values src) o))
           (seqZ 0 (getNumElements outShape)))
    (fun vs => Ok (mkElements outShape (e_elementType src) (Dense vs))).

(** The slab of [sz] indices from [off] along [axis], in row-major order. *)
Definition slab (shape : Shape) (axis : nat) (vals : list WideNum)
    (off sz : Z) : list WideNum :=
  let outer := getNumElements (take axis shape) in
  let axisSize := default 0 (shape !! axis) in
  let inner := getNumElements (drop (S axis) shape) in
  concat (map (fun o => take (Z.to_nat (sz * inner))
                          (drop (Z.to_nat ((o * axisSize + off) * inner)) vals))
              (seqZ 0 outer)).

Fixpoint splitFrom (src : ElementsAttr) (axis : nat) (off : Z) (sizes : list Z)
    : list ElementsAttr :=
  match sizes with
  | [] => []
  | sz :: rest =>
      mkElements (<[axis := sz]> (e_shape src)) (e_elementType src)
        (match e_payload src with
         | Splat w => Splat w
         | Dense l => Dense (slab (e_shape src) axis l off sz)
         end)
      :: splitFrom src axis (off + sz) rest
  end.

(** Modelled from the spec: [split] (section 4.2.9): the sizes must sum to the
    extent of the axis; one slab per size. *)
Definition split (src : ElementsAttr) (axis : Z) (sizes : list Z)
    : Result (list ElementsAttr) :=
  rbind (rassert ((0 <=? axis) && (axis <? Z.of_nat (length (e_shape src))))
           "split: axis out of range") (fun _ =>
  rbind (rassert (fold_right Z.add 0 sizes
                    =? default 0 (e_shape src !! Z.to_nat axis))
           "split sizes must sum to axis size") (fun _ =>
  Ok (splitFrom src (Z.to_nat axis) 0 sizes))).

(** Modelled from the spec: [fromWideNums] (section 3, "producer"): a buffer
    of as many wide scalars as the type has elements is handed to the filler
    and becomes the payload. *)
Definition fromWideNums (type : MlirType)
    (filler : list WideNum -> Result (list WideNum)) : Result ElementsAttr :=
  match type with
  | RankedTensorType shape elt =>
      rbind (rassert (hasStaticShape shape) "fromWideNums: type must have static shape")
        (fun _ =>
      rbind (filler (replicate (Z.to_nat (getNumElements shape)) (W_u64 0)))
        (fun buf => Ok (mkElements shape elt (Dense buf))))
  | _ => Abort "cast<Ty>() argument of incompatible type!"
  end.

(** [DenseElementsAttr::get(type, values)] of MLIR, for attribute values of
    the type [valueType]: one value makes a splat, otherwise there is one
    value per element. *)
Definition DenseElementsAttr_get (type : MlirType) (valueType : ElementType)
    (values : list WideNum) : Result ElementsAttr :=
  match type with
  | RankedTensorType shape elt =>
      rbind (rassert (hasStaticShape shape) "type must have static shape") (fun _ =>
      rbind (rassert (bool_decide (valueType = elt))
               "expected attribute type to equal element type") (fun _ =>
      match values with
      | [v] => Ok (mkElements shape elt (Splat v))
      | _ =>
          rbind (rassert (Z.of_nat (length values) =? getNumElements shape)
                   "hasSameElementsOrSplat(type, values)")
            (fun _ => Ok (mkElements shape elt (Dense values)))
      end))
  | _ => Abort "cast<Ty>() argument of incompatible type!"
  end.

(** A well-formed constant: a static shape and, when dense, one stored value
    per element. *)
Definition e_wf (e : ElementsAttr) : Prop :=
  Forall (fun d => 0 <= d) (e_shape e) /\
  match e_payload e with
  | Dense l => Z.of_nat (length l) = e_size e
  | Splat _ => True
  end.

(** ** The folds of ConstProp.cpp *)

Inductive LogicalResult : Type := success | failure.

(** [Value::getDefiningOp]: the operation, as its attribute dictionary.  A
    value that no operation defines has a null defining op: the pointer
    itself is harmless, and [Undefined] is what every read through it is. *)
Definition getDefiningOp (v : Value) : Result (gmap string Attribute) :=
  match v_def v with
  | DefOp _ attrs => Ok attrs
  | DefConstant _ | DefNone => Ok ∅
  | DefBlockArgument => Undefined
  end.

(** [cast<Op>(value.getDefiningOp())]. *)
Definition castDefiningOp (name : string) (v : Value) : Result (gmap string Attribute) :=
  match v_def v with
  | DefOp n attrs =>
      if bool_decide (n = name) then Ok attrs
      else Abort "cast<Ty>() argument of incompatible type!"
  | DefConstant _ | DefNone => Abort "cast<Ty>() argument of incompatible type!"
  | DefBlockArgument => Undefined
  end.

Definition getSIntAttr (op : gmap string Attribute) (attrName : string) (deflt : Z) : Z :=
  match op !! attrName with
  | Some (IntegerAttr v) => v
  | _ => deflt
  end.

(** [ArrayRef::operator[]], which asserts the index. *)
Definition at_ {A} (l : list A) (i : Z) : Result A :=
  if i <? 0 then Abort "Invalid index!"
  else match l !! Z.to_nat i with
       | Some a => Ok a
       | None => Abort "Invalid index!"
       end.

(** [ArrayRef::drop_front], which asserts that enough elements exist. *)
Definition drop_front {A} (l : list A) (n : Z) : Result (list A) :=
  if (0 <=? n) && (n <=? Z.of_nat (length l)) then Ok (drop (Z.to_nat n) l)
  else Abort "Dropping more elements than exist".

Definition ConstPropReshapeImpl (replacingValue constValue : Value)
    (reshapedShape : Shape) : Result ElementsAttr :=
  rbind (getConstValueElements constValue) (fun constElements =>
  reshape constElements reshapedShape).

Definition castShapedType (t : MlirType) : Result MlirType :=
  match t with
  | NoneType => Abort "cast<Ty>() argument of incompatible type!"
  | _ => Ok t
  end.

Section Folds.
Local Open Scope pass_scope.

(** Wraps the elements in a constant op that replaces [replacingValue]. *)
Definition replaceWith (replacingValue : Value) (elements : ElementsAttr) : M Value :=
  c <- createReplacingConstantOp replacingValue elements ;;
  mret (getResult c).

Definition ConstPropElementwiseBinary (op : BinaryOp)
    (replacingValue lhsValue rhsValue : Value) : M Value :=
  Counters.count "ElementwiseBinary" [lhsValue; rhsValue] ;;;
  replacingType <- lift (castShapedType (v_type replacingValue)) ;;
  lhs <- lift (getConstValueElements lhsValue) ;;
  rhs <- lift (getConstValueElements rhsValue) ;;
  let operandsElemType := e_elementType lhs in
  lift (rassert (bool_decide (operandsElemType = e_elementType rhs))
          "all element-wise binary ops have matching operands element types") ;;;
  resultElements <- lift (combine lhs rhs replacingType
                            (elementwiseBinaryOpCombiner op operandsElemType)) ;;
  replaceWith replacingValue resultElements.

Definition ConstPropElementwiseUnary (op : UnaryOp)
    (replacingValue constValue : Value) : M Value :=
  Counters.count "ElementwiseUnary" [constValue] ;;;
  replacingElemType <- lift (getElementType (v_type replacingValue)) ;;
  constElements <- lift (getConstValueElements constValue) ;;
  lift (rassert (bool_decide (replacingElemType = e_elementType constElements))
          "all element-wise unary ops preserve element type") ;;;
  transposedElements <- lift (transform constElements replacingElemType
                                (elementwiseUnaryOpFunction op replacingElemType)) ;;
  replaceWith replacingValue transposedElements.

Definition ConstPropWhere (replacingValue condValue lhsValue rhsValue : Value) : M Value :=
  Counters.count "Where" [condValue; lhsValue; rhsValue] ;;;
  replacingType <- lift (castShapedType (v_type replacingValue)) ;;
  cond <- lift (getConstValueElements condValue) ;;
  lift (rassert (bool_decide (e_elementType cond = I1))
          "ONNXWhereOp condition has bool element type") ;;;
  lhs <- lift (getConstValueElements lhsValue) ;;
  rhs <- lift (getConstValueElements rhsValue) ;;
  lift (rassert (bool_decide (e_elementType lhs = e_elementType rhs))
          "ONNXWhereOp branches have matching element types") ;;;
  resultElements <- lift (where_ cond lhs rhs replacingType) ;;
  replaceWith replacingValue resultElements.

(** *** Reductions *)

(** The template argument [ReduceOp]: the element-wise op of the reduction
    (ONNXAddOp for ReduceSum, ONNXMulOp for ReduceProd, ONNXMinOp for
    ReduceMin, ONNXMaxOp for ReduceMax), or ONNXReduceMeanOp. *)
Inductive ReduceOp : Type :=
| ReduceWith (op : BinaryOp)
| ONNXReduceMeanOp.

(** The scalars of [builder.getZeroAttr(type)] and of the attribute of
    value 1 ([getIntegerAttr(type, APInt(width, 1))], [getFloatAttr(type,
    1.0)]). *)
Definition wideZero (type : ElementType) : WideNum :=
  match family type with
  | SignedInt => W_i64 0
  | UnsignedInt => W_u64 0
  | FloatFam => W_dbl (S754_zero false)
  | BoolFam => W_b false
  end.

Definition wideOne (type : ElementType) : WideNum :=
  match family type with
  | SignedInt => W_i64 1
  | UnsignedInt => W_u64 1
  | FloatFam => W_dbl (SFofZ (53, 1024) 1)
  | BoolFam => W_b true
  end.

(** [getIdentity<ReduceOp>]: the scalar of the identity attribute. *)
Definition getIdentity (reduceOp : ReduceOp) (type : ElementType) : Result WideNum :=
  match reduceOp with
  | ReduceWith ONNXAddOp => Ok (wideZero type)
  | ReduceWith ONNXMulOp => Ok (wideOne type)
  | _ => Abort "reduce op has no identify, zero-size tensor unsupported"
  end.

(** The loop that finds [absoluteAxes], converting any negative axes to
    non-negative. *)
Definition absoluteAxesStep (rank : Z) (absoluteAxes : list Z) (a : Z)
    : Result (list Z) :=
  rbind (rassert ((- rank <=? a) && (a <? rank)) "axis out of range") (fun _ =>
  let axis := if a <? 0 then to_i64 (a + rank) else a in
  rbind (rassert (negb (bool_decide (axis ∈ absoluteAxes))) "duplicate axis")
    (fun _ => Ok (absoluteAxes ++ [to_unsigned axis]))).

Definition absoluteAxesOf (rank : Z) (axesRange : list Z) : Result (list Z) :=
  rfold (absoluteAxesStep rank) axesRange [].

(** If axes are empty and !noop_with_empty_axes, reduce over all
    dimensions. *)
Definition effectiveAxes (op : gmap string Attribute) (rank : Z)
    (absoluteAxes : list Z) : list Z :=
  if bool_decide (absoluteAxes = [])
     && (getSIntAttr op "noop_with_empty_axes" 0 =? 0)
  then map to_unsigned (seqZ 0 rank)
  else absoluteAxes.

(** The branch of ONNXReduceMeanOp in [ConstPropReduceAxesRange]: the sum, the
    assertion on the sizes, the denominator and the division. *)
Definition meanBody (data : ElementsAttr) (axes : list Z) (keepdims : bool)
    : Result ElementsAttr :=
  let elemType := e_elementType data in
  rbind (reduce data axes keepdims
           (elementwiseBinaryOpCombiner ONNXAddOp elemType)) (fun sum =>
  rbind (if e_size sum =? 0 then Undefined
         else rassert (Z.rem (e_size data) (e_size sum) =? 0)
                "ReduceSum reduces tensor size by integer factor") (fun _ =>
  let denominator := Z.quot (e_size data) (e_size sum) in
  rbind (divideBy elemType denominator) (fun f =>
  transform sum elemType f))).

Definition ConstPropReduceAxesRange (reduceOp : ReduceOp)
    (replacingValue dataValue : Value) (axesRange : list Z) : M Value :=
  Counters.count "Reduce" [dataValue] ;;;
  let op := getDefiningOp replacingValue in
  data <- lift (getConstValueElements dataValue) ;;
  let rank := Z.of_nat (length (e_shape data)) in
  absoluteAxes <- lift (absoluteAxesOf rank axesRange) ;;
  (* [absoluteAxes.empty() && getSIntAttr(op, ...) == 0]: the attribute is
     read through [op] only when the axes are empty. *)
  absoluteAxes <- lift (
    if bool_decide (absoluteAxes = [])
    then rbind op (fun op => Ok (effectiveAxes op rank absoluteAxes))
    else Ok absoluteAxes) ;;
  let elemType := e_elementType data in
  reduced <- lift (
    if bool_decide (absoluteAxes = []) then Ok data
    else if e_empty data then
      rbind (getIdentity reduceOp elemType) (fun identity =>
      DenseElementsAttr_get (v_type replacingValue) elemType [identity])
    else
      rbind op (fun op =>
      let keepdims := negb (getSIntAttr op "keepdims" 1 =? 0) in
      match reduceOp with
      | ONNXReduceMeanOp => meanBody data absoluteAxes keepdims
      | ReduceWith binOp =>
          reduce data absoluteAxes keepdims (elementwiseBinaryOpCombiner binOp elemType)
      end)) ;;
  replaceWith replacingValue reduced.

(** [ConstPropReduce] with the axes as an operand. *)
Definition ConstPropReduce (reduceOp : ReduceOp)
    (replacingValue dataValue axesValue : Value) : M Value :=
  if isFromNone axesValue then
    ConstPropReduceAxesRange reduceOp replacingValue dataValue []
  else
    axes <- lift (getConstValueElements axesValue) ;;
    ConstPropReduceAxesRange reduceOp replacingValue dataValue (e_int64s axes).

(** [ConstPropReduce] with the axes as an attribute. *)
Definition ConstPropReduceAttr (reduceOp : ReduceOp)
    (replacingValue dataValue : Value) (axesArray : option (list Z)) : M Value :=
  match axesArray with
  | Some axesRange => ConstPropReduceAxesRange reduceOp replacingValue dataValue axesRange
  | None => ConstPropReduceAxesRange reduceOp replacingValue dataValue []
  end.

End Folds.

(** *** Transpose, Unsqueeze, Squeeze, Cast, Expand, Reshape *)

Section ShapeFolds.
Local Open Scope pass_scope.

Definition ConstPropTranspose (replacingValue constValue : Value) : M Value :=
  Counters.count "Transpose" [constValue] ;;;
  op <- lift (getDefiningOp replacingValue) ;;
  perm <- lift (match op !! "perm" with
                | Some (ArrayAttr l) => Ok (map to_size_t l)
                | _ => Abort "cast<Ty>() argument of incompatible type!"
                end) ;;
  constElements <- lift (getConstValueElements constValue) ;;
  transposedElements <- lift (transpose constElements perm) ;;
  replaceWith replacingValue transposedElements.

Definition ConstPropUnsqueeze (replacingValue input : Value) : M Value :=
  Counters.count "Unsqueeze" [input] ;;;
  reshapedShape <- lift (getShape (v_type replacingValue)) ;;
  reshapedElements <- lift (ConstPropReshapeImpl replacingValue input reshapedShape) ;;
  replaceWith replacingValue reshapedElements.

Definition ConstPropSqueeze (replacingValue input : Value) : M Value :=
  Counters.count "Squeeze" [input] ;;;
  reshapedShape <- lift (getShape (v_type replacingValue)) ;;
  reshapedElements <- lift (ConstPropReshapeImpl replacingValue input reshapedShape) ;;
  replaceWith replacingValue reshapedElements.

Definition ConstPropCast (replacingValue constValue : Value) : M Value :=
  Counters.count "Cast" [constValue] ;;;
  replacingElemType <- lift (getElementType (v_type replacingValue)) ;;
  constElements <- lift (getConstValueElements constValue) ;;
  castElements <- lift (castElementType constElements replacingElemType) ;;
  replaceWith replacingValue castElements.

Definition ConstPropExpand (replacingValue constValue : Value) : M Value :=
  Counters.count "Expand" [constValue] ;;;
  expandedShape <- lift (getShape (v_type replacingValue)) ;;
  constElements <- lift (getConstValueElements constValue) ;;
  expandedElements <- lift (expand constElements expandedShape) ;;
  replaceWith replacingValue expandedElements.

Definition ConstPropReshape (replacingValue constValue : Value) : M Value :=
  Counters.count "Reshape" [constValue] ;;;
  reshapedShape <- lift (getShape (v_type replacingValue)) ;;
  reshapedElements <- lift (ConstPropReshapeImpl replacingValue constValue reshapedShape) ;;
  replaceWith replacingValue reshapedElements.

End ShapeFolds.

(** *** Split *)

Record SplitOp : Type := mkSplitOp {
  split_loc : Loc;
  split_attrs : gmap string Attribute;
  split_input : Value;
  split_results : list MlirType        (* the declared result types *)
}.

Definition split_getNumResults (op : SplitOp) : Z :=
  to_unsigned (Z.of_nat (length (split_results op))).

Definition split_getResult (op : SplitOp) (i : nat) : Result Value :=
  match split_results op !! i with
  | Some t => Ok (mkValue (split_loc op) t (DefOp "onnx.Split" (split_attrs op)))
  | None => Abort "Result is out of range"
  end.

(** [std::accumulate(first, last, 0)]: the accumulator has the type of the
    initial value, [int]. *)
Definition accumulate_int (l : list Z) : Z :=
  fold_left (fun acc x => to_int (acc + x)) l 0.

(** The sizes of the outputs and the assertion on them. *)
Definition splitSizesOf (numResults splitAxisSize : Z)
    (splitAttr : option (list Z)) : Result (list Z) :=
  if numResults =? 0 then Undefined
  else
    let splitSizes := replicate (Z.to_nat numResults) (Z.quot splitAxisSize numResults) in
    match splitAttr with
    | Some attr =>
        rbind (rmap (fun i => at_ attr i) (seqZ 0 numResults)) (fun splitSizes =>
        rbind (rassert (splitAxisSize =? accumulate_int splitSizes)
                 "split values must sum to axis size") (fun _ =>
        Ok splitSizes))
    | None =>
        rbind (rassert (Z.rem splitAxisSize numResults =? 0)
                 "The dimension at the split axis is expected to be divisible by the number of results")
          (fun _ => Ok splitSizes)
    end.

Section SplitFold.
Local Open Scope pass_scope.

(** The loop that creates one constant per result. *)
Fixpoint createSplitResults (op : SplitOp) (resElements : list ElementsAttr)
    (i : nat) (n : nat) : M (list Value) :=
  match n with
  | O => mret []
  | S n' =>
      replacingValue <- lift (split_getResult op i) ;;
      splitElements <- lift (match resElements !! i with
                             | Some e => Ok e
                             | None => Undefined
                             end) ;;
      c <- createReplacingConstantOp replacingValue splitElements ;;
      rest <- createSplitResults op resElements (S i) n' ;;
      mret (getResult c :: rest)
  end.

Definition ConstPropSplitPatternCommon (splitOp : SplitOp)
    (splitAttr : option (list Z)) : M LogicalResult :=
  let numResults := split_getNumResults splitOp in
  let input := split_input splitOp in
  if negb (isDenseONNXConstant input) then mret failure
  else
    Counters.count "Split" [input] ;;;
    inputShape <- lift (getShape (v_type input)) ;;
    let splitAxis := to_size_t (getSIntAttr (split_attrs splitOp) "axis" 0) in
    splitAxisSize <- lift (at_ inputShape splitAxis) ;;
    splitSizes <- lift (splitSizesOf numResults splitAxisSize splitAttr) ;;
    inputElements <- lift (getConstValueElements input) ;;
    resElements <- lift (split inputElements splitAxis splitSizes) ;;
    resValues <- createSplitResults splitOp resElements 0 (Z.to_nat numResults) ;;
    replaceOp (split_loc splitOp) resValues ;;;
    mret success.

(** [createArrayAttrFromConstantOp]: the integers of a dense constant. *)
Definition createArrayAttrFromConstantOp (c : option ElementsAttr) : Result (list Z) :=
  match c with
  | Some e => Ok (e_int64s e)
  | None => Abort "ConstantOp is not a DenseElementsAttr"
  end.

(** [ConstPropSplitPattern::matchAndRewrite]: [split] is the operand that
    holds the sizes. *)
Definition ConstPropSplitPattern (splitOp : SplitOp) (split : Value) : M LogicalResult :=
  match getONNXConstantOp split with
  | Some splitConstOp =>
      splitAttribute <- lift (createArrayAttrFromConstantOp splitConstOp) ;;
      ConstPropSplitPatternCommon splitOp (Some splitAttribute)
  | None =>
      if negb (bool_decide (v_type split = NoneType)) then
        lift (Abort "dynamic split not yet supported")
      else ConstPropSplitPatternCommon splitOp None
  end.

(** [ConstPropSplitV11Pattern::matchAndRewrite]: the sizes are the optional
    attribute [split]. *)
Definition ConstPropSplitV11Pattern (splitOp : SplitOp) : M LogicalResult :=
  ConstPropSplitPatternCommon splitOp
    match split_attrs splitOp !! "split" with
    | Some (ArrayAttr l) => Some l
    | _ => None
    end.

End SplitFold.

(** *** Buffers *)

(** [std::copy_n(src + from, n, dst + to)] on raw pointers: nothing is copied
    when [n <= 0]; an access outside either buffer is undefined. *)
Definition copy_n {A} (src : list A) (from n : Z) (dst : list A) (to : Z)
    : Result (list A) :=
  if n <=? 0 then Ok dst
  else if (0 <=? from) && (from + n <=? Z.of_nat (length src))
          && (0 <=? to) && (to + n <=? Z.of_nat (length dst))
  then Ok (take (Z.to_nat to) dst
             ++ take (Z.to_nat n) (drop (Z.to_nat from) src)
             ++ drop (Z.to_nat (to + n)) dst)
  else Undefined.

(** The loop
    [for (offset = start; offset < dst.size(); offset += outStride)
       { copy_n(in, len, out + offset); in += inStride; }]
    of Concat and Gather; it returns the buffer and the final [in].  The
    loop ends within [fuel] iterations unless [outStride] is zero. *)
Fixpoint stridedCopy {A} (fuel : nat) (src : list A) (inPos len inStride : Z)
    (dst : list A) (offset outStride : Z) : Result (list A * Z) :=
  if offset <? Z.of_nat (length dst) then
    match fuel with
    | O => Undefined
    | S fuel' =>
        rbind (copy_n src inPos len dst offset) (fun dst' =>
        stridedCopy fuel' src (inPos + inStride) len inStride dst'
          (to_size_t (offset + outStride)) outStride)
    end
  else Ok (dst, inPos).

(** *** ScatterND *)

(** Compute strides for a given shape. *)
Fixpoint getStrides_count (shape : Shape) : list Z * Z :=
  match shape with
  | [] => ([], 1)
  | d :: rest =>
      let '(strides, count) := getStrides_count rest in
      (count :: strides, to_i64 (count * d))
  end.

Definition getStrides (shape : Shape) : list Z := fst (getStrides_count shape).

(** Compute the linear access index. *)
Definition getLinearAccessIndex (indices strides : list Z) : Result Z :=
  rfold (fun index i =>
           rbind (at_ indices (Z.of_nat i)) (fun idx =>
           Ok (to_i64 (index + to_i64 (idx * default 0 (strides !! i))))))
        (seq 0 (length strides)) 0.

(** [ArrayRef::take_front]. *)
Definition take_front {A} (l : list A) (n : Z) : list A :=
  if to_size_t n >=? Z.of_nat (length l) then l else take (Z.to_nat (to_size_t n)) l.

(** [ArrayRef<int64_t>(iter, n)]: the [n] elements from position [from] of
    the buffer; elements outside the buffer are undefined. *)
Definition arrayRefAt {A} (l : list A) (from n : Z) : Result (list A) :=
  if n <=? 0 then Ok []
  else if (0 <=? from) && (from + n <=? Z.of_nat (length l))
  then Ok (take (Z.to_nat n) (drop (Z.to_nat from) l))
  else Undefined.

(** The loop over the slices of [ScatterNDImpl]. *)
Fixpoint scatterLoop (n : nat) (indices : list Z) (updates : list WideNum)
    (indices_nd slice_size : Z) (sliceStrides : list Z)
    (indicesIter updatesIter : Z) (output : list WideNum) : Result (list WideNum) :=
  match n with
  | O => Ok output
  | S n' =>
      rbind (arrayRefAt indices indicesIter indices_nd) (fun idxs =>
      rbind (getLinearAccessIndex idxs sliceStrides) (fun pos =>
      rbind (copy_n updates updatesIter slice_size output pos) (fun output' =>
      scatterLoop n' indices updates indices_nd slice_size sliceStrides
        (indicesIter + indices_nd) (updatesIter + slice_size) output')))
  end.

(** [readElementsWideNums]: the elements are read into the destination, which
    has as many places. *)
Definition readElementsWideNums (e : ElementsAttr) (dst : list WideNum)
    : Result (list WideNum) :=
  if bool_decide (length (e_values e) = length dst) then Ok (e_values e)
  else Undefined.

Definition ScatterNDImpl (dataElements indicesElements updatesElements : ElementsAttr)
    (output : list WideNum) : Result (list WideNum) :=
  rbind (readElementsWideNums dataElements output) (fun output =>
  let indices := e_int64s indicesElements in
  let updates := e_values updatesElements in
  let dataShape := e_shape dataElements in
  let indicesShape := e_shape indicesElements in
  let updatesShape := e_shape updatesElements in
  rbind (match last indicesShape with
         | Some d => Ok d
         | None => Abort "!empty()"
         end) (fun indices_nd =>
  let outer := removelast indicesShape in
  let n_slices := getNumElements outer in
  rbind (drop_front updatesShape (Z.of_nat (length outer))) (fun sliceShape =>
  let slice_size := getNumElements sliceShape in
  let dataStrides := getStrides dataShape in
  let sliceStrides := take_front dataStrides indices_nd in
  scatterLoop (Z.to_nat n_slices) indices updates indices_nd slice_size
    sliceStrides 0 0 output))).

Record ScatterNDOp : Type := mkScatterNDOp {
  scatter_loc : Loc;
  scatter_data : Value;
  scatter_indices : Value;
  scatter_updates : Value;
  scatter_resultType : MlirType
}.

Definition scatter_getResult (op : ScatterNDOp) : Value :=
  mkValue (scatter_loc op) (scatter_resultType op) (DefOp "onnx.ScatterND" ∅).

Definition isRankedTensorType (t : MlirType) : bool :=
  match t with RankedTensorType _ _ => true | _ => false end.

Section ScatterFold.
Local Open Scope pass_scope.

Definition ConstPropScatterNDPattern (scatterNdOp : ScatterNDOp) : M LogicalResult :=
  if negb (isRankedTensorType (scatter_resultType scatterNdOp)) then mret failure
  else if negb (isDenseONNXConstant (scatter_data scatterNdOp)) then mret failure
  else if negb (isDenseONNXConstant (scatter_indices scatterNdOp)) then mret failure
  else if negb (isDenseONNXConstant (scatter_updates scatterNdOp)) then mret failure
  else
    Counters.count "Scatter" [scatter_data scatterNdOp; scatter_indices scatterNdOp;
                              scatter_updates scatterNdOp] ;;;
    dataElements <- lift (getConstValueElements (scatter_data scatterNdOp)) ;;
    indicesElements <- lift (getConstValueElements (scatter_indices scatterNdOp)) ;;
    updatesElements <- lift (getConstValueElements (scatter_updates scatterNdOp)) ;;
    scatteredElements <- lift (fromWideNums (e_type dataElements)
                                 (ScatterNDImpl dataElements indicesElements updatesElements)) ;;
    constOp <- createReplacingConstantOp (scatter_data scatterNdOp) scatteredElements ;;
    replaceOp (scatter_loc scatterNdOp) [getResult constOp] ;;;
    mret success.

End ScatterFold.

(** *** Gather *)

(** The loop over the indices of [ConstPropGatherImpl]. *)
Fixpoint gatherLoop (indices : list Z) (inputData : list WideNum)
    (axisSize inputStride len outputStride : Z) (start : Z)
    (outputData : list WideNum) : Result (list WideNum) :=
  match indices with
  | [] => Ok outputData
  | idx :: rest =>
      let adjustedIdx :=
        to_i64 (if idx <? 0 then to_size_t (idx + axisSize) else to_size_t idx) in
      let inPos := to_size_t (adjustedIdx * len) in
      rbind (stridedCopy (S (length outputData)) inputData inPos len inputStride
               outputData start outputStride) (fun r =>
      gatherLoop rest inputData axisSize inputStride len outputStride
        (to_size_t (start + len)) (fst r))
  end.

Definition ConstPropGatherImpl (outputShape : Shape)
    (inputElements indicesElements : ElementsAttr) (axis : Z)
    (outputData : list WideNum) : Result (list WideNum) :=
  let inputData := e_values inputElements in
  let indicesData := e_int64s indicesElements in
  let inputShape := e_shape inputElements in
  rbind (at_ inputShape (to_size_t axis)) (fun axisSize =>
  let axisSize := to_size_t axisSize in
  rbind (drop_front inputShape (to_size_t axis)) (fun inputTail =>
  let inputStride := to_size_t (getNumElements inputTail) in
  rbind (if axisSize =? 0 then Undefined else Ok (inputStride / axisSize)) (fun len =>
  rbind (drop_front outputShape (to_size_t axis)) (fun outputTail =>
  let outputStride := to_size_t (getNumElements outputTail) in
  rbind (rassert (outputStride =? to_size_t (Z.of_nat (length indicesData) * len))
           "outputStride == indicesData.get().size() * len") (fun _ =>
  gatherLoop indicesData inputData axisSize inputStride len outputStride 0
    outputData))))).

Definition getRank (t : MlirType) : Result Z :=
  match t with
  | RankedTensorType s _ => Ok (Z.of_nat (length s))
  | _ => Abort "cast<Ty>() argument of incompatible type!"
  end.

(** *** Slice *)

(** The recursive lambda [traverse] of [ConstPropSliceImpl]; [dims] holds, for
    the axes still to go, the source step, the destination stride and the
    size of the output dimension. *)
Fixpoint traverse (dims : list (Z * Z * Z)) (inputData : list WideNum)
    (srcPos dstPos : Z) (outputData : list WideNum) : Result (list WideNum) :=
  match dims with
  | [] =>
      rbind (at_ inputData srcPos) (fun v =>
      rbind (at_ outputData dstPos) (fun _ =>
      Ok (<[Z.to_nat dstPos := v]> outputData)))
  | (srcStep, dstStride, dimSize) :: rest =>
      (fix loop (n : nat) (srcPos dstPos : Z) (outputData : list WideNum)
         : Result (list WideNum) :=
         match n with
         | O => Ok outputData
         | S n' =>
             rbind (traverse rest inputData srcPos dstPos outputData) (fun outputData' =>
             loop n' (to_size_t (srcPos + srcStep)) (to_size_t (dstPos + dstStride))
               outputData')
         end) (Z.to_nat dimSize) srcPos dstPos outputData
  end.

(** What [ONNXSliceOpShapeHelper] hands to the fold: the literal starts and
    steps of every axis. *)
Record SliceShapeHelper : Type := mkSliceHelper {
  starts : list Z;
  steps : list Z
}.

Definition ConstPropSliceImpl (outputShape : Shape) (shapeHelper : SliceShapeHelper)
    (inputElements : ElementsAttr) (outputData : list WideNum)
    : Result (list WideNum) :=
  let rank := length outputShape in
  let outputStrides := getStrides outputShape in
  let inputStrides := getStrides (e_shape inputElements) in
  rbind (rfold (fun acc axis =>
                  rbind (at_ (starts shapeHelper) (Z.of_nat axis)) (fun st =>
                  rbind (at_ (steps shapeHelper) (Z.of_nat axis)) (fun sp =>
                  match inputStrides !! axis with
                  | None => Undefined
                  | Some inStride =>
                      Ok (to_size_t (fst acc + st * inStride),
                          snd acc ++ [to_size_t (sp * inStride)])
                  end)))
           (seq 0 rank) (0, [])) (fun r =>
  let start := fst r in
  let dims := zip (zip (snd r) (map to_size_t outputStrides)) (map to_size_t outputShape) in
  traverse dims (e_values inputElements) start 0 outputData).

(** *** Concat *)

Fixpoint concatLoop (inputs : list ElementsAttr) (axis : Z) (stride : Z)
    (start : Z) (outputData : list WideNum) : Result (list WideNum) :=
  match inputs with
  | [] => Ok outputData
  | input :: rest =>
      rbind (drop_front (e_shape input) (to_size_t axis)) (fun tail =>
      let len := to_size_t (getNumElements tail) in
      let inputData := e_values input in
      rbind (stridedCopy (S (length outputData)) inputData 0 len len
               outputData start stride) (fun r =>
      rbind (rassert (snd r =? Z.of_nat (length inputData))
               "input num elements mismatch") (fun _ =>
      concatLoop rest axis stride (to_size_t (start + len)) (fst r))))
  end.

Definition ConstPropConcatImpl (outputShape : Shape) (inputElements : list ElementsAttr)
    (axis : Z) (outputData : list WideNum) : Result (list WideNum) :=
  rbind (drop_front outputShape (to_size_t axis)) (fun tail =>
  let stride := to_size_t (getNumElements tail) in
  concatLoop inputElements axis stride 0 outputData).

Section BufferFolds.
Local Open Scope pass_scope.

Definition ConstPropGather (replacingValue inputValue indicesValue : Value) : M Value :=
  Counters.count "Gather" [inputValue; indicesValue] ;;;
  gatherOp <- lift (castDefiningOp "onnx.Gather" replacingValue) ;;
  let axis := getSIntAttr gatherOp "axis" 0 in
  axis <- (if axis <? 0
           then (rank <- lift (getRank (v_type inputValue)) ;; mret (to_i64 (axis + rank)))
           else mret axis) ;;
  inputElements <- lift (getConstValueElements inputValue) ;;
  indicesElements <- lift (getConstValueElements indicesValue) ;;
  outputType <- lift (castShapedType (v_type replacingValue)) ;;
  gatheredElements <- lift (
    rbind (getShape outputType) (fun outputShape =>
    fromWideNums outputType
      (ConstPropGatherImpl outputShape inputElements indicesElements axis))) ;;
  replaceWith replacingValue gatheredElements.

(** [shapeHelper] is [None] when [computeShape] fails. *)
Definition ConstPropSlice (replacingValue constValue : Value)
    (shapeHelper : option SliceShapeHelper) : M (option Value) :=
  Counters.count "Slice" [constValue] ;;;
  sliceOp <- lift (castDefiningOp "onnx.Slice" replacingValue) ;;
  match shapeHelper with
  | None =>
      emitError (v_loc replacingValue)
        "Failed to scan onnx.Slice parameters successfully" ;;;
      mret None
  | Some shapeHelper =>
      inputElements <- lift (getConstValueElements constValue) ;;
      outputType <- lift (castShapedType (v_type replacingValue)) ;;
      slicedElements <- lift (
        rbind (getShape outputType) (fun outputShape =>
        fromWideNums outputType
          (ConstPropSliceImpl outputShape shapeHelper inputElements))) ;;
      v <- replaceWith replacingValue slicedElements ;;
      mret (Some v)
  end.

Definition ConstPropConcat (replacingValue : Value) (operands : list Value)
    (axisAttr : Z) : M Value :=
  Counters.count "Concat" operands ;;;
  outputType <- lift (castShapedType (v_type replacingValue)) ;;
  axis <- (if axisAttr <? 0
           then (rank <- lift (getRank outputType) ;; mret (to_i64 (axisAttr + rank)))
           else mret axisAttr) ;;
  inputElements <- lift (rmap getConstValueElements operands) ;;
  concatenatedElements <- lift (
    rbind (getShape outputType) (fun outputShape =>
    fromWideNums outputType (ConstPropConcatImpl outputShape inputElements axis))) ;;
  replaceWith replacingValue concatenatedElements.

(** *** The pass *)

Definition signalPassFailure : M unit :=
  fun st => Ok (tt, mkState (counters st) (created st) (replaced st)
                      (diagnostics st) (outs st) true).

(** [ConstPropONNXToONNXPass::runOnOperation]; the iteration order of the
    counter map and the greedy driver of MLIR, which applies the patterns, are
    arguments. *)
Definition runOnOperation (report : bool) (iterate : Counters.Iteration)
    (applyPatternsAndFoldGreedily : M LogicalResult) : M unit :=
  r <- applyPatternsAndFoldGreedily ;;
  (match r with failure => signalPassFailure | success => mret tt end) ;;;
  if report then Counters.dump iterate else mret tt.

End BufferFolds.

(** ** Every fold, as one call *)

(** A fold handed to the driver: the function of ConstProp.cpp and its
    arguments.  The folds of the generated patterns are called once their
    operands matched as dense constants; the three hand-written patterns
    match by themselves. *)
Inductive Fold : Type :=
| FoldElementwiseBinary (op : BinaryOp) (replacingValue lhs rhs : Value)
| FoldElementwiseUnary (op : UnaryOp) (replacingValue constValue : Value)
| FoldWhere (replacingValue cond lhs rhs : Value)
| FoldReduce (op : ReduceOp) (replacingValue data axes : Value)
| FoldReduceAttr (op : ReduceOp) (replacingValue data : Value) (axesArray : option (list Z))
| FoldTranspose (replacingValue constValue : Value)
| FoldUnsqueeze (replacingValue input : Value)
| FoldSqueeze (replacingValue input : Value)
| FoldSplit (splitOp : SplitOp) (split : Value)
| FoldSplitV11 (splitOp : SplitOp)
| FoldScatterND (scatterNdOp : ScatterNDOp)
| FoldCast (replacingValue constValue : Value)
| FoldSlice (replacingValue constValue : Value) (shapeHelper : option SliceShapeHelper)
| FoldConcat (replacingValue : Value) (operands : list Value) (axis : Z)
| FoldExpand (replacingValue constValue : Value)
| FoldGather (replacingValue input indices : Value)
| FoldReshape (replacingValue constValue : Value).

(** How a fold ends when the process goes on: the op was replaced by new
    constants, the pattern did not match, or the fold gave up with a
    diagnostic. *)
Inductive FoldOutcome : Type :=
| Folded
| NoMatch
| FoldFailed.

Definition ofValue (m : M Value) : M FoldOutcome :=
  mbind m (fun _ => mret Folded).

Definition ofLogicalResult (m : M LogicalResult) : M FoldOutcome :=
  mbind m (fun r => mret match r with success => Folded | failure => NoMatch end).

Definition runFold (f : Fold) : M FoldOutcome :=
  match f with
  | FoldElementwiseBinary op r lhs rhs => ofValue (ConstPropElementwiseBinary op r lhs rhs)
  | FoldElementwiseUnary op r c => ofValue (ConstPropElementwiseUnary op r c)
  | FoldWhere r c lhs rhs => ofValue (ConstPropWhere r c lhs rhs)
  | FoldReduce op r d a => ofValue (ConstPropReduce op r d a)
  | FoldReduceAttr op r d a => ofValue (ConstPropReduceAttr op r d a)
  | FoldTranspose r c => ofValue (ConstPropTranspose r c)
  | FoldUnsqueeze r c => ofValue (ConstPropUnsqueeze r c)
  | FoldSqueeze r c => ofValue (ConstPropSqueeze r c)
  | FoldSplit op split => ofLogicalResult (ConstPropSplitPattern op split)
  | FoldSplitV11 op => ofLogicalResult (ConstPropSplitV11Pattern op)
  | FoldScatterND op => ofLogicalResult (ConstPropScatterNDPattern op)
  | FoldCast r c => ofValue (ConstPropCast r c)
  | FoldSlice r c h =>
      mbind (ConstPropSlice r c h)
        (fun v => mret match v with Some _ => Folded | None => FoldFailed end)
  | FoldConcat r ops a => ofValue (ConstPropConcat r ops a)
  | FoldExpand r c => ofValue (ConstPropExpand r c)
  | FoldGather r i j => ofValue (ConstPropGather r i j)
  | FoldReshape r c => ofValue (ConstPropReshape r c)
  end.

(** The name under which a fold counts itself. *)
Definition foldCategory (f : Fold) : string :=
  match f with
  | FoldElementwiseBinary _ _ _ _ => "ElementwiseBinary"
  | FoldElementwiseUnary _ _ _ => "ElementwiseUnary"
  | FoldWhere _ _ _ _ => "Where"
  | FoldReduce _ _ _ _ | FoldReduceAttr _ _ _ _ => "Reduce"
  | FoldTranspose _ _ => "Transpose"
  | FoldUnsqueeze _ _ => "Unsqueeze"
  | FoldSqueeze _ _ => "Squeeze"
  | FoldSplit _ _ | FoldSplitV11 _ => "Split"
  | FoldScatterND _ => "Scatter"
  | FoldCast _ _ => "Cast"
  | FoldSlice _ _ _ => "Slice"
  | FoldConcat _ _ _ => "Concat"
  | FoldExpand _ _ => "Expand"
  | FoldGather _ _ _ => "Gather"
  | FoldReshape _ _ => "Reshape"
  end.

(** The operands a fold hands to [ConstPropCounters::count]. *)
Definition countedOperands (f : Fold) : list Value :=
  match f with
  | FoldElementwiseBinary _ _ lhs rhs => [lhs; rhs]
  | FoldElementwiseUnary _ _ c => [c]
  | FoldWhere _ c lhs rhs => [c; lhs; rhs]
  | FoldReduce _ _ d _ | FoldReduceAttr _ _ d _ => [d]
  | FoldTranspose _ c | FoldUnsqueeze _ c | FoldSqueeze _ c => [c]
  | FoldSplit op _ | FoldSplitV11 op => [split_input op]
  | FoldScatterND op => [scatter_data op; scatter_indices op; scatter_updates op]
  | FoldCast _ c | FoldSlice _ c _ | FoldExpand _ c | FoldReshape _ c => [c]
  | FoldConcat _ ops _ => ops
  | FoldGather _ i j => [i; j]
  end.

(** All the constant operands of the folded op, counted or not. *)
Definition constantOperands (f : Fold) : list Value :=
  match f with
  | FoldReduce _ _ d a => if isFromNone a then [d] else [d; a]
  | FoldSplit op split =>
      match getONNXConstantOp split with
      | Some _ => [split_input op; split]
      | None => [split_input op]
      end
  | _ => countedOperands f
  end.

(** The values of the folded op that the new constants replace. *)
Definition replacedValues (f : Fold) : list Value :=
  match f with
  | FoldElementwiseBinary _ r _ _ | FoldElementwiseUnary _ r _ | FoldWhere r _ _ _
  | FoldReduce _ r _ _ | FoldReduceAttr _ r _ _ | FoldTranspose r _
  | FoldUnsqueeze r _ | FoldSqueeze r _ | FoldCast r _ | FoldSlice r _ _
  | FoldConcat r _ _ | FoldExpand r _ | FoldGather r _ _ | FoldReshape r _ => [r]
  | FoldSplit op _ | FoldSplitV11 op =>
      map (fun t => mkValue (split_loc op) t (DefOp "onnx.Split" (split_attrs op)))
          (split_results op)
  | FoldScatterND op => [scatter_getResult op]
  end.

(** Modelled from the spec: the default of the flag [report] of
    [createConstPropONNXToONNXPass], declared in Passes.hpp (section 4.5,
    "Configuration"). *)
Definition report_default : bool := false.

(** Create a ConstPropONNX pass. *)
Definition createConstPropONNXToONNXPass (report : option bool)
    : Counters.Iteration -> M LogicalResult -> M unit :=
  runOnOperation (default report_default report).

(** A fold surfaces a diagnostic when it returns normally and has attached an
    error to an operation. *)
Definition surfacesDiagnostic {A} (st : PassState) (r : Result (A * PassState)) : Prop :=
  exists a st', r = Ok (a, st')
    /\ (length (diagnostics st) < length (diagnostics st'))%nat.

(** The state before the pass has run. *)
Definition initialState : PassState := mkState ∅ [] [] [] "" false.

(** ** Example inputs *)

Definition dynamicSplitOp : SplitOp :=
  mkSplitOp 1%nat ∅
    (mkValue 0%nat (RankedTensorType [4] I64)
       (DefConstant (Some (mkElements [4] I64 (Splat (W_i64 7))))))
    [RankedTensorType [2] I64; RankedTensorType [2] I64].

(** A [split] operand computed at run time: a block argument of type
    tensor<2xi64>. *)
Definition dynamicSplitSizes : Value :=
  mkValue 2%nat (RankedTensorType [2] I64) DefBlockArgument.

(** The number of elements that [count] adds for an operand. *)
Definition elementsOf (v : Value) : Z :=
  match v_type v with
  | RankedTensorType s _ => getNumElements s
  | _ => 0
  end.

Definition isShaped (v : Value) : Prop :=
  exists s t, v_type v = RankedTensorType s t.

(** The counters after [count name operands], when every operand is shaped. *)
Definition counted (name : string) (operands : list Value)
    (m : gmap string ConstPropCounters) : gmap string ConstPropCounters :=
  <[name := fold_left (fun c v => Counters.add_elms c (elementsOf v)) operands
              (Counters.add_invocation (Counters.entry name m))]> m.

(** An empty tensor and the reduction of its only axis. *)
Definition emptyData : Value :=
  mkValue 0%nat (RankedTensorType [0] I64)
    (DefConstant (Some (mkElements [0] I64 (Dense [])))).

Definition reduceResult (name : string) (attrs : gmap string Attribute)
    (t : MlirType) : Value :=
  mkValue 5%nat t (DefOp name attrs).

(** A splat constant of 2^31 elements, split in two halves of 2^30. *)
Definition largeSplitOp : SplitOp :=
  mkSplitOp 1%nat ∅
    (mkValue 0%nat (RankedTensorType [2147483648] I8)
       (DefConstant (Some (mkElements [2147483648] I8 (Splat (W_i64 0))))))
    [RankedTensorType [1073741824] I8; RankedTensorType [1073741824] I8].

(** The constant that replaces the result of type [t] of a Split and holds
    the elements [e]. *)
Definition splitConstant (splitOp : SplitOp) (t : MlirType) (e : ElementsAttr)
    : ONNXConstantOp :=
  mkConstantOp (split_loc splitOp) t e.

(** The slab of [sz] indices from [off] along [axis] of a constant. *)
Definition slabOf (data : ElementsAttr) (axis : nat) (off sz : Z) : ElementsAttr :=
  mkElements (<[axis := sz]> (e_shape data)) (e_elementType data)
    (match e_payload data with
     | Splat w => Splat w
     | Dense l => Dense (slab (e_shape data) axis l off sz)
     end).

(** A 2x4 constant split in two along axis 1, and in three. *)
Definition smallSplitInput : Value :=
  mkValue 0%nat (RankedTensorType [2; 4] I32)
    (DefConstant (Some (mkElements [2; 4] I32
       (Dense (map W_i64 [1; 2; 3; 4; 5; 6; 7; 8]))))).

Definition smallSplitOp : SplitOp :=
  mkSplitOp 1%nat {["axis" := IntegerAttr 1]} smallSplitInput
    [RankedTensorType [2; 2] I32; RankedTensorType [2; 2] I32].

(** [ShapedType::kDynamic], the size of a dimension that is not known. *)
Definition kDynamic : Z := - 2 ^ 63.

(** A Slice of a constant whose parameters the shape helper cannot scan. *)
Definition sliceInput : Value :=
  mkValue 0%nat (RankedTensorType [10] I64)
    (DefConstant (Some (mkElements [10] I64
       (Dense (map W_i64 [0; 1; 2; 3; 4; 5; 6; 7; 8; 9]))))).

Definition sliceResult : Value :=
  mkValue 3%nat (RankedTensorType [4] I64) (DefOp "onnx.Slice" ∅).

(** The created constants have the declared types of the replaced values. *)
Definition typesAgree (cs : list ONNXConstantOp) (vs : list Value) : Prop :=
  map c_type cs = map v_type vs.

(** The sum of a size_t field over the entries of the counter map. *)
Definition sumOver (f : ConstPropCounters -> Z) (m : gmap string ConstPropCounters) : Z :=
  fold_right Z.add 0 (map (fun e => f e.2) (map_to_list m)).

(** The total number of elements of a list of operands. *)
Definition totalElements (operands : list Value) : Z :=
  fold_right Z.add 0 (map elementsOf operands).

(** The 2x3 matrix [[1,2,3],[4,5,6]] of i64 and its reduction over axis 1
    without keepdims. *)
Definition matrixElements : ElementsAttr :=
  mkElements [2; 3] I64 (Dense (map W_i64 [1; 2; 3; 4; 5; 6])).

Definition matrixData : Value :=
  mkValue 0%nat (RankedTensorType [2; 3] I64) (DefConstant (Some matrixElements)).

Definition rowReduceAttrs : gmap string Attribute := {["keepdims" := IntegerAttr 0]}.

Definition rowReduceResult (name : string) : Value :=
  reduceResult name rowReduceAttrs (RankedTensorType [2] I64).

(** The extents of the reduced axes. *)
Definition reducedExtents (axes : list Z) (shape : Shape) : list Z :=
  map (fun a => default 1 (shape !! Z.to_nat a)) axes.

(** The product, over the axes at or after [k], of the extents of a shape
    whose first dimension is axis [k]. *)
Definition extentsFrom (k : Z) (axes : list Z) (shape : Shape) : Z :=
  fold_right Z.mul 1
    (map (fun a => if a <? k then 1 else default 1 (shape !! Z.to_nat (a - k))) axes).

(** The quotient of a wide scalar by the denominator, at the wide type of the
    family of the element type. *)
Definition quotientAt (type : ElementType) (denominator : Z) (x : WideNum) : WideNum :=
  match family type with
  | SignedInt => W_i64 (Z.quot (wide_i64 x) denominator)
  | UnsignedInt => W_u64 (Z.quot (wide_u64 x) denominator)
  | FloatFam => W_dbl (SFdiv 53 1024 (wide_dbl x) (SFofZ (53, 1024) denominator))
  | BoolFam => x
  end.

(** The reductions that the patterns instantiate. *)
Definition supportedReduce (reduceOp : ReduceOp) : Prop :=
  match reduceOp with
  | ReduceWith ONNXAddOp | ReduceWith ONNXMulOp
  | ReduceWith ONNXMinOp | ReduceWith ONNXMaxOp | ONNXReduceMeanOp => True
  | _ => False
  end.

(** Distinct absolute axes of a tensor of rank [rank]. *)
Definition axesInRange (rank : Z) (axes : list Z) : Prop :=
  NoDup axes /\ Forall (fun a => 0 <= a < rank) axes.

(** The element-wise ops of the reductions. *)
Definition reducingOp (op : BinaryOp) : Prop :=
  match op with
  | ONNXAddOp | ONNXMulOp | ONNXMinOp | ONNXMaxOp => True
  | _ => False
  end.

(** *** The meaning of ScatterND *)

(** Every suffix of the shape has a number of elements that fits [int64_t]. *)
Definition sizesFit (shape : Shape) : Prop :=
  Forall (fun d => 0 <= d) shape
  /\ forall j : nat, getNumElements (drop j shape) < 2 ^ 63.

(** The [i]-th tuple of [k] indices, in row-major order of the indices. *)
Definition indexTuple (indices : list Z) (k : Z) (i : nat) : list Z :=
  take (Z.to_nat k) (drop (i * Z.to_nat k) indices).

(** The flat position of the slab that a tuple addresses on the leading axes
    of a tensor of shape [dataShape]. *)
Definition slabPos (dataShape : Shape) (indices : list Z) (k : Z) (i : nat) : Z :=
  dot (indexTuple indices k i) (rowMajorStrides dataShape).

(** The [i]-th slab of the updates. *)
Definition updateSlab (updates : list WideNum) (slice_size : Z) (i : nat)
    : list WideNum :=
  take (Z.to_nat slice_size) (drop (i * Z.to_nat slice_size) updates).

(** [dst] with the elements from [pos] on replaced by those of [src]. *)
Definition overwrite {A} (dst : list A) (pos : Z) (src : list A) : list A :=
  take (Z.to_nat pos) dst ++ src ++ drop (Z.to_nat pos + length src) dst.

(** The tuple in range of the leading dimensions of the shape. *)
Definition tupleInRange (dataShape : Shape) (tuple : list Z) : Prop :=
  Forall2 (fun idx d => 0 <= idx < d) tuple (take (length tuple) dataShape).

(** The slices, among the first [n], whose slab at [pos i] covers the flat
    position [p], in the order of the traversal. *)
Definition writersOf (pos : nat -> Z) (slice_size : Z) (n : nat) (p : Z) : list nat :=
  filter (fun i => pos i <= p < pos i + slice_size) (seq 0 n).

(** The buffer after the slabs [slab i] were written at [pos i], for [i] from
    0 to [n - 1] in this order. *)
Definition scatterWrites (pos : nat -> Z) (slab : nat -> list WideNum) (n : nat)
    (output : list WideNum) : list WideNum :=
  fold_left (fun out i => overwrite out (pos i) (slab i)) (seq 0 n) output.

(** A ScatterND whose two index tuples address the same row. *)
Definition collidingData : ElementsAttr :=
  mkElements [2; 2] I64 (Dense (map W_i64 [10; 20; 30; 40])).
Definition collidingIndices : ElementsAttr :=
  mkElements [2; 1] I64 (Dense (map W_i64 [1; 1])).
Definition collidingUpdates : ElementsAttr :=
  mkElements [2; 2] I64 (Dense (map W_i64 [1; 2; 3; 4])).

Definition constantValue (loc : Loc) (e : ElementsAttr) : Value :=
  mkValue loc (e_type e) (DefConstant (Some e)).

Definition collidingScatterOp : ScatterNDOp :=
  mkScatterNDOp 9%nat (constantValue 0%nat collidingData)
    (constantValue 1%nat collidingIndices) (constantValue 2%nat collidingUpdates)
    (RankedTensorType [2; 2] I64).

(** *** The meaning of Gather *)

(** The index normalised: [i + axisSize] when [i] is negative. *)
Definition normalizeIndex (axisSize idx : Z) : Z :=
  if idx <? 0 then idx + axisSize else idx.






(** The axes [1] of a reduction, as a constant operand. *)
Definition axisOne : Value :=
  constantValue 1%nat (mkElements [1] I64 (Dense [W_i64 1])).

(** A rank-0 constant, tensor<i64> holding 7. *)
Definition scalarElements : ElementsAttr := mkElements [] I64 (Dense [W_i64 7]).
Definition scalarData : Value := constantValue 0%nat scalarElements.

(** The op that a hand-written pattern replaces by itself with
    [rewriter.replaceOp]; a fold called from a generated pattern returns the
    new value and leaves the replacement to its caller. *)
Definition replacedBy (f : Fold) : option Loc :=
  match f with
  | FoldSplit op _ | FoldSplitV11 op => Some (split_loc op)
  | FoldScatterND op => Some (scatter_loc op)
  | _ => None
  end.

(** The 2x4 constant split along axis 1 into one column and three. *)
Definition unevenSplitOp : SplitOp :=
  mkSplitOp 1%nat {["axis" := IntegerAttr 1]} smallSplitInput
    [RankedTensorType [2; 1] I32; RankedTensorType [2; 3] I32].

(** The multi-index of the input that a Slice reads for the multi-index [idx]
    of its output: on every axis, the start plus the index times the step. *)
Definition sliceIndex (shapeHelper : SliceShapeHelper) (idx : list Z) : list Z :=
  zip_with Z.add (starts shapeHelper) (zip_with Z.mul idx (steps shapeHelper)).

(** The elements 0..9 of a tensor<10xi64>, and the slice of every third
    element from the last one backwards. *)
Definition tenElements : ElementsAttr :=
  mkElements [10] I64 (Dense (map W_i64 [0; 1; 2; 3; 4; 5; 6; 7; 8; 9])).

Definition backwardSlice : SliceShapeHelper := mkSliceHelper [9] [-3].

(** The operands [[1],[2]] and [[3,4],[5,6]] of a Concat along axis 1. *)
Definition concatLeft : ElementsAttr :=
  mkElements [2; 1] I64 (Dense (map W_i64 [1; 2])).
Definition concatRight : ElementsAttr :=
  mkElements [2; 2] I64 (Dense (map W_i64 [3; 4; 5; 6])).

(** A constant tensor<2xf32> next to the constant tensor<2xi64> [1, 2], and the
    result of an Add declared as tensor<2xi64>. *)
Definition floatPair : Value :=
  constantValue 0%nat (mkElements [2] F32 (Splat (W_dbl (S754_zero false)))).
Definition intPair : Value :=
  constantValue 1%nat (mkElements [2] I64 (Dense [W_i64 1; W_i64 2])).
Definition addResult : Value :=
  mkValue 7%nat (RankedTensorType [2] I64) (DefOp "onnx.Add" ∅).

(** The Slice that takes everything, the Slice that reverses every axis, and
    the multi-index that the latter reads for a multi-index of its output. *)
Definition fullSlice (shape : Shape) : SliceShapeHelper :=
  mkSliceHelper (map (fun _ => 0) shape) (map (fun _ => 1) shape).
Definition reverseSlice (shape : Shape) : SliceShapeHelper :=
  mkSliceHelper (map (fun d => d - 1) shape) (map (fun _ => -1) shape).
Definition reverseIndex (shape : Shape) (idx : list Z) : list Z :=
  zip_with (fun d i => d - 1 - i) shape idx.

(** The Slice with step 1 that starts at [k] on the axis after [pre] and at 0
    on every other axis. *)
Definition sliceFrom (pre post : Shape) (k : Z) : SliceShapeHelper :=
  mkSliceHelper (map (fun _ => 0) pre ++ k :: map (fun _ => 0) post)
                (map (fun _ => 1) pre ++ 1 :: map (fun _ => 1) post).

(** An iteration of the counter map: the entries of [map_to_list] from the
    last one to the first. *)
Definition againstKeyOrder : Counters.Iteration := fun m => reverse (map_to_list m).

(** A driver that applies two folds in turn: the Slice whose parameters the
    shape helper cannot scan, and the ReduceSum of a 2x3 tensor over axis 1. *)
Definition sliceThenReduce : M LogicalResult :=
  mbind (runFold (FoldSlice sliceResult sliceInput None)) (fun _ =>
  mbind (runFold (FoldReduceAttr (ReduceWith ONNXAddOp)
                    (rowReduceResult "onnx.ReduceSum") matrixData (Some [1]))) (fun _ =>
  mret success)).


(** The result of a ReduceSum that carries noop_with_empty_axes = 1, declared
    as tensor<2x3xi64>. *)
Definition noopReduceResult : Value :=
  reduceResult "onnx.ReduceSum" {["noop_with_empty_axes" := IntegerAttr 1]}
    (RankedTensorType [2; 3] I64).

(** The values that a fold hands to [createReplacingConstantOp], one for
    each constant that it creates: the replaced value, the results of a Split
    in order, and for a ScatterND the [data] operand. *)
Definition handedValues (f : Fold) : list Value :=
  match f with
  | FoldScatterND op => [scatter_data op]
  | _ => replacedValues f
  end.

(** Modelled from the spec: the type that shape inference assigns to the
    result of a ScatterND, which is [data] with the updates applied (section
    4.2.13): the type of [data]. *)
Definition inferredScatterNDType (op : ScatterNDOp) : MlirType :=
  v_type (scatter_data op).

(** The declared type of the replaced value is the one that shape inference
    assigned.  For the ops whose result type the folds take as it is declared
    this says nothing more. *)
Definition shapeInferred (f : Fold) : Prop :=
  match f with
  | FoldScatterND op => v_type (scatter_getResult op) = inferredScatterNDType op
  | _ => True
  end.

(** * Properties *)

(** ** The monads *)

Lemma rbind_Ok {A B} (r : Result A) (k : A -> Result B) (b : B) :
  rbind r k = Ok b -> exists a, r = Ok a /\ k a = Ok b.
Proof. destruct r; simpl; intros H; try discriminate. eauto. Qed.

Lemma mbind_Ok {A B} (m : M A) (k : A -> M B) st b st' :
  mbind m k st = Ok (b, st') ->
  exists a st1, m st = Ok (a, st1) /\ k a st1 = Ok (b, st').
Proof.
  unfold mbind. destruct (m st) as [[a st1]| |]; intros H; try discriminate.
  eauto.
Qed.

Lemma lift_Ok {A} (r : Result A) st a st' :
  lift r st = Ok (a, st') -> r = Ok a /\ st' = st.
Proof. unfold lift. destruct r; intros H; inversion H; auto. Qed.

Lemma rassert_Ok c msg u : rassert c msg = Ok u -> c = true.
Proof. destruct c; simpl; congruence. Qed.

(** ** Dynamic split sizes (C8) *)

(** C8, as the code has it: when the [split] operand of a Split is neither a
    constant nor the none value, the pattern reaches
    [llvm_unreachable("dynamic split not yet supported")]: the process aborts
    with that message, whatever the input is and before anything is counted,
    created or replaced; no diagnostic is emitted and no pass failure is
    signalled. *)
Theorem dynamic_split_aborts (splitOp : SplitOp) (split : Value) (st : PassState) :
  getONNXConstantOp split = None ->
  v_type split <> NoneType ->
  ConstPropSplitPattern splitOp split st = Abort "dynamic split not yet supported".
Proof.
  intros Hc Ht. unfold ConstPropSplitPattern. rewrite Hc.
  rewrite bool_decide_eq_false_2 by exact Ht. reflexivity.
Qed.

(** A Split of a constant whose sizes are a block argument. *)
Lemma dynamic_split_aborts_witness :
  ConstPropSplitPattern dynamicSplitOp dynamicSplitSizes initialState
  = Abort "dynamic split not yet supported".
Proof.
  apply (dynamic_split_aborts dynamicSplitOp dynamicSplitSizes initialState).
  - reflexivity.
  - simpl. discriminate.
Defined.

(** C8 as stated fails: on a Split with a run-time [split] operand the
    pattern does not return with a diagnostic attached; it aborts. *)
Lemma dynamic_split_no_diagnostic :
  ~ surfacesDiagnostic initialState
      (ConstPropSplitPattern dynamicSplitOp dynamicSplitSizes initialState).
Proof.
  intros (a & st' & H & _). vm_compute in H. discriminate.
Qed.

(** ** Counting *)

Lemma count_map_shaped name operands m :
  Forall isShaped operands ->
  Counters.count_map name operands m = Ok (counted name operands m).
Proof.
  intros Hs. unfold Counters.count_map, counted.
  generalize (Counters.add_invocation (Counters.entry name m)) as c.
  induction Hs as [|v ops (s & t & Hv) _ IH]; intros c; simpl; [reflexivity|].
  unfold getNumberOfElements, elementsOf. rewrite Hv. simpl.
  exact (IH (Counters.add_elms c (getNumElements s))).
Qed.

Lemma count_shaped name operands st :
  Forall isShaped operands ->
  Counters.count name operands st
  = Ok (tt, set_counters (fun _ => counted name operands (counters st)) st).
Proof.
  intros Hs. unfold Counters.count. rewrite (count_map_shaped _ _ _ Hs).
  reflexivity.
Qed.

Lemma count_Ok name operands st u st' :
  Counters.count name operands st = Ok (u, st') ->
  Counters.count_map name operands (counters st) = Ok (counters st')
  /\ created st' = created st /\ replaced st' = replaced st
  /\ diagnostics st' = diagnostics st /\ outs st' = outs st
  /\ passFailed st' = passFailed st.
Proof.
  unfold Counters.count. intros H.
  apply rbind_Ok in H as (m & Hm & H). inversion H; subst; clear H.
  rewrite Hm. simpl. auto 10.
Qed.

(** ** Reductions of an empty tensor (C5) *)

Lemma reduce_fold_prefix reduceOp replacingValue dataValue axesRange st
    data attrs absoluteAxes :
  v_def dataValue = DefConstant (Some data) ->
  isShaped dataValue ->
  getDefiningOp replacingValue = Ok attrs ->
  absoluteAxesOf (Z.of_nat (length (e_shape data))) axesRange = Ok absoluteAxes ->
  ConstPropReduceAxesRange reduceOp replacingValue dataValue axesRange st
  = mbind (lift (
      let axes := effectiveAxes attrs (Z.of_nat (length (e_shape data))) absoluteAxes in
      let elemType := e_elementType data in
      if bool_decide (axes = []) then Ok data
      else if e_empty data then
        rbind (getIdentity reduceOp elemType) (fun identity =>
        DenseElementsAttr_get (v_type replacingValue) elemType [identity])
      else
        let keepdims := negb (getSIntAttr attrs "keepdims" 1 =? 0) in
        match reduceOp with
        | ONNXReduceMeanOp => meanBody data axes keepdims
        | ReduceWith binOp =>
            reduce data axes keepdims (elementwiseBinaryOpCombiner binOp elemType)
        end))
      (replaceWith replacingValue)
      (set_counters (fun _ => counted "Reduce" [dataValue] (counters st)) st).
Proof.
  intros Hd Hs Hop Habs.
  unfold ConstPropReduceAxesRange.
  unfold mbind at 1. rewrite count_shaped by (constructor; [exact Hs|constructor]).
  cbv zeta. rewrite Hop.
  unfold mbind at 1. unfold getConstValueElements. rewrite Hd. simpl lift at 1.
  cbv beta iota.
  unfold mbind at 1. rewrite Habs. simpl lift at 1. cbv beta iota.
  assert (Heff : (if bool_decide (absoluteAxes = [])
                  then rbind (Ok attrs) (fun op =>
                         Ok (effectiveAxes op (Z.of_nat (length (e_shape data)))
                               absoluteAxes))
                  else Ok absoluteAxes)
                 = Ok (effectiveAxes attrs (Z.of_nat (length (e_shape data)))
                         absoluteAxes)).
  { unfold effectiveAxes. destruct (bool_decide (absoluteAxes = [])); reflexivity. }
  unfold mbind at 1. rewrite Heff. simpl lift at 1. cbv beta iota.
  reflexivity.
Qed.

(** C5, as the code has it: for a reduction over an empty constant tensor
    with a non-empty effective axes set, ReduceSum (ONNXAddOp) produces the
    splat of the identity 0 and ReduceProd (ONNXMulOp) the splat of the
    identity 1, at the declared type of the replaced value; every other
    reduction (ReduceMin, ReduceMax, ReduceMean) reaches [llvm_unreachable]:
    the process aborts with its message, no value is produced and no
    diagnostic is emitted. *)
Theorem reduce_empty_tensor (reduceOp : ReduceOp) (replacingValue dataValue : Value)
    (axesRange : list Z) (st : PassState) (data : ElementsAttr)
    (attrs : gmap string Attribute) (absoluteAxes : list Z) (shape : Shape) :
  v_def dataValue = DefConstant (Some data) ->
  isShaped dataValue ->
  getDefiningOp replacingValue = Ok attrs ->
  absoluteAxesOf (Z.of_nat (length (e_shape data))) axesRange = Ok absoluteAxes ->
  effectiveAxes attrs (Z.of_nat (length (e_shape data))) absoluteAxes <> [] ->
  e_size data = 0 ->
  v_type replacingValue = RankedTensorType shape (e_elementType data) ->
  hasStaticShape shape = true ->
  let produces (identity : WideNum) :=
    exists c st',
      ConstPropReduceAxesRange reduceOp replacingValue dataValue axesRange st
        = Ok (getResult c, st')
      /\ created st' = created st ++ [c]
      /\ c_type c = v_type replacingValue
      /\ c_value c = mkElements shape (e_elementType data) (Splat identity)
      /\ e_values (c_value c) = replicate (Z.to_nat (getNumElements shape)) identity
      /\ diagnostics st' = diagnostics st in
  match reduceOp with
  | ReduceWith ONNXAddOp => produces (wideZero (e_elementType data))
  | ReduceWith ONNXMulOp => produces (wideOne (e_elementType data))
  | _ =>
      ConstPropReduceAxesRange reduceOp replacingValue dataValue axesRange st
      = Abort "reduce op has no identify, zero-size tensor unsupported"
  end.
Proof.
  intros Hd Hs Hop Habs Hne Hempty Hty Hstatic produces.
  assert (Hrun : forall identity,
    getIdentity reduceOp (e_elementType data) = Ok identity -> produces identity).
  { intros identity Hid. unfold produces.
    eexists _, _. split.
    - rewrite (reduce_fold_prefix _ _ _ _ _ _ _ _ Hd Hs Hop Habs).
      cbv zeta. rewrite bool_decide_eq_false_2 by exact Hne.
      unfold e_empty. rewrite Hempty. simpl (0 =? 0). cbv iota.
      rewrite Hid. simpl rbind. unfold DenseElementsAttr_get.
      rewrite Hty, Hstatic. simpl rassert. simpl rbind.
      rewrite bool_decide_eq_true_2 by reflexivity. simpl.
      reflexivity.
    - simpl. rewrite Hty. unfold e_values, e_size. simpl. auto 10. }
  assert (Habort : getIdentity reduceOp (e_elementType data)
                   = Abort "reduce op has no identify, zero-size tensor unsupported" ->
    ConstPropReduceAxesRange reduceOp replacingValue dataValue axesRange st
    = Abort "reduce op has no identify, zero-size tensor unsupported").
  { intros Hid.
    rewrite (reduce_fold_prefix _ _ _ _ _ _ _ _ Hd Hs Hop Habs).
    cbv zeta. rewrite bool_decide_eq_false_2 by exact Hne.
    unfold e_empty. rewrite Hempty. simpl (0 =? 0). cbv iota.
    rewrite Hid. reflexivity. }
  destruct reduceOp as [[]|]; try (apply Habort; reflexivity);
    apply Hrun; reflexivity.
Qed.

(** ReduceMin over the only axis of an empty tensor<0xi64>. *)
Lemma reduce_empty_tensor_witness :
  ConstPropReduceAxesRange (ReduceWith ONNXMinOp)
    (reduceResult "onnx.ReduceMin" ∅ (RankedTensorType [1] I64)) emptyData [0]
    initialState
  = Abort "reduce op has no identify, zero-size tensor unsupported".
Proof.
  apply (reduce_empty_tensor (ReduceWith ONNXMinOp)
           (reduceResult "onnx.ReduceMin" ∅ (RankedTensorType [1] I64))
           emptyData [0] initialState
           (mkElements [0] I64 (Dense [])) ∅ [0] [1]).
  - reflexivity.
  - exists [0], I64. reflexivity.
  - reflexivity.
  - reflexivity.
  - vm_compute. discriminate.
  - reflexivity.
  - reflexivity.
  - reflexivity.
Defined.

(** C5 as stated fails: ReduceMin of an empty tensor does not return with a
    diagnostic attached; it aborts. *)
Lemma reduce_min_empty_no_diagnostic :
  ~ surfacesDiagnostic initialState
      (ConstPropReduceAxesRange (ReduceWith ONNXMinOp)
         (reduceResult "onnx.ReduceMin" ∅ (RankedTensorType [1] I64)) emptyData [0]
         initialState).
Proof.
  intros (a & st' & H & _). vm_compute in H. discriminate.
Qed.

(** ** Split with explicit sizes (C9) *)

(** C9 fails on the code: the sizes 2^30 and 2^30 sum to the extent 2^31 of
    the split axis, and yet the assertion "split values must sum to axis
    size" fails, because [std::accumulate] adds the sizes in an [int]. *)
Theorem split_sizes_assert_wraps :
  fold_right Z.add 0 [1073741824; 1073741824] = 2147483648
  /\ accumulate_int [1073741824; 1073741824] = -2147483648
  /\ ConstPropSplitPatternCommon largeSplitOp (Some [1073741824; 1073741824])
       initialState
     = Abort "split values must sum to axis size".
Proof. split; [reflexivity|]. split; reflexivity. Qed.

(** ** Split without sizes (C10) *)

Lemma splitFrom_length src axis off sizes :
  length (splitFrom src axis off sizes) = length sizes.
Proof. revert off. induction sizes; intros; simpl; auto. Qed.

Lemma splitFrom_replicate src axis off n q i :
  (i < n)%nat ->
  splitFrom src axis off (replicate n q) !! i
  = Some (slabOf src axis (off + Z.of_nat i * q) q).
Proof.
  revert off i. induction n as [|n IH]; intros off i Hi; [lia|].
  destruct i as [|i].
  - replace (off + Z.of_nat 0 * q) with off by lia. reflexivity.
  - simpl replicate. simpl splitFrom. rewrite lookup_cons_ne_0 by lia.
    simpl pred. rewrite IH by lia. do 2 f_equal. lia.
Qed.

Lemma sum_replicate n q : fold_right Z.add 0 (replicate n q) = Z.of_nat n * q.
Proof. induction n; simpl replicate; simpl fold_right; lia. Qed.

Lemma createSplitResults_Ok splitOp resElements st k : forall i,
  length resElements = length (split_results splitOp) ->
  (i + k)%nat = length (split_results splitOp) ->
  let cs := zip_with (splitConstant splitOp) (drop i (split_results splitOp))
              (drop i resElements) in
  forall cr, createSplitResults splitOp resElements i k
    (mkState (counters st) cr (replaced st) (diagnostics st) (outs st) (passFailed st))
  = Ok (map getResult cs,
        mkState (counters st) (cr ++ cs) (replaced st) (diagnostics st)
          (outs st) (passFailed st)).
Proof.
  induction k as [|k IH]; intros i Hlen Hik cs cr; subst cs.
  - simpl. rewrite !drop_ge by lia. simpl. rewrite app_nil_r. reflexivity.
  - destruct (lookup_lt_is_Some_2 (split_results splitOp) i) as [t Ht]; [lia|].
    destruct (lookup_lt_is_Some_2 resElements i) as [e He]; [lia|].
    rewrite (drop_S _ _ _ Ht), (drop_S _ _ _ He). simpl zip_with.
    simpl createSplitResults. unfold mbind at 1.
    unfold split_getResult. rewrite Ht. simpl lift at 1. cbv beta iota.
    unfold mbind at 1. rewrite He. simpl lift at 1. cbv beta iota.
    unfold mbind at 1. unfold createReplacingConstantOp at 1. cbv beta iota zeta.
    simpl. unfold mbind at 1.
    rewrite (IH (S i) Hlen) by lia. unfold mret. simpl.
    rewrite <- app_assoc. reflexivity.
Qed.

(** The fold of a Split up to the sizes of the outputs, on a constant
    input. *)
Lemma splitCommon_run splitOp splitAttr st data axisSize :
  let axis := getSIntAttr (split_attrs splitOp) "axis" 0 in
  v_def (split_input splitOp) = DefConstant (Some data) ->
  v_type (split_input splitOp) = e_type data ->
  0 <= axis < 2 ^ 63 ->
  e_shape data !! Z.to_nat axis = Some axisSize ->
  ConstPropSplitPatternCommon splitOp splitAttr st
  = match splitSizesOf (split_getNumResults splitOp) axisSize splitAttr with
    | Ok splitSizes =>
        mbind (lift (split data (to_size_t axis) splitSizes)) (fun resElements =>
        mbind (createSplitResults splitOp resElements 0
                 (Z.to_nat (split_getNumResults splitOp))) (fun resValues =>
        mbind (replaceOp (split_loc splitOp) resValues) (fun _ => mret success)))
          (set_counters (fun _ => counted "Split" [split_input splitOp] (counters st)) st)
    | Abort msg => Abort msg
    | Undefined => Undefined
    end.
Proof.
  intros axis Hd Hty Haxis Hsz.
  unfold ConstPropSplitPatternCommon, isDenseONNXConstant. rewrite Hd.
  change (negb true) with false. cbv iota. unfold mbind at 1.
  rewrite count_shaped
    by (constructor; [eexists _, _; rewrite Hty; reflexivity|constructor]).
  unfold mbind at 1. rewrite Hty. simpl lift at 1. cbv beta iota.
  unfold mbind at 1. fold axis.
  assert (Hat : at_ (e_shape data) (to_size_t axis) = Ok axisSize).
  { unfold at_, to_size_t, wrap_u. rewrite Z.mod_small by lia.
    destruct (Z.ltb_spec axis 0); [lia|]. rewrite Hsz. reflexivity. }
  rewrite Hat. simpl lift at 1. cbv beta iota.
  unfold mbind at 1.
  destruct (splitSizesOf _ _ _); simpl lift at 1; cbv beta iota; try reflexivity.
  unfold mbind at 1. unfold getConstValueElements. rewrite Hd. simpl lift at 1.
  cbv beta iota. reflexivity.
Qed.

(** *** Explicit sizes whose sum fits an [int] *)

Lemma to_int_small z : - 2 ^ 31 <= z < 2 ^ 31 -> to_int z = z.
Proof.
  intros H. unfold to_int, wrap_s. rewrite Z.mod_small; lia.
Qed.

Lemma accumulate_int_small l : forall acc,
  0 <= acc -> Forall (fun x => 0 <= x) l ->
  acc + fold_right Z.add 0 l < 2 ^ 31 ->
  fold_left (fun acc x => to_int (acc + x)) l acc = acc + fold_right Z.add 0 l.
Proof.
  induction l as [|x l IH]; intros acc Hacc Hl Hsum; simpl in *; [lia|].
  apply Forall_cons in Hl as [Hx Hl].
  assert (0 <= fold_right Z.add 0 l).
  { clear -Hl. induction Hl; simpl; lia. }
  rewrite to_int_small by lia. rewrite IH by (try assumption; lia). lia.
Qed.

Lemma rmap_at_seqZ {A} (suf : list A) : forall pre,
  rmap (fun i => at_ (pre ++ suf) i)
    (seqZ (Z.of_nat (length pre)) (Z.of_nat (length suf)))
  = Ok suf.
Proof.
  induction suf as [|a suf IH]; intros pre; [reflexivity|].
  rewrite seqZ_cons by (simpl; lia). simpl rmap.
  unfold at_ at 1. destruct (Z.ltb_spec (Z.of_nat (length pre)) 0); [lia|].
  rewrite Nat2Z.id, list_lookup_middle by reflexivity. simpl rbind.
  replace (Z.succ (Z.of_nat (length pre))) with (Z.of_nat (length (pre ++ [a])))
    by (rewrite length_app; simpl; lia).
  replace (Z.pred (Z.of_nat (S (length suf)))) with (Z.of_nat (length suf))
    by lia.
  replace (pre ++ a :: suf) with ((pre ++ [a]) ++ suf)
    by (rewrite <- app_assoc; reflexivity).
  rewrite IH. reflexivity.
Qed.

Lemma splitFrom_lookup src axis sizes : forall off i sz,
  sizes !! i = Some sz ->
  splitFrom src axis off sizes !! i
  = Some (slabOf src axis (off + fold_right Z.add 0 (take i sizes)) sz).
Proof.
  induction sizes as [|x sizes IH]; intros off i sz Hi; [discriminate|].
  destruct i as [|i].
  - injection Hi as ->. simpl. rewrite Z.add_0_r. reflexivity.
  - simpl in Hi. simpl splitFrom. rewrite lookup_cons_ne_0 by lia. simpl pred.
    rewrite (IH _ _ _ Hi). simpl. do 2 f_equal. lia.
Qed.

(** X8: with explicit sizes, one per result and none negative, that sum to
    the extent of the split axis, and an extent below 2^31, the assertion on
    the sum holds and the fold succeeds: the i-th constant is the slab of the
    i-th size at the offset of the sizes before it, at the declared type of
    the i-th result, and the op is replaced by the results of these
    constants in order. *)
Lemma split_explicit_sizes (splitOp : SplitOp) (st : PassState)
    (data : ElementsAttr) (axisSize : Z) (sizes : list Z) :
  let numResults := Z.of_nat (length (split_results splitOp)) in
  let axis := getSIntAttr (split_attrs splitOp) "axis" 0 in
  let parts := splitFrom data (Z.to_nat axis) 0 sizes in
  let cs := zip_with (splitConstant splitOp) (split_results splitOp) parts in
  v_def (split_input splitOp) = DefConstant (Some data) ->
  v_type (split_input splitOp) = e_type data ->
  0 < numResults < 2 ^ 32 ->
  0 <= axis < 2 ^ 63 ->
  e_shape data !! Z.to_nat axis = Some axisSize ->
  length sizes = length (split_results splitOp) ->
  Forall (fun x => 0 <= x) sizes ->
  fold_right Z.add 0 sizes = axisSize ->
  axisSize < 2 ^ 31 ->
  (forall i sz, sizes !! i = Some sz ->
     parts !! i
     = Some (slabOf data (Z.to_nat axis) (fold_right Z.add 0 (take i sizes)) sz))
  /\ exists st',
       ConstPropSplitPatternCommon splitOp (Some sizes) st = Ok (success, st')
       /\ created st' = created st ++ cs
       /\ replaced st' = replaced st ++ [(split_loc splitOp, map getResult cs)]
       /\ diagnostics st' = diagnostics st.
Proof.
  intros numResults axis parts cs Hd Hty Hn Haxis Hsz Hlen Hpos Hsum Hsmall.
  split.
  { intros i sz Hi. unfold parts. rewrite (splitFrom_lookup _ _ _ 0 i sz Hi).
    reflexivity. }
  assert (HnR : split_getNumResults splitOp = numResults).
  { unfold split_getNumResults, to_unsigned, wrap_u. apply Z.mod_small. lia. }
  assert (Hsizes : splitSizesOf (split_getNumResults splitOp) axisSize (Some sizes)
                   = Ok sizes).
  { unfold splitSizesOf. rewrite HnR.
    destruct (Z.eqb_spec numResults 0) as [|_]; [lia|].
    unfold numResults. rewrite <- Hlen.
    pose proof (rmap_at_seqZ sizes []) as Hat.
    change (rmap (fun i => at_ sizes i) (seqZ 0 (Z.of_nat (length sizes))) = Ok sizes)
      in Hat.
    rewrite Hat. simpl rbind.
    unfold accumulate_int.
    rewrite (accumulate_int_small sizes 0) by (try assumption; lia).
    rewrite Z.add_0_l, Hsum, Z.eqb_refl. reflexivity. }
  pose proof (splitCommon_run splitOp (Some sizes) st data axisSize Hd Hty Haxis Hsz)
    as Hrun.
  cbv zeta in Hrun. fold axis in Hrun. rewrite Hrun, Hsizes.
  assert (Hsplit : split data (to_size_t axis) sizes = Ok parts).
  { unfold split, to_size_t, wrap_u. rewrite Z.mod_small by lia.
    assert (Hlt : (Z.to_nat axis < length (e_shape data))%nat)
      by (eapply lookup_lt_Some; exact Hsz).
    replace ((0 <=? axis) && (axis <? Z.of_nat (length (e_shape data)))) with true
      by (symmetry; apply andb_true_intro; split;
          [apply Z.leb_le|apply Z.ltb_lt]; lia).
    simpl rassert. simpl rbind. rewrite Hsz. simpl default.
    rewrite Hsum, Z.eqb_refl. reflexivity. }
  unfold mbind at 1. rewrite Hsplit. simpl lift at 1. cbv beta iota.
  unfold mbind at 1. rewrite HnR. unfold numResults at 1. rewrite Nat2Z.id.
  unfold set_counters.
  rewrite (createSplitResults_Ok splitOp parts
             (mkState (counted "Split" [split_input splitOp] (counters st))
                (created st) (replaced st) (diagnostics st) (outs st) (passFailed st))
             (length (split_results splitOp)) 0%nat)
    by (unfold parts; rewrite ?splitFrom_length; lia).
  simpl. eexists. split; [reflexivity|]. simpl. auto.
Qed.

(** The columns 0 and 1-3 of [[1,2,3,4],[5,6,7,8]]. *)
Lemma split_explicit_sizes_witness :
  exists st',
    ConstPropSplitPatternCommon unevenSplitOp (Some [1; 3]) initialState
      = Ok (success, st')
    /\ map c_value (created st')
       = [mkElements [2; 1] I32 (Dense (map W_i64 [1; 5]));
          mkElements [2; 3] I32 (Dense (map W_i64 [2; 3; 4; 6; 7; 8]))].
Proof.
  destruct (split_explicit_sizes unevenSplitOp initialState
              (mkElements [2; 4] I32 (Dense (map W_i64 [1; 2; 3; 4; 5; 6; 7; 8])))
              4 [1; 3])
    as (_ & st' & Hrun & Hcr & _).
  - reflexivity.
  - reflexivity.
  - split; by vm_compute.
  - split; by vm_compute.
  - reflexivity.
  - reflexivity.
  - repeat constructor; lia.
  - reflexivity.
  - by vm_compute.
  - exists st'. split; [exact Hrun|]. rewrite Hcr. reflexivity.
Defined.

(** C10: a Split folded without sizes gives every one of its [numResults]
    outputs the size [splitAxisSize / numResults] along the split axis.  When
    the extent of the axis is not divisible by the number of results the
    assertion fails and nothing is folded; when it is, the fold succeeds and
    the i-th constant is the slab of that size at offset [i * size], at the
    declared type of the i-th result.  The patterns of both opsets take this
    path when no sizes are supplied. *)
Theorem split_equal_sizes (splitOp : SplitOp) (st : PassState)
    (data : ElementsAttr) (axisSize : Z) :
  let numResults := Z.of_nat (length (split_results splitOp)) in
  let axis := getSIntAttr (split_attrs splitOp) "axis" 0 in
  let size := Z.quot axisSize numResults in
  v_def (split_input splitOp) = DefConstant (Some data) ->
  v_type (split_input splitOp) = e_type data ->
  0 < numResults < 2 ^ 32 ->
  0 <= axis < 2 ^ 63 ->
  e_shape data !! Z.to_nat axis = Some axisSize ->
  splitSizesOf (split_getNumResults splitOp) axisSize None
    = (if Z.rem axisSize numResults =? 0
       then Ok (replicate (length (split_results splitOp)) size)
       else Abort "The dimension at the split axis is expected to be divisible by the number of results")
  /\ (Z.rem axisSize numResults <> 0 ->
      ConstPropSplitPatternCommon splitOp None st
      = Abort "The dimension at the split axis is expected to be divisible by the number of results")
  /\ (Z.rem axisSize numResults = 0 ->
      let parts := splitFrom data (Z.to_nat axis) 0
                     (replicate (length (split_results splitOp)) size) in
      let cs := zip_with (splitConstant splitOp) (split_results splitOp) parts in
      (forall i, (i < length (split_results splitOp))%nat ->
         parts !! i = Some (slabOf data (Z.to_nat axis) (Z.of_nat i * size) size))
      /\ exists st',
           ConstPropSplitPatternCommon splitOp None st = Ok (success, st')
           /\ created st' = created st ++ cs
           /\ replaced st' = replaced st ++ [(split_loc splitOp, map getResult cs)]
           /\ diagnostics st' = diagnostics st)
  /\ (forall split, getONNXConstantOp split = None -> v_type split = NoneType ->
        ConstPropSplitPattern splitOp split = ConstPropSplitPatternCommon splitOp None)
  /\ (split_attrs splitOp !! "split" = None ->
        ConstPropSplitV11Pattern splitOp = ConstPropSplitPatternCommon splitOp None).
Proof.
  intros numResults axis size Hd Hty Hn Haxis Hsz.
  assert (HnR : split_getNumResults splitOp = numResults).
  { unfold split_getNumResults, to_unsigned, wrap_u. apply Z.mod_small. lia. }
  assert (Hsizes : splitSizesOf (split_getNumResults splitOp) axisSize None
    = (if Z.rem axisSize numResults =? 0
       then Ok (replicate (length (split_results splitOp)) size)
       else Abort "The dimension at the split axis is expected to be divisible by the number of results")).
  { unfold splitSizesOf. rewrite HnR.
    destruct (Z.eqb_spec numResults 0) as [|_]; [lia|].
    unfold numResults at 2. rewrite Nat2Z.id.
    destruct (Z.rem axisSize numResults =? 0); reflexivity. }
  pose proof (splitCommon_run splitOp None st data axisSize Hd Hty Haxis Hsz) as Hrun.
  cbv zeta in Hrun. fold axis in Hrun.
  split; [exact Hsizes|]. split; [|split; [|split]].
  - intros Hrem. rewrite Hrun, Hsizes.
    destruct (Z.eqb_spec (Z.rem axisSize numResults) 0); [contradiction|reflexivity].
  - intros Hrem parts cs. split.
    { intros i Hi. unfold parts. rewrite splitFrom_replicate by exact Hi.
      f_equal. }
    rewrite Hrun, Hsizes, Hrem. simpl (0 =? 0). cbv iota.
    assert (Hsplit : split data (to_size_t axis)
                       (replicate (length (split_results splitOp)) size) = Ok parts).
    { unfold split, to_size_t, wrap_u. rewrite Z.mod_small by lia.
      assert (Hlt : (Z.to_nat axis < length (e_shape data))%nat)
        by (eapply lookup_lt_Some; exact Hsz).
      replace ((0 <=? axis) && (axis <? Z.of_nat (length (e_shape data)))) with true
        by (symmetry; apply andb_true_intro; split;
            [apply Z.leb_le|apply Z.ltb_lt]; lia).
      simpl rassert. simpl rbind. rewrite Hsz. simpl default.
      rewrite sum_replicate. fold numResults.
      replace (numResults * size =? axisSize) with true; [reflexivity|].
      symmetry. apply Z.eqb_eq. unfold size.
      pose proof (Z.quot_rem' axisSize numResults). lia. }
    unfold mbind at 1. rewrite Hsplit. simpl lift at 1. cbv beta iota.
    unfold mbind at 1. rewrite HnR. unfold numResults at 1. rewrite Nat2Z.id.
    unfold set_counters.
    rewrite (createSplitResults_Ok splitOp parts
               (mkState (counted "Split" [split_input splitOp] (counters st))
                  (created st) (replaced st) (diagnostics st) (outs st) (passFailed st))
               (length (split_results splitOp)) 0%nat)
      by (unfold parts; rewrite ?splitFrom_length, ?length_replicate; lia).
    simpl. eexists. split; [reflexivity|]. simpl. auto.
  - intros split Hc Hnone. unfold ConstPropSplitPattern.
    rewrite Hc, Hnone. rewrite bool_decide_eq_true_2 by reflexivity. reflexivity.
  - intros Hno. unfold ConstPropSplitV11Pattern. rewrite Hno. reflexivity.
Qed.

(** A 2x4 tensor split in two along axis 1: the columns 0-1 and 2-3. *)
Lemma split_equal_sizes_witness :
  exists st',
    ConstPropSplitPatternCommon smallSplitOp None initialState = Ok (success, st')
    /\ map c_value (created st')
       = [mkElements [2; 2] I32 (Dense (map W_i64 [1; 2; 5; 6]));
          mkElements [2; 2] I32 (Dense (map W_i64 [3; 4; 7; 8]))].
Proof.
  destruct (split_equal_sizes smallSplitOp initialState
              (mkElements [2; 4] I32 (Dense (map W_i64 [1; 2; 3; 4; 5; 6; 7; 8]))) 4)
    as (_ & _ & H & _).
  - reflexivity.
  - reflexivity.
  - split; by vm_compute.
  - split; by vm_compute.
  - reflexivity.
  - destruct H as (_ & st' & Hrun & Hcr & _); [reflexivity|].
    exists st'. split; [exact Hrun|]. rewrite Hcr. reflexivity.
Defined.

(** ** The counters and the report (C7) *)

Lemma count_map_Ok_inv name operands m m' :
  Counters.count_map name operands m = Ok m' ->
  m' = counted name operands m /\ Forall isShaped operands.
Proof.
  unfold Counters.count_map, counted.
  generalize (Counters.add_invocation (Counters.entry name m)) as c.
  revert m'.
  induction operands as [|v ops IH]; intros m' c H.
  - simpl in H. inversion H. auto.
  - simpl in H. unfold getNumberOfElements in H at 1.
    destruct (v_type v) as [s t| |] eqn:Hv; simpl in H; try discriminate.
    destruct (IH _ _ H) as [-> HF]. split.
    + simpl.
      replace (elementsOf v) with (getNumElements s)
        by (unfold elementsOf; rewrite Hv; reflexivity).
      reflexivity.
    + constructor; [exists s, t; exact Hv|exact HF].
Qed.

Lemma create_Ok replacingValue elements st c st' :
  createReplacingConstantOp replacingValue elements st = Ok (c, st') ->
  c = mkConstantOp (v_loc replacingValue) (v_type replacingValue) elements
  /\ counters st' = counters st /\ created st' = created st ++ [c]
  /\ diagnostics st' = diagnostics st.
Proof. unfold createReplacingConstantOp. intros H. inversion H; subst. auto. Qed.

Lemma replaceOp_Ok op vs st u st' :
  replaceOp op vs st = Ok (u, st') ->
  counters st' = counters st /\ created st' = created st
  /\ diagnostics st' = diagnostics st.
Proof. unfold replaceOp. intros H. inversion H; subst. auto. Qed.

Lemma emitError_Ok loc msg st u st' :
  emitError loc msg st = Ok (u, st') ->
  counters st' = counters st /\ created st' = created st
  /\ diagnostics st' = diagnostics st ++ [(loc, msg)].
Proof. unfold emitError. intros H. inversion H; subst. auto. Qed.

Lemma mret_Ok {A} (a : A) st b st' : mret a st = Ok (b, st') -> b = a /\ st' = st.
Proof. unfold mret. intros H. inversion H. auto. Qed.

(** Symbolic execution of a run that ended normally. *)
Ltac run_step :=
  match goal with
  | H : mbind _ _ _ = Ok (_, _) |- _ =>
      let a := fresh "a" in let s := fresh "s" in let H1 := fresh "Hrun" in
      apply mbind_Ok in H as (a & s & H1 & H)
  | H : ofValue _ _ = Ok (_, _) |- _ => unfold ofValue in H
  | H : ofLogicalResult _ _ = Ok (_, _) |- _ => unfold ofLogicalResult in H
  | H : replaceWith _ _ _ = Ok (_, _) |- _ => unfold replaceWith in H
  | H : lift _ _ = Ok (_, _) |- _ => apply lift_Ok in H as [? ?]; subst
  | H : mret _ _ = Ok (_, _) |- _ => apply mret_Ok in H as [? ?]; subst
  | H : createReplacingConstantOp _ _ _ = Ok (_, _) |- _ =>
      apply create_Ok in H as (? & ? & ? & ?)
  | H : replaceOp _ _ _ = Ok (_, _) |- _ => apply replaceOp_Ok in H as (? & ? & ?)
  | H : emitError _ _ _ = Ok (_, _) |- _ => apply emitError_Ok in H as (? & ? & ?)
  | H : Counters.count _ _ _ = Ok (_, _) |- _ =>
      apply count_Ok in H as (? & ? & ? & ? & ? & ?)
  | H : (if ?c then _ else _) _ = Ok (_, _) |- _ => destruct c eqn:?
  | H : match ?x with _ => _ end _ = Ok (_, _) |- _ => destruct x eqn:?
  end.

Ltac run_all := repeat run_step.

Lemma createSplitResults_counters splitOp resElements n : forall i st vs st',
  createSplitResults splitOp resElements i n st = Ok (vs, st') ->
  counters st' = counters st /\ diagnostics st' = diagnostics st.
Proof.
  induction n as [|n IH]; intros i st vs st' H; simpl in H.
  - run_all. auto.
  - run_all. apply IH in Hrun2 as [? ?]. split; congruence.
Qed.

Lemma splitCommon_counters splitOp splitAttr st r st' :
  ConstPropSplitPatternCommon splitOp splitAttr st = Ok (r, st') ->
  match r with
  | failure => counters st' = counters st
  | success =>
      Counters.count_map "Split" [split_input splitOp] (counters st) = Ok (counters st')
  end.
Proof.
  unfold ConstPropSplitPatternCommon. intros H.
  destruct (negb (isDenseONNXConstant (split_input splitOp))).
  - run_all. reflexivity.
  - run_all. apply createSplitResults_counters in Hrun5 as [? ?]. congruence.
Qed.

Lemma runFold_counters f st o st' :
  runFold f st = Ok (o, st') ->
  match o with
  | NoMatch => counters st' = counters st
  | _ => Counters.count_map (foldCategory f) (countedOperands f) (counters st)
         = Ok (counters st')
  end.
Proof.
  intros H. destruct f; simpl in H.
  - unfold ConstPropElementwiseBinary in H. run_all. simpl. congruence.
  - unfold ConstPropElementwiseUnary in H. run_all. simpl. congruence.
  - unfold ConstPropWhere in H. run_all. simpl. congruence.
  - unfold ConstPropReduce, ConstPropReduceAxesRange in H.
    run_all; simpl; congruence.
  - unfold ConstPropReduceAttr, ConstPropReduceAxesRange in H.
    destruct axesArray; run_all; simpl; congruence.
  - unfold ConstPropTranspose in H. run_all. simpl. congruence.
  - unfold ConstPropUnsqueeze in H. run_all. simpl. congruence.
  - unfold ConstPropSqueeze in H. run_all. simpl. congruence.
  - unfold ofLogicalResult in H. apply mbind_Ok in H as (r & s & Hrun & H).
    apply mret_Ok in H as [-> ->].
    unfold ConstPropSplitPattern in Hrun.
    destruct (getONNXConstantOp split0).
    + apply mbind_Ok in Hrun as (a & s0 & Hl & Hrun).
      apply lift_Ok in Hl as [_ ->].
      apply splitCommon_counters in Hrun. destruct r; exact Hrun.
    + destruct (negb _).
      * unfold lift in Hrun. discriminate.
      * apply splitCommon_counters in Hrun. destruct r; exact Hrun.
  - unfold ofLogicalResult in H. apply mbind_Ok in H as (r & s & Hrun & H).
    apply mret_Ok in H as [-> ->].
    apply splitCommon_counters in Hrun. destruct r; exact Hrun.
  - unfold ofLogicalResult in H. apply mbind_Ok in H as (r & s & Hrun & H).
    apply mret_Ok in H as [-> ->].
    unfold ConstPropScatterNDPattern in Hrun.
    repeat match type of Hrun with
           | (if ?c then _ else _) _ = _ =>
               destruct c; [apply mret_Ok in Hrun as [-> ->]; reflexivity|]
           end.
    run_all. simpl. congruence.
  - unfold ConstPropCast in H. run_all. simpl. congruence.
  - unfold ConstPropSlice in H. run_all; simpl; congruence.
  - unfold ConstPropConcat in H. run_all; simpl; congruence.
  - unfold ConstPropExpand in H. run_all. simpl. congruence.
  - unfold ConstPropGather in H. run_all; simpl; congruence.
  - unfold ConstPropReshape in H. run_all. simpl. congruence.
Qed.

(** *** The types of the created constants *)

Lemma createSplitResults_created splitOp resElements n : forall i st vs st',
  createSplitResults splitOp resElements i n st = Ok (vs, st') ->
  exists cs,
    created st' = created st ++ cs
    /\ map c_type cs = take n (drop i (split_results splitOp)).
Proof.
  induction n as [|n IH]; intros i st vs st' H; simpl in H.
  - run_all. exists []. rewrite app_nil_r. auto.
  - apply mbind_Ok in H as (r & s1 & Hr & H). apply lift_Ok in Hr as [Hr ->].
    apply mbind_Ok in H as (e & s2 & He & H). apply lift_Ok in He as [_ ->].
    apply mbind_Ok in H as (c & s3 & Hc & H).
    apply create_Ok in Hc as (Hceq & _ & Hcr & _).
    apply mbind_Ok in H as (rest & s4 & Hrest & H). apply mret_Ok in H as [_ ->].
    apply IH in Hrest as (cs & Hcs & Hty).
    unfold split_getResult in Hr.
    destruct (split_results splitOp !! i) as [t|] eqn:Ht; [|discriminate].
    injection Hr as <-.
    exists (c :: cs). split.
    + rewrite Hcs, Hcr, <- app_assoc. reflexivity.
    + rewrite (drop_S _ _ _ Ht). simpl. rewrite Hty, Hceq. reflexivity.
Qed.

Lemma splitCommon_created splitOp splitAttr st st' :
  Z.of_nat (length (split_results splitOp)) < 2 ^ 32 ->
  ConstPropSplitPatternCommon splitOp splitAttr st = Ok (success, st') ->
  exists cs, created st' = created st ++ cs /\ map c_type cs = split_results splitOp.
Proof.
  intros Hn H. unfold ConstPropSplitPatternCommon in H.
  destruct (negb (isDenseONNXConstant (split_input splitOp))).
  - apply mret_Ok in H as [H _]. discriminate.
  - run_all.
    apply createSplitResults_created in Hrun5 as (cs & Hcs & Hty).
    exists cs. split; [congruence|].
    rewrite Hty. unfold split_getNumResults, to_unsigned, wrap_u.
    rewrite Z.mod_small by lia. rewrite Nat2Z.id. simpl drop.
    apply firstn_all.
Qed.

(** The end of a run that created one constant with the type of the value it
    replaces. *)
Ltac created_one :=
  match goal with
  | Hc : ?c = mkConstantOp _ _ _ |- _ =>
      exists [c]; split; [congruence|simpl; rewrite Hc; reflexivity]
  | Hc : created _ = created _ ++ [mkConstantOp ?l ?t ?e] |- _ =>
      exists [mkConstantOp l t e]; split; [congruence|reflexivity]
  end.

(** The fold of ScatterND gives its constant the type of the [data]
    operand. *)
Lemma scatter_created_type op st st' :
  runFold (FoldScatterND op) st = Ok (Folded, st') ->
  exists c, created st' = created st ++ [c] /\ c_type c = v_type (scatter_data op).
Proof.
  intros H. simpl in H.
  unfold ofLogicalResult in H. apply mbind_Ok in H as (r & s & Hrun & H).
  apply mret_Ok in H as [Hr ->]. destruct r; [|discriminate].
  unfold ConstPropScatterNDPattern in Hrun.
  repeat match type of Hrun with
         | (if ?c then _ else _) _ = _ =>
             destruct c; [apply mret_Ok in Hrun as [? _]; discriminate|]
         end.
  run_all.
  match goal with
  | Hc : ?c = mkConstantOp _ _ _ |- _ =>
      exists c; split; [congruence|rewrite Hc; reflexivity]
  end.
Qed.

(** Every fold gives each constant that it creates the type of the value
    that it hands to [createReplacingConstantOp]. *)
Lemma runFold_created_handed f st st' :
  Z.of_nat (length (replacedValues f)) < 2 ^ 32 ->
  runFold f st = Ok (Folded, st') ->
  exists cs, created st' = created st ++ cs
             /\ map c_type cs = map v_type (handedValues f).
Proof.
  intros Hn H. destruct f; simpl in H; simpl replacedValues in *;
    simpl handedValues.
  - unfold ConstPropElementwiseBinary in H. run_all. created_one.
  - unfold ConstPropElementwiseUnary in H. run_all. created_one.
  - unfold ConstPropWhere in H. run_all. created_one.
  - unfold ConstPropReduce, ConstPropReduceAxesRange in H. run_all; created_one.
  - unfold ConstPropReduceAttr, ConstPropReduceAxesRange in H.
    destruct axesArray; run_all; created_one.
  - unfold ConstPropTranspose in H. run_all. created_one.
  - unfold ConstPropUnsqueeze in H. run_all. created_one.
  - unfold ConstPropSqueeze in H. run_all. created_one.
  - rewrite length_map in Hn.
    unfold ofLogicalResult in H. apply mbind_Ok in H as (r & s & Hrun & H).
    apply mret_Ok in H as [Hr ->]. destruct r; [|discriminate].
    rewrite map_map. simpl. rewrite map_id.
    unfold ConstPropSplitPattern in Hrun.
    destruct (getONNXConstantOp split0).
    + apply mbind_Ok in Hrun as (a & s0 & Hl & Hrun).
      apply lift_Ok in Hl as [_ ->].
      exact (splitCommon_created _ _ _ _ Hn Hrun).
    + destruct (negb _).
      * unfold lift in Hrun. discriminate.
      * exact (splitCommon_created _ _ _ _ Hn Hrun).
  - rewrite length_map in Hn.
    unfold ofLogicalResult in H. apply mbind_Ok in H as (r & s & Hrun & H).
    apply mret_Ok in H as [Hr ->]. destruct r; [|discriminate].
    rewrite map_map. simpl. rewrite map_id.
    exact (splitCommon_created _ _ _ _ Hn Hrun).
  - destruct (scatter_created_type _ _ _ H) as (c & Hc & Ht).
    exists [c]. split; [exact Hc|]. simpl. rewrite Ht. reflexivity.
  - unfold ConstPropCast in H. run_all. created_one.
  - unfold ConstPropSlice in H. run_all; try discriminate; created_one.
  - unfold ConstPropConcat in H. run_all; created_one.
  - unfold ConstPropExpand in H. run_all. created_one.
  - unfold ConstPropGather in H. run_all; created_one.
  - unfold ConstPropReshape in H. run_all. created_one.
Qed.

(** X13: every fold but the one of ScatterND gives each constant that it
    creates the declared type of the value that the constant replaces: the
    folds of the generated patterns hand the replaced value to
    [createReplacingConstantOp], and a Split creates one constant per result,
    in order, each with the type of that result. *)
Lemma runFold_created_types f st st' :
  (forall op, f <> FoldScatterND op) ->
  Z.of_nat (length (replacedValues f)) < 2 ^ 32 ->
  runFold f st = Ok (Folded, st') ->
  exists cs, created st' = created st ++ cs /\ typesAgree cs (replacedValues f).
Proof.
  intros Hns Hn H.
  destruct (runFold_created_handed f st st' Hn H) as (cs & Hcr & Hty).
  exists cs. split; [exact Hcr|].
  unfold typesAgree. rewrite Hty.
  destruct f; try reflexivity.
  exfalso. exact (Hns _ eq_refl).
Qed.

(** ReduceSum over axis 1 of a 2x3 tensor: one constant of the declared type
    tensor<2xi64>. *)
Lemma runFold_created_types_witness :
  exists st' cs,
    runFold (FoldReduceAttr (ReduceWith ONNXAddOp) (rowReduceResult "onnx.ReduceSum")
               matrixData (Some [1])) initialState = Ok (Folded, st')
    /\ created st' = cs
    /\ map c_type cs = [RankedTensorType [2] I64].
Proof.
  assert (Hrun : runFold (FoldReduceAttr (ReduceWith ONNXAddOp)
                            (rowReduceResult "onnx.ReduceSum") matrixData (Some [1]))
                   initialState
                 = Ok (Folded, ltac:(
                     let r := eval vm_compute in
                       (runFold (FoldReduceAttr (ReduceWith ONNXAddOp)
                          (rowReduceResult "onnx.ReduceSum") matrixData (Some [1]))
                          initialState) in
                     match r with Ok (_, ?s) => exact s end)))
    by (vm_compute; reflexivity).
  pose proof (fun Hns Hn =>
    runFold_created_types
      (FoldReduceAttr (ReduceWith ONNXAddOp) (rowReduceResult "onnx.ReduceSum")
         matrixData (Some [1])) initialState _ Hns Hn Hrun) as H.
  destruct H as (cs & Hcr & Hty); [intros ? ?; discriminate|by vm_compute|].
  eexists _, cs. split; [exact Hrun|]. split; [exact Hcr|exact Hty].
Defined.

(** ** The type of the produced constant (C6) *)

(** C6: every constant that a fold produces has the declared type, shape and
    element type, of the value it replaces, when that type is the one that
    shape inference assigned.  Every fold but the one of ScatterND hands the
    replaced value to [createReplacingConstantOp]; the fold of ScatterND
    hands it the [data] operand, whose type is the one that shape inference
    gives the result. *)
Theorem created_constants_declared_type (f : Fold) (st st' : PassState) :
  shapeInferred f ->
  Z.of_nat (length (replacedValues f)) < 2 ^ 32 ->
  runFold f st = Ok (Folded, st') ->
  exists cs,
    created st' = created st ++ cs
    /\ typesAgree cs (replacedValues f)
    /\ Forall2 (fun c v =>
                  c_type c = v_type v
                  /\ getShape (c_type c) = getShape (v_type v)
                  /\ getElementType (c_type c) = getElementType (v_type v))
         cs (replacedValues f).
Proof.
  intros Hinf Hn H.
  destruct (runFold_created_handed f st st' Hn H) as (cs & Hcr & Hty).
  assert (Hagree : typesAgree cs (replacedValues f)).
  { unfold typesAgree. rewrite Hty.
    destruct f; try reflexivity.
    simpl in Hinf. simpl. unfold inferredScatterNDType in Hinf.
    rewrite <- Hinf. reflexivity. }
  exists cs. split; [exact Hcr|]. split; [exact Hagree|].
  unfold typesAgree in Hagree. clear - Hagree.
  revert Hagree. generalize (replacedValues f) as vs.
  induction cs as [|c cs IH]; intros [|v vs] Hm; try discriminate; constructor.
  - simpl in Hm. injection Hm as Hc _. rewrite Hc. auto.
  - apply IH. simpl in Hm. injection Hm as _ Hrest. exact Hrest.
Qed.

(** A ScatterND into a 2x2 constant, declared with the type of its data: one
    constant of the type tensor<2x2xi64>. *)
Lemma created_constants_declared_type_witness :
  exists st' c,
    runFold (FoldScatterND collidingScatterOp) initialState = Ok (Folded, st')
    /\ created st' = [c]
    /\ c_type c = RankedTensorType [2; 2] I64
    /\ v_type (scatter_getResult collidingScatterOp) = RankedTensorType [2; 2] I64.
Proof.
  assert (Hrun : runFold (FoldScatterND collidingScatterOp) initialState
                 = Ok (Folded, ltac:(
                     let r := eval vm_compute in
                       (runFold (FoldScatterND collidingScatterOp) initialState) in
                     match r with Ok (_, ?s) => exact s end)))
    by (vm_compute; reflexivity).
  destruct (created_constants_declared_type (FoldScatterND collidingScatterOp)
              initialState _ ltac:(reflexivity) ltac:(by vm_compute) Hrun)
    as (cs & Hcr & Hty & _).
  unfold typesAgree in Hty. simpl in Hcr.
  destruct cs as [|c [|c' cs]]; try discriminate.
  eexists _, c. split; [exact Hrun|]. split; [exact Hcr|].
  split; [|reflexivity]. inversion Hty. reflexivity.
Defined.

Lemma to_size_t_add_l a b : to_size_t (to_size_t a + b) = to_size_t (a + b).
Proof. unfold to_size_t, wrap_u. apply Zplus_mod_idemp_l. Qed.

Lemma add_elms_fold operands : forall c,
  invocations (fold_left (fun c v => Counters.add_elms c (elementsOf v)) operands c)
    = invocations c
  /\ to_size_t (input_elms
       (fold_left (fun c v => Counters.add_elms c (elementsOf v)) operands c))
     = to_size_t (input_elms c + totalElements operands).
Proof.
  induction operands as [|v ops IH]; intros c; simpl.
  - split; [reflexivity|]. f_equal. unfold totalElements. simpl. lia.
  - destruct (IH (Counters.add_elms c (elementsOf v))) as [Hi He].
    split; [exact Hi|]. rewrite He. simpl.
    rewrite to_size_t_add_l. f_equal. unfold totalElements. simpl. lia.
Qed.

Lemma add_elms_in_range operands : forall c,
  0 <= input_elms c < 2 ^ 64 ->
  0 <= input_elms
         (fold_left (fun c v => Counters.add_elms c (elementsOf v)) operands c)
    < 2 ^ 64.
Proof.
  induction operands as [|v ops IH]; intros c Hc; simpl; [exact Hc|].
  apply IH. simpl. unfold to_size_t, wrap_u. apply Z.mod_pos_bound. lia.
Qed.

Lemma to_size_t_small z : 0 <= z < 2 ^ 64 -> to_size_t z = z.
Proof. intros H. unfold to_size_t, wrap_u. apply Z.mod_small. exact H. Qed.

(** What one call of [count] does to the map. *)
Lemma count_map_spec name operands m m' :
  Counters.count_map name operands m = Ok m' ->
  exists c,
    m' !! name = Some c
    /\ invocations c = to_size_t (invocations (Counters.entry name m) + 1)
    /\ (0 <= input_elms (Counters.entry name m) < 2 ^ 64 ->
        input_elms c
        = to_size_t (input_elms (Counters.entry name m) + totalElements operands))
    /\ forall other, other <> name -> m' !! other = m !! other.
Proof.
  intros H. apply count_map_Ok_inv in H as [-> _]. unfold counted.
  eexists. split; [apply lookup_insert_eq|].
  destruct (add_elms_fold operands
              (Counters.add_invocation (Counters.entry name m))) as [Hi He].
  split; [rewrite Hi; reflexivity|]. split.
  - intros Hr. simpl in He. rewrite <- He. symmetry. apply to_size_t_small.
    apply add_elms_in_range. exact Hr.
  - intros other Hne. apply lookup_insert_ne. congruence.
Qed.

Lemma fold_left_wrap {A} (f : A -> Z) (l : list A) : forall a,
  fold_left (fun acc e => to_size_t (acc + f e)) l (to_size_t a)
  = to_size_t (a + fold_right Z.add 0 (map f l)).
Proof.
  induction l as [|x l IH]; intros a; simpl.
  - f_equal. lia.
  - rewrite to_size_t_add_l, IH. f_equal. lia.
Qed.

Lemma sum_Permutation {A} (f : A -> Z) (l l' : list A) :
  l ≡ₚ l' -> fold_right Z.add 0 (map f l) = fold_right Z.add 0 (map f l').
Proof.
  induction 1 as [|x l l' _ IH|x y l|l l' l'' _ IH1 _ IH2]; simpl.
  - reflexivity.
  - rewrite IH. reflexivity.
  - lia.
  - rewrite IH1. exact IH2.
Qed.

(** The totals that [dump] accumulates are the sums over the entries of the
    map, whatever the order of the iteration. *)
Lemma dump_totals iterate m :
  Counters.visitsAll iterate ->
  Counters.total_invocations (iterate m) = to_size_t (sumOver invocations m)
  /\ Counters.total_input_elms (iterate m) = to_size_t (sumOver input_elms m).
Proof.
  intros Hv.
  unfold Counters.total_invocations, Counters.total_input_elms, sumOver.
  split.
  - change 0 with (to_size_t 0) at 1.
    rewrite (fold_left_wrap (fun e : string * ConstPropCounters => invocations e.2)).
    rewrite (sum_Permutation _ _ _ (Hv m)). reflexivity.
  - change 0 with (to_size_t 0) at 1.
    rewrite (fold_left_wrap (fun e : string * ConstPropCounters => input_elms e.2)).
    rewrite (sum_Permutation _ _ _ (Hv m)). reflexivity.
Qed.

Lemma append_same_nil (s t : string) : s +:+ t = s -> t = "".
Proof.
  induction s as [|a s IH]; simpl; intros H; [exact H|].
  inversion H. auto.
Qed.

Lemma append_nil_right (s : string) : s +:+ "" = s.
Proof.
  induction s as [|a s IH]; [reflexivity|].
  change (String a (s +:+ "") = String a s). rewrite IH. reflexivity.
Qed.

Lemma dump_text_not_empty iterate m : Counters.dump_text iterate m <> "".
Proof. unfold Counters.dump_text. simpl. discriminate. Qed.

Lemma runOnOperation_outs report iterate driver st r st1 :
  driver st = Ok (r, st1) ->
  exists st2,
    runOnOperation report iterate driver st = Ok (tt, st2)
    /\ outs st2
       = outs st1 +:+ (if report then Counters.dump_text iterate (counters st1) else "")
    /\ counters st2 = counters st1
    /\ (outs st2 <> outs st1 <-> report = true).
Proof.
  intros Hd. unfold runOnOperation, mbind. rewrite Hd.
  assert (Hs : exists st1', (match r with
                             | failure => signalPassFailure
                             | success => mret tt
                             end) st1 = Ok (tt, st1')
                            /\ outs st1' = outs st1 /\ counters st1' = counters st1).
  { destruct r; eexists; (split; [reflexivity|simpl; auto]). }
  destruct Hs as (st1' & -> & Ho & Hc).
  destruct report; unfold Counters.dump, mret; eexists; (split; [reflexivity|]);
    simpl; rewrite ?Ho, ?Hc.
  - split; [reflexivity|]. split; [reflexivity|]. split; [auto|]. intros _ H.
    apply append_same_nil in H. exact (dump_text_not_empty _ _ H).
  - rewrite append_nil_right. split; [reflexivity|]. split; [reflexivity|].
    split; [congruence|discriminate].
Qed.

(** C7, as the code has it: every fold counts itself once when it is entered
    with matched operands, before it computes anything: whenever the process
    goes on after a fold that matched -- also when the fold gave up with a
    diagnostic -- the entry of its category name has one more invocation and
    as many more input elements as the operands handed to [count] have, in
    [size_t] arithmetic, and no other entry has changed; a pattern that does
    not match leaves the map as it was.  A Slice whose parameters cannot be
    scanned is counted although nothing is folded.  The pass writes the
    cumulative dump if and only if it was created with [report = true] (the
    default is false).  What it writes is the header line with the number of
    entries and with the two totals, which are the sums of the invocations
    and of the input elements over the entries of the map, modulo 2^64,
    followed by one line per entry in the order in which the map is
    iterated, whichever order that is. *)
Theorem fold_counters_and_report :
  (forall f st o st', runFold f st = Ok (o, st') ->
     match o with
     | NoMatch => counters st' = counters st
     | _ =>
         let before := Counters.entry (foldCategory f) (counters st) in
         exists c,
           counters st' !! foldCategory f = Some c
           /\ invocations c = to_size_t (invocations before + 1)
           /\ (0 <= input_elms before < 2 ^ 64 ->
               input_elms c
               = to_size_t (input_elms before + totalElements (countedOperands f)))
           /\ forall other, other <> foldCategory f ->
                counters st' !! other = counters st !! other
     end)
  /\ (forall replacingValue constValue attrs st,
        isShaped constValue ->
        v_def replacingValue = DefOp "onnx.Slice" attrs ->
        exists st',
          runFold (FoldSlice replacingValue constValue None) st = Ok (FoldFailed, st')
          /\ counters st' = counted "Slice" [constValue] (counters st)
          /\ created st' = created st
          /\ diagnostics st'
             = diagnostics st ++ [(v_loc replacingValue,
                                   "Failed to scan onnx.Slice parameters successfully")])
  /\ (forall report iterate driver st r st1,
        Counters.visitsAll iterate ->
        driver st = Ok (r, st1) ->
        let m := counters st1 in
        exists st2,
          runOnOperation report iterate driver st = Ok (tt, st2)
          /\ outs st2
             = outs st1 +:+
               (if report then
                  "constprop report (cumulative), entries: "
                    +:+ pretty (Z.of_nat (size m))
                    +:+ ", total invocations:"
                    +:+ pretty (to_size_t (sumOver invocations m))
                    +:+ ", total input elements:"
                    +:+ pretty (to_size_t (sumOver input_elms m))
                    +:+ newline
                    +:+ foldr (fun e acc =>
                                 ("  " +:+ e.1 +:+ " invocations:"
                                    +:+ pretty (invocations e.2)
                                    +:+ " input elements:"
                                    +:+ pretty (input_elms e.2) +:+ newline)
                                 +:+ acc) "" (iterate m)
                else "")
          /\ (outs st2 <> outs st1 <-> report = true))
  /\ createConstPropONNXToONNXPass None = runOnOperation false.
Proof.
  split; [|split; [|split]].
  - intros f st o st' H. apply runFold_counters in H.
    destruct o; try exact H; cbv zeta; apply count_map_spec in H; exact H.
  - intros replacingValue constValue attrs st Hs Hd.
    simpl runFold. unfold ConstPropSlice.
    unfold mbind at 1. unfold mbind at 1.
    rewrite count_shaped by (constructor; [exact Hs|constructor]).
    unfold mbind at 1. unfold castDefiningOp. rewrite Hd.
    rewrite bool_decide_eq_true_2 by reflexivity. simpl.
    eexists. split; [reflexivity|]. simpl. auto.
  - intros report iterate driver st r st1 Hv Hd m.
    destruct (runOnOperation_outs report iterate driver st r st1 Hd)
      as (st2 & H1 & H2 & _ & H3).
    exists st2. split; [exact H1|]. split; [|exact H3].
    rewrite H2. destruct report; [|reflexivity].
    unfold Counters.dump_text. fold m.
    destruct (dump_totals iterate m Hv) as [-> ->]. reflexivity.
  - reflexivity.
Qed.

(** ReduceSum of a 2x3 tensor: one invocation and six input elements.  And a
    Slice whose parameters cannot be scanned followed by that ReduceSum, then
    the report, with the entry of the Reduce visited first: two entries, two
    invocations and sixteen input elements. *)
Lemma fold_counters_and_report_witness :
  (exists st' c,
     runFold (FoldReduceAttr (ReduceWith ONNXAddOp) (rowReduceResult "onnx.ReduceSum")
                matrixData (Some [1])) initialState = Ok (Folded, st')
     /\ counters st' !! "Reduce" = Some c
     /\ invocations c = 1 /\ input_elms c = 6)
  /\ (exists st2,
        runOnOperation true againstKeyOrder sliceThenReduce initialState = Ok (tt, st2)
        /\ outs st2
           = "constprop report (cumulative), entries: 2, total invocations:2, total input elements:16"
               +:+ newline
               +:+ "  Reduce invocations:1 input elements:6" +:+ newline
               +:+ "  Slice invocations:1 input elements:10" +:+ newline).
Proof.
  destruct fold_counters_and_report as (Hcount & _ & Hdump & _).
  split.
  - eexists _.
    assert (Hrun : runFold (FoldReduceAttr (ReduceWith ONNXAddOp)
                              (rowReduceResult "onnx.ReduceSum") matrixData (Some [1]))
                     initialState
                   = Ok (Folded, ltac:(
                       let r := eval vm_compute in
                         (runFold (FoldReduceAttr (ReduceWith ONNXAddOp)
                            (rowReduceResult "onnx.ReduceSum") matrixData (Some [1]))
                            initialState) in
                       match r with Ok (_, ?s) => exact s end)))
      by (vm_compute; reflexivity).
    specialize (Hcount _ _ _ _ Hrun). cbv zeta in Hcount.
    destruct Hcount as (c & Hc & Hi & He & _).
    exists c. split; [exact Hrun|]. split; [exact Hc|].
    split; [rewrite Hi; reflexivity|].
    rewrite He; [reflexivity|]. split; by vm_compute.
  - assert (Hrun : sliceThenReduce initialState
                   = Ok (success, ltac:(
                       let r := eval vm_compute in (sliceThenReduce initialState) in
                       match r with Ok (_, ?s) => exact s end)))
      by (vm_compute; reflexivity).
    assert (Hv : Counters.visitsAll againstKeyOrder)
      by (intros m; unfold againstKeyOrder; apply reverse_Permutation).
    destruct (Hdump true againstKeyOrder sliceThenReduce initialState _ _ Hv Hrun)
      as (st2 & H1 & H2 & _).
    exists st2. split; [exact H1|]. rewrite H2. by vm_compute.
Defined.

(** C7 as stated fails: the fold of a Slice whose parameters the shape helper
    cannot scan does not succeed (it returns null with a diagnostic), and the
    entry "Slice" has been incremented all the same. *)
Lemma slice_failure_still_counted :
  exists st',
    runFold (FoldSlice sliceResult sliceInput None) initialState = Ok (FoldFailed, st')
    /\ created st' = []
    /\ counters initialState !! "Slice" = None
    /\ counters st' !! "Slice" = Some (mkCounters 1 10).
Proof.
  eexists. split; [vm_compute; reflexivity|].
  split; [reflexivity|]. split; reflexivity.
Qed.

(** The axes operand of a Reduce is a constant operand of the folded op, and
    its elements are not counted: only the data operand is handed to
    [count]. *)
Lemma reduce_axes_operand_not_counted :
  let f := FoldReduce (ReduceWith ONNXAddOp) (rowReduceResult "onnx.ReduceSum")
             matrixData axisOne in
  exists st',
    runFold f initialState = Ok (Folded, st')
    /\ constantOperands f = [matrixData; axisOne]
    /\ totalElements (constantOperands f) = 7
    /\ counters st' !! "Reduce" = Some (mkCounters 1 6).
Proof.
  cbv zeta. eexists. split; [vm_compute; reflexivity|].
  split; [reflexivity|]. split; reflexivity.
Qed.

(** ** Shapes of reductions *)

Lemma extentsFrom_cons k axes d rest :
  NoDup axes ->
  extentsFrom k axes (d :: rest)
  = (if bool_decide (k ∈ axes) then d else 1) * extentsFrom (k + 1) axes rest.
Proof.
  unfold extentsFrom. induction 1 as [|a axes Ha Hnd IH].
  - rewrite bool_decide_eq_false_2 by apply not_elem_of_nil. reflexivity.
  - cbn [map fold_right]. rewrite IH. clear IH.
    destruct (Z.ltb_spec a k) as [Hlt|Hge].
    + destruct (Z.ltb_spec a (k + 1)); [|lia].
      assert (a <> k) by lia.
      destruct (decide (k ∈ axes)) as [Hin|Hin].
      * rewrite !bool_decide_eq_true_2
          by (rewrite ?elem_of_cons; auto). lia.
      * rewrite !bool_decide_eq_false_2
          by (rewrite ?elem_of_cons; intuition congruence). lia.
    + destruct (decide (a = k)) as [->|Hne].
      * rewrite Z.sub_diag. simpl.
        destruct (Z.ltb_spec k (k + 1)); [|lia].
        rewrite (bool_decide_eq_false_2 (k ∈ axes)) by exact Ha.
        rewrite bool_decide_eq_true_2 by (apply elem_of_cons; auto). lia.
      * destruct (Z.ltb_spec a (k + 1)); [lia|].
        replace (Z.to_nat (a - k)) with (S (Z.to_nat (a - (k + 1)))) by lia.
        simpl.
        destruct (decide (k ∈ axes)) as [Hin|Hin].
        -- rewrite !bool_decide_eq_true_2
             by (rewrite ?elem_of_cons; auto). lia.
        -- rewrite !bool_decide_eq_false_2
             by (rewrite ?elem_of_cons; intuition congruence). lia.
Qed.

Lemma extentsFrom_nil k axes : extentsFrom k axes [] = 1.
Proof.
  unfold extentsFrom. induction axes as [|a axes IH]; [reflexivity|].
  cbn [map fold_right]. rewrite IH. destruct (a <? k); reflexivity.
Qed.

Lemma getNumElements_app s1 s2 :
  getNumElements (s1 ++ s2) = getNumElements s1 * getNumElements s2.
Proof.
  unfold getNumElements. induction s1 as [|d s1 IH]; simpl; [lia|].
  rewrite IH. lia.
Qed.

Lemma numElements_reduceShapeFrom axes keepDims shape : forall k,
  NoDup axes ->
  getNumElements shape
  = extentsFrom k axes shape * getNumElements (reduceShapeFrom k axes keepDims shape).
Proof.
  induction shape as [|d rest IH]; intros k Hnd.
  - rewrite extentsFrom_nil. reflexivity.
  - rewrite extentsFrom_cons by exact Hnd. simpl reduceShapeFrom.
    rewrite getNumElements_app.
    change (getNumElements (d :: rest)) with (d * getNumElements rest).
    rewrite (IH (k + 1) Hnd).
    destruct (bool_decide (k ∈ axes)); [destruct keepDims|];
      unfold getNumElements at 2; simpl; lia.
Qed.

Lemma extentsFrom_0 axes shape :
  Forall (fun a => 0 <= a) axes ->
  extentsFrom 0 axes shape = getNumElements (reducedExtents axes shape).
Proof.
  unfold extentsFrom, reducedExtents, getNumElements.
  induction 1 as [|a axes Ha _ IH]; simpl; [reflexivity|].
  rewrite IH. destruct (Z.ltb_spec a 0); [lia|]. rewrite Z.sub_0_r. reflexivity.
Qed.

(** The number of elements of a tensor is the product of the reduced extents
    times the number of elements of the reduction. *)
Lemma numElements_reduceShape axes keepDims shape :
  NoDup axes -> Forall (fun a => 0 <= a) axes ->
  getNumElements shape
  = getNumElements (reducedExtents axes shape)
    * getNumElements (reduceShape axes keepDims shape).
Proof.
  intros Hnd Hpos. unfold reduceShape.
  rewrite (numElements_reduceShapeFrom axes keepDims shape 0 Hnd).
  rewrite extentsFrom_0 by exact Hpos. reflexivity.
Qed.

Lemma reduceShapeFrom_keep_length axes shape : forall k,
  length (reduceShapeFrom k axes true shape) = length shape.
Proof.
  induction shape as [|d rest IH]; intros k; simpl; [reflexivity|].
  rewrite length_app, IH. destruct (bool_decide (k ∈ axes)); reflexivity.
Qed.

Lemma reduceShapeFrom_keep_lookup axes shape : forall k i,
  reduceShapeFrom k axes true shape !! i
  = (fun d => if bool_decide (k + Z.of_nat i ∈ axes) then 1 else d) <$> shape !! i.
Proof.
  induction shape as [|d rest IH]; intros k i; simpl; [reflexivity|].
  destruct i as [|i].
  - rewrite Z.add_0_r. simpl. destruct (bool_decide (k ∈ axes)); reflexivity.
  - replace (k + Z.of_nat (S i)) with (k + 1 + Z.of_nat i) by lia.
    rewrite <- IH. destruct (bool_decide (k ∈ axes)); reflexivity.
Qed.

Lemma reduceShapeFrom_drop axes shape : forall k,
  reduceShapeFrom k axes false shape
  = (filter (fun p => p.1 ∉ axes) (zip (seqZ k (Z.of_nat (length shape))) shape)).*2.
Proof.
  induction shape as [|d rest IH]; intros k; [reflexivity|].
  simpl length. rewrite seqZ_cons by lia.
  replace (Z.pred (Z.of_nat (S (length rest)))) with (Z.of_nat (length rest)) by lia.
  simpl zip. rewrite filter_cons. simpl reduceShapeFrom.
  rewrite (IH (k + 1)). unfold Z.succ.
  destruct (decide (k ∈ axes)) as [Hin|Hin].
  - rewrite bool_decide_eq_true_2 by exact Hin.
    destruct (decide ((k, d).1 ∉ axes)) as [Hn|_]; [simpl in Hn; contradiction|].
    reflexivity.
  - rewrite bool_decide_eq_false_2 by exact Hin.
    destruct (decide ((k, d).1 ∉ axes)) as [_|Hn]; [|simpl in Hn; contradiction].
    reflexivity.
Qed.

(** ** The axes of a reduction *)

Lemma to_i64_small z : - 2 ^ 63 <= z < 2 ^ 63 -> to_i64 z = z.
Proof.
  intros H. unfold to_i64, wrap_s. rewrite Z.mod_small by lia. lia.
Qed.

Lemma to_unsigned_small z : 0 <= z < 2 ^ 32 -> to_unsigned z = z.
Proof. intros H. unfold to_unsigned, wrap_u. apply Z.mod_small. exact H. Qed.

Lemma absoluteAxesStep_Ok rank acc a acc' :
  rank <= 2 ^ 32 ->
  absoluteAxesStep rank acc a = Ok acc' ->
  let axis := if a <? 0 then a + rank else a in
  (- rank <= a < rank) /\ (axis ∉ acc) /\ acc' = acc ++ [axis].
Proof.
  intros Hr H. unfold absoluteAxesStep in H.
  apply rbind_Ok in H as (u1 & Hc1 & H). apply rassert_Ok in Hc1.
  apply andb_prop in Hc1 as [H1 H2]. apply Z.leb_le in H1. apply Z.ltb_lt in H2.
  cbv zeta in H. apply rbind_Ok in H as (u2 & Hc2 & H). apply rassert_Ok in Hc2.
  apply negb_true_iff in Hc2. apply bool_decide_eq_false in Hc2.
  assert (Haxis : (if a <? 0 then to_i64 (a + rank) else a)
                  = (if a <? 0 then a + rank else a)).
  { destruct (a <? 0); [apply to_i64_small; lia|reflexivity]. }
  rewrite Haxis in H, Hc2. inversion H; subst; clear H.
  cbv zeta. split; [lia|]. split; [exact Hc2|].
  f_equal. f_equal. apply to_unsigned_small.
  destruct (Z.ltb_spec a 0); lia.
Qed.

Lemma absoluteAxes_fold rank axesRange : forall acc abs,
  rank <= 2 ^ 32 ->
  axesInRange rank acc ->
  rfold (absoluteAxesStep rank) axesRange acc = Ok abs ->
  axesInRange rank abs.
Proof.
  induction axesRange as [|a l IH]; intros acc abs Hr Hacc H; simpl in H.
  - inversion H; subst. exact Hacc.
  - apply rbind_Ok in H as (acc' & Hstep & H).
    apply (absoluteAxesStep_Ok _ _ _ _ Hr) in Hstep as (Ha & Hnin & ->).
    apply (IH _ _ Hr) in H; [exact H|].
    destruct Hacc as [Hnd Hall]. split.
    + apply NoDup_app. split; [exact Hnd|]. split; [|apply NoDup_singleton].
      intros x Hx Hx'. apply list_elem_of_singleton in Hx'. subst. contradiction.
    + apply Forall_app. split; [exact Hall|]. constructor; [|constructor].
      destruct (Z.ltb_spec a 0); lia.
Qed.

Lemma absoluteAxesOf_inRange rank axesRange abs :
  rank <= 2 ^ 32 ->
  absoluteAxesOf rank axesRange = Ok abs -> axesInRange rank abs.
Proof.
  intros Hr H. apply (absoluteAxes_fold rank axesRange [] abs Hr); [|exact H].
  split; constructor.
Qed.

Lemma map_to_unsigned_seqZ rank :
  rank <= 2 ^ 32 -> map to_unsigned (seqZ 0 rank) = seqZ 0 rank.
Proof.
  intros Hr. apply list_eq. intros i. rewrite list_lookup_fmap.
  destruct (seqZ 0 rank !! i) as [a|] eqn:Ha; [|reflexivity].
  simpl. f_equal. apply lookup_seqZ in Ha as [-> Hi].
  apply to_unsigned_small. lia.
Qed.

Lemma seqZ_inRange rank : axesInRange rank (seqZ 0 rank).
Proof.
  split; [apply NoDup_seqZ|].
  apply Forall_forall. intros a Ha. apply elem_of_seqZ in Ha. lia.
Qed.

Lemma effectiveAxes_inRange attrs rank abs :
  rank <= 2 ^ 32 -> axesInRange rank abs ->
  axesInRange rank (effectiveAxes attrs rank abs).
Proof.
  intros Hr Habs. unfold effectiveAxes.
  destruct (bool_decide (abs = []) && _); [|exact Habs].
  rewrite map_to_unsigned_seqZ by exact Hr. apply seqZ_inRange.
Qed.

(** ** The reduction succeeds on a non-empty tensor *)

Lemma rmap_Ok {A B} (f : A -> Result B) (l : list A) :
  (forall x, x ∈ l -> exists y, f x = Ok y) ->
  exists ys, rmap f l = Ok ys /\ length ys = length l.
Proof.
  induction l as [|x l IH]; intros H; simpl.
  - exists []. auto.
  - destruct (H x) as [y Hy]; [left|]. rewrite Hy. simpl.
    destruct IH as (ys & Hys & Hlen); [intros z Hz; apply H; right; exact Hz|].
    rewrite Hys. simpl. exists (y :: ys). simpl. auto.
Qed.

Lemma rmap_total {A B} (f : A -> Result B) (g : A -> B) (l : list A) :
  (forall x, f x = Ok (g x)) -> rmap f l = Ok (map g l).
Proof.
  intros H. induction l as [|x l IH]; simpl; [reflexivity|].
  rewrite H, IH. reflexivity.
Qed.

Lemma rfold_Ok {A B} (f : A -> B -> Result A) (l : list B) :
  (forall a b, exists c, f a b = Ok c) ->
  forall a, exists r, rfold f l a = Ok r.
Proof.
  intros H. induction l as [|b l IH]; intros a; simpl; [eauto|].
  destruct (H a b) as [c ->]. simpl. apply IH.
Qed.

Lemma combiner_Ok op t x y :
  reducingOp op -> family t <> BoolFam ->
  exists c, elementwiseBinaryOpCombiner op t x y = Ok c.
Proof.
  intros Hop Ht. unfold elementwiseBinaryOpCombiner, ElementWiseBinaryOpImpl.
  destruct (family t); [| |destruct (floatFormat t)|contradiction];
    destruct op; simpl in Hop; try contradiction; eauto.
Qed.

Lemma getNumElements_pos shape :
  Forall (fun d => 0 < d) shape -> 0 < getNumElements shape.
Proof.
  unfold getNumElements. induction 1 as [|d s Hd _ IH]; simpl; lia.
Qed.

Lemma reduceShapeFrom_pos axes keepDims shape : forall k,
  Forall (fun d => 0 < d) shape ->
  Forall (fun d => 0 < d) (reduceShapeFrom k axes keepDims shape).
Proof.
  induction shape as [|d rest IH]; intros k H; simpl; [constructor|].
  inversion H; subst. apply Forall_app. split; [|apply IH; assumption].
  destruct (bool_decide (k ∈ axes)); [destruct keepDims|];
    repeat constructor; assumption.
Qed.

Lemma numElements_keepDims axes keepDims shape : forall k,
  getNumElements (reduceShapeFrom k axes keepDims shape)
  = getNumElements (reduceShapeFrom k axes false shape).
Proof.
  induction shape as [|d rest IH]; intros k; simpl; [reflexivity|].
  rewrite !getNumElements_app, (IH (k + 1)).
  destruct (bool_decide (k ∈ axes)); [destruct keepDims|]; reflexivity.
Qed.

(** Every output position is the image of an input position. *)
Lemma reducePosFrom_surj axes shape : forall k o,
  Forall (fun d => 0 < d) shape ->
  0 <= o < getNumElements (reduceShapeFrom k axes false shape) ->
  exists p, 0 <= p < getNumElements shape /\ reducePosFrom k axes shape p = o.
Proof.
  induction shape as [|d rest IH]; intros k o Hpos Ho.
  - exists 0. simpl in *. unfold getNumElements in *. simpl in *. lia.
  - inversion Hpos as [|? ? Hd Hrest]; subst.
    pose proof (getNumElements_pos rest Hrest) as Hinner.
    pose proof (getNumElements_pos _ (reduceShapeFrom_pos axes false rest (k + 1) Hrest))
      as Hout.
    simpl reduceShapeFrom in Ho. rewrite getNumElements_app in Ho.
    change (getNumElements (d :: rest)) with (d * getNumElements rest).
    simpl reducePosFrom.
    destruct (bool_decide (k ∈ axes)).
    + change (getNumElements []) with 1 in Ho.
      destruct (IH (k + 1) o Hrest) as (p & Hp & Hpo); [lia|].
      exists p. split; [nia|]. rewrite Z.mod_small by lia. exact Hpo.
    + change (getNumElements [d]) with (d * 1) in Ho.
      set (outRest := getNumElements (reduceShapeFrom (k + 1) axes false rest)) in *.
      destruct (IH (k + 1) (o mod outRest) Hrest) as (p & Hp & Hpo).
      { apply Z.mod_pos_bound. lia. }
      exists (o / outRest * getNumElements rest + p).
      assert (Hc : 0 <= o / outRest < d).
      { split; [apply Z.div_pos; lia|]. apply Z.div_lt_upper_bound; lia. }
      split; [nia|].
      assert (Hm : (o / outRest * getNumElements rest + p) mod getNumElements rest = p).
      { rewrite (Z.add_comm _ p). rewrite Z.mod_add by lia. apply Z.mod_small. lia. }
      assert (Hdv : (o / outRest * getNumElements rest + p) / getNumElements rest
                    = o / outRest).
      { rewrite Z.div_add_l by lia. rewrite (Z.div_small p) by lia. lia. }
      rewrite Hm, Hdv, Hpo. pose proof (Z.div_mod o outRest). lia.
Qed.

Lemma reduceGroup_nonempty axes shape vals o :
  Forall (fun d => 0 < d) shape ->
  Z.of_nat (length vals) = getNumElements shape ->
  0 <= o < getNumElements (reduceShape axes false shape) ->
  reduceGroup axes shape vals o <> [].
Proof.
  intros Hpos Hlen Ho.
  destruct (reducePosFrom_surj axes shape 0 o Hpos Ho) as (p & Hp & Hpo).
  destruct (lookup_lt_is_Some_2 vals (Z.to_nat p)) as [v Hv]; [lia|].
  assert (Hin : (p, v) ∈ filter (fun pv => reducePosFrom 0 axes shape pv.1 = o)
                          (zip (seqZ 0 (Z.of_nat (length vals))) vals)).
  { apply list_elem_of_filter. split; [exact Hpo|].
    apply (list_elem_of_lookup_2 _ (Z.to_nat p)).
    apply lookup_zip_Some. split; [|exact Hv].
    apply lookup_seqZ. lia. }
  unfold reduceGroup. intros Hnil.
  apply (list_elem_of_fmap_2 snd) in Hin. rewrite Hnil in Hin.
  apply not_elem_of_nil in Hin. exact Hin.
Qed.

Lemma reduce_Ok data axes keepDims op :
  e_wf data -> Forall (fun d => 0 < d) (e_shape data) ->
  reducingOp op -> family (e_elementType data) <> BoolFam ->
  exists vs,
    reduce data axes keepDims (elementwiseBinaryOpCombiner op (e_elementType data))
    = Ok (mkElements (reduceShape axes keepDims (e_shape data)) (e_elementType data)
            (Dense vs))
    /\ Z.of_nat (length vs)
       = getNumElements (reduceShape axes keepDims (e_shape data)).
Proof.
  intros [Hstatic Hwf] Hpos Hop Ht. unfold reduce.
  assert (Hlen : Z.of_nat (length (e_values data)) = getNumElements (e_shape data)).
  { unfold e_values. destruct (e_payload data); [exact Hwf|].
    rewrite length_replicate. unfold e_size.
    pose proof (getNumElements_pos _ Hpos). lia. }
  destruct (rmap_Ok
    (fun o => foldGroup (elementwiseBinaryOpCombiner op (e_elementType data))
                (reduceGroup axes (e_shape data) (e_values data) o))
    (seqZ 0 (getNumElements (reduceShape axes keepDims (e_shape data)))))
    as (vs & Hvs & Hl).
  { intros o Ho. apply elem_of_seqZ in Ho.
    unfold reduceShape in Ho. rewrite numElements_keepDims in Ho.
    pose proof (reduceGroup_nonempty axes (e_shape data) (e_values data) o
                  Hpos Hlen) as Hne.
    destruct (reduceGroup axes (e_shape data) (e_values data) o) as [|v grp].
    { exfalso. apply Hne; [unfold reduceShape; lia|reflexivity]. }
    simpl. apply rfold_Ok. intros a b. apply combiner_Ok; assumption. }
  rewrite Hvs. simpl. exists vs. split; [reflexivity|].
  rewrite Hl, length_seqZ.
  pose proof (getNumElements_pos _
    (reduceShapeFrom_pos axes keepDims (e_shape data) 0 Hpos)).
  unfold reduceShape. lia.
Qed.

(** ** ReduceMean (C1) *)

Lemma divideBy_quotient type denominator :
  family type <> BoolFam -> 0 < denominator < 2 ^ 63 ->
  exists f, divideBy type denominator = Ok f
            /\ forall x, f x = Ok (quotientAt type denominator x).
Proof.
  intros Ht Hd. unfold divideBy, quotientAt.
  destruct (family type); [| | |contradiction]; eexists; (split; [reflexivity|]);
    intros x; cbv beta.
  - destruct (Z.eqb_spec denominator 0); [lia|].
    destruct (Z.eqb_spec denominator (-1)); [lia|].
    rewrite andb_false_r. reflexivity.
  - rewrite to_size_t_small by lia.
    destruct (Z.eqb_spec denominator 0); [lia|]. reflexivity.
  - reflexivity.
Qed.

Lemma replaceWith_run replacingValue reduced st :
  mbind (lift (Ok reduced)) (replaceWith replacingValue) st
  = Ok (getResult (mkConstantOp (v_loc replacingValue) (v_type replacingValue) reduced),
        mkState (counters st)
          (created st ++ [mkConstantOp (v_loc replacingValue) (v_type replacingValue)
                            reduced])
          (replaced st) (diagnostics st) (outs st) (passFailed st)).
Proof. reflexivity. Qed.

Lemma meanBody_Ok data axes keepdims :
  e_wf data ->
  Forall (fun d => 0 < d) (e_shape data) ->
  e_size data < 2 ^ 63 ->
  family (e_elementType data) <> BoolFam ->
  NoDup axes -> Forall (fun a => 0 <= a) axes ->
  exists sumValues,
    let sum := mkElements (reduceShape axes keepdims (e_shape data))
                 (e_elementType data) (Dense sumValues) in
    let denominator := Z.quot (e_size data) (e_size sum) in
    reduce data axes keepdims
      (elementwiseBinaryOpCombiner ONNXAddOp (e_elementType data)) = Ok sum
    /\ meanBody data axes keepdims
       = Ok (mkElements (e_shape sum) (e_elementType data)
               (Dense (map (quotientAt (e_elementType data) denominator) sumValues)))
    /\ denominator = getNumElements (reducedExtents axes (e_shape data))
    /\ e_size data = denominator * e_size sum.
Proof.
  intros Hwf Hpos Hsize Ht Hnd Hrange.
  destruct (reduce_Ok data axes keepdims ONNXAddOp Hwf Hpos I Ht) as (vs & Hred & Hlen).
  exists vs. cbv zeta.
  set (sum := mkElements (reduceShape axes keepdims (e_shape data))
                (e_elementType data) (Dense vs)) in *.
  assert (Hsum : 0 < e_size sum).
  { unfold e_size, sum. simpl.
    apply getNumElements_pos, reduceShapeFrom_pos. exact Hpos. }
  assert (Hdata : 0 < e_size data) by (apply getNumElements_pos; exact Hpos).
  assert (Hprod : e_size data
                  = getNumElements (reducedExtents axes (e_shape data)) * e_size sum).
  { unfold e_size at 1. unfold e_size, sum. simpl.
    apply numElements_reduceShape; assumption. }
  assert (Hden : Z.quot (e_size data) (e_size sum)
                 = getNumElements (reducedExtents axes (e_shape data))).
  { rewrite Hprod. apply Z.quot_mul. lia. }
  assert (Hrem : Z.rem (e_size data) (e_size sum) = 0).
  { rewrite Hprod. apply Z.rem_mul. lia. }
  assert (Hdpos : 0 < Z.quot (e_size data) (e_size sum) < 2 ^ 63).
  { rewrite Hden. rewrite Hprod in Hdata, Hsize. nia. }
  destruct (divideBy_quotient (e_elementType data) _ Ht Hdpos) as (f & Hf & Hfx).
  split; [exact Hred|]. split; [|split; [exact Hden|rewrite Hden; exact Hprod]].
  unfold meanBody. cbv zeta. rewrite Hred. simpl rbind at 1.
  destruct (Z.eqb_spec (e_size sum) 0) as [|_]; [lia|].
  rewrite Hrem. simpl rassert. simpl rbind at 1.
  rewrite Hf. simpl rbind at 1.
  unfold transform. change (e_payload sum) with (Dense vs). cbv iota.
  rewrite (rmap_total f (quotientAt (e_elementType data)
                           (Z.quot (e_size data) (e_size sum))) vs Hfx).
  reflexivity.
Qed.

Lemma axes_nonnegative rank axes :
  axesInRange rank axes -> NoDup axes /\ Forall (fun a => 0 <= a) axes.
Proof.
  intros [Hnd Hr]. split; [exact Hnd|].
  eapply Forall_impl; [exact Hr|]. simpl. intros; lia.
Qed.

(** The fold of a reduction of a non-empty tensor over a non-empty axes set
    ends normally, with the shape of the reduction. *)
Lemma reduce_fold_nonempty reduceOp replacingValue dataValue axesRange st
    data attrs absoluteAxes :
  let rank := Z.of_nat (length (e_shape data)) in
  let axes := effectiveAxes attrs rank absoluteAxes in
  let keepdims := negb (getSIntAttr attrs "keepdims" 1 =? 0) in
  supportedReduce reduceOp ->
  v_def dataValue = DefConstant (Some data) ->
  isShaped dataValue ->
  getDefiningOp replacingValue = Ok attrs ->
  e_wf data ->
  Forall (fun d => 0 < d) (e_shape data) ->
  e_size data < 2 ^ 63 ->
  rank <= 2 ^ 32 ->
  family (e_elementType data) <> BoolFam ->
  absoluteAxesOf rank axesRange = Ok absoluteAxes ->
  axes <> [] ->
  exists vs c st',
    ConstPropReduceAxesRange reduceOp replacingValue dataValue axesRange st
      = Ok (getResult c, st')
    /\ created st' = created st ++ [c]
    /\ c_type c = v_type replacingValue
    /\ c_value c = mkElements (reduceShape axes keepdims (e_shape data))
                     (e_elementType data) (Dense vs).
Proof.
  intros rank axes keepdims Hsup Hd Hs Hop Hwf Hpos Hsize Hrank Ht Habs Hne.
  destruct (axes_nonnegative rank axes
              (effectiveAxes_inRange attrs rank absoluteAxes Hrank
                 (absoluteAxesOf_inRange _ _ _ Hrank Habs))) as [Hnd Hrange].
  assert (Hempty : e_empty data = false).
  { unfold e_empty. apply Z.eqb_neq.
    pose proof (getNumElements_pos _ Hpos). unfold e_size. lia. }
  rewrite (reduce_fold_prefix _ _ _ _ _ _ _ _ Hd Hs Hop Habs).
  cbv zeta. fold rank. fold axes. fold keepdims.
  rewrite bool_decide_eq_false_2 by exact Hne. rewrite Hempty.
  destruct reduceOp as [op|].
  - assert (Hrop : reducingOp op) by (destruct op; exact Hsup).
    destruct (reduce_Ok data axes keepdims op Hwf Hpos Hrop Ht) as (vs & Hred & _).
    rewrite Hred. exists vs. eexists _, _. split; [apply replaceWith_run|].
    simpl. auto.
  - destruct (meanBody_Ok data axes keepdims Hwf Hpos Hsize Ht Hnd Hrange)
      as (vs & _ & Hmean & _).
    cbv zeta in Hmean.
    rewrite Hmean. eexists _, _, _. split; [apply replaceWith_run|].
    simpl. auto.
Qed.

(** C1: for a non-empty constant tensor and a non-empty effective axes set,
    the fold of ReduceMean produces the elements of the ReduceSum over those
    axes, with the same keepdims setting, each divided by the integer
    denominator [data.size() / sum.size()]; the denominator is the product of
    the reduced extents, and the division is the one of the wide type of the
    family of the data's element type (integer division for the integer
    types, floating-point division for the float types); the constant stores
    each quotient narrowed to the data's element type. *)
Theorem reduce_mean_is_sum_divided (replacingValue dataValue : Value)
    (axesRange : list Z) (st : PassState) (data : ElementsAttr)
    (attrs : gmap string Attribute) (absoluteAxes : list Z) :
  let rank := Z.of_nat (length (e_shape data)) in
  let axes := effectiveAxes attrs rank absoluteAxes in
  let keepdims := negb (getSIntAttr attrs "keepdims" 1 =? 0) in
  let elemType := e_elementType data in
  v_def dataValue = DefConstant (Some data) ->
  isShaped dataValue ->
  getDefiningOp replacingValue = Ok attrs ->
  e_wf data ->
  Forall (fun d => 0 < d) (e_shape data) ->
  e_size data < 2 ^ 63 ->
  rank <= 2 ^ 32 ->
  family elemType <> BoolFam ->
  absoluteAxesOf rank axesRange = Ok absoluteAxes ->
  axes <> [] ->
  exists sumValues cSum stSum cMean stMean,
    let sum := mkElements (reduceShape axes keepdims (e_shape data)) elemType
                 (Dense sumValues) in
    let denominator := Z.quot (e_size data) (e_size sum) in
    reduce data axes keepdims (elementwiseBinaryOpCombiner ONNXAddOp elemType) = Ok sum
    /\ ConstPropReduceAxesRange (ReduceWith ONNXAddOp) replacingValue dataValue
         axesRange st = Ok (getResult cSum, stSum)
    /\ c_value cSum = sum
    /\ ConstPropReduceAxesRange ONNXReduceMeanOp replacingValue dataValue
         axesRange st = Ok (getResult cMean, stMean)
    /\ created stMean = created st ++ [cMean]
    /\ c_value cMean
       = mkElements (e_shape sum) elemType
           (Dense (map (quotientAt elemType denominator) sumValues))
    /\ materialise (c_value cMean)
       = map (fun x => narrowWiden elemType (quotientAt elemType denominator x))
           sumValues
    /\ denominator = getNumElements (reducedExtents axes (e_shape data))
    /\ e_size data = denominator * e_size sum.
Proof.
  intros rank axes keepdims elemType Hd Hs Hop Hwf Hpos Hsize Hrank Ht Habs Hne.
  destruct (axes_nonnegative rank axes
              (effectiveAxes_inRange attrs rank absoluteAxes Hrank
                 (absoluteAxesOf_inRange _ _ _ Hrank Habs))) as [Hnd Hrange].
  destruct (meanBody_Ok data axes keepdims Hwf Hpos Hsize Ht Hnd Hrange)
    as (vs & Hred & Hmean & Hden & Hprod).
  cbv zeta in Hred, Hmean, Hden, Hprod. fold elemType in Hred, Hmean, Hden, Hprod.
  assert (Hempty : e_empty data = false).
  { unfold e_empty. apply Z.eqb_neq.
    pose proof (getNumElements_pos _ Hpos). unfold e_size. lia. }
  exists vs. eexists _, _, _, _. cbv zeta.
  split; [exact Hred|].
  split.
  { rewrite (reduce_fold_prefix _ _ _ _ _ _ _ _ Hd Hs Hop Habs).
    cbv zeta. fold rank. fold axes.
    rewrite bool_decide_eq_false_2 by exact Hne. rewrite Hempty.
    fold elemType. fold keepdims. rewrite Hred. apply replaceWith_run. }
  split; [reflexivity|].
  split.
  { rewrite (reduce_fold_prefix _ _ _ _ _ _ _ _ Hd Hs Hop Habs).
    cbv zeta. fold rank. fold axes.
    rewrite bool_decide_eq_false_2 by exact Hne. rewrite Hempty.
    fold elemType. fold keepdims.
    rewrite Hmean. apply replaceWith_run. }
  split; [reflexivity|].
  split; [reflexivity|].
  split; [unfold materialise, e_values; simpl; apply map_map|].
  split; [exact Hden|exact Hprod].
Qed.

(** The mean of the rows of [[1,2,3],[4,5,6]]: the sums 6 and 15 divided
    by 3. *)
Lemma reduce_mean_is_sum_divided_witness :
  exists cMean stMean,
    ConstPropReduceAxesRange ONNXReduceMeanOp (rowReduceResult "onnx.ReduceMean")
      matrixData [1] initialState = Ok (getResult cMean, stMean)
    /\ c_value cMean = mkElements [2] I64 (Dense [W_i64 2; W_i64 5]).
Proof.
  destruct (reduce_mean_is_sum_divided (rowReduceResult "onnx.ReduceMean") matrixData
              [1] initialState matrixElements rowReduceAttrs [1])
    as (vs & cS & stS & cM & stM & Hred & _ & _ & HM & _ & HcM & _ & _).
  - reflexivity.
  - exists [2; 3], I64. reflexivity.
  - reflexivity.
  - split; [repeat constructor; lia|reflexivity].
  - repeat constructor; lia.
  - by vm_compute.
  - by vm_compute.
  - discriminate.
  - reflexivity.
  - by vm_compute.
  - exists cM, stM. split; [exact HM|].
    vm_compute in Hred. injection Hred as <-.
    rewrite HcM. reflexivity.
Defined.

(** ** The attributes of a reduction (C2) *)

Lemma absoluteAxes_seqZ rank (n : nat) : forall k,
  0 <= k -> k + Z.of_nat n <= rank -> rank <= 2 ^ 32 ->
  rfold (absoluteAxesStep rank) (seqZ k (Z.of_nat n)) (seqZ 0 k)
  = Ok (seqZ 0 (k + Z.of_nat n)).
Proof.
  induction n as [|n IH]; intros k Hk Hkn Hr.
  - simpl. rewrite Z.add_0_r. reflexivity.
  - rewrite seqZ_cons by lia.
    replace (Z.pred (Z.of_nat (S n))) with (Z.of_nat n) by lia.
    simpl rfold.
    assert (Hstep : absoluteAxesStep rank (seqZ 0 k) k = Ok (seqZ 0 (Z.succ k))).
    { unfold absoluteAxesStep.
      replace ((- rank <=? k) && (k <? rank)) with true
        by (symmetry; apply andb_true_intro; split;
            [apply Z.leb_le|apply Z.ltb_lt]; lia).
      simpl rassert. simpl rbind. cbv zeta.
      destruct (Z.ltb_spec k 0); [lia|].
      rewrite bool_decide_eq_false_2
        by (intros Hin; apply elem_of_seqZ in Hin; lia).
      simpl. rewrite to_unsigned_small by lia.
      replace (Z.succ k) with (k + 1) by lia.
      rewrite (seqZ_app 0 k 1) by lia. reflexivity. }
    rewrite Hstep. simpl rbind.
    rewrite (IH (Z.succ k)) by lia. f_equal. f_equal. lia.
Qed.

Lemma absoluteAxesOf_all rank :
  0 <= rank <= 2 ^ 32 -> absoluteAxesOf rank (seqZ 0 rank) = Ok (seqZ 0 rank).
Proof.
  intros Hr. unfold absoluteAxesOf.
  pose proof (absoluteAxes_seqZ rank (Z.to_nat rank) 0) as H.
  rewrite Z2Nat.id in H by lia. simpl in H. apply H; lia.
Qed.

Lemma effectiveAxes_all attrs rank :
  rank <= 2 ^ 32 -> effectiveAxes attrs rank (seqZ 0 rank) = seqZ 0 rank.
Proof.
  intros Hr. unfold effectiveAxes.
  destruct (bool_decide (seqZ 0 rank = [])) eqn:He; simpl.
  - destruct (_ =? 0); [|reflexivity]. apply map_to_unsigned_seqZ. exact Hr.
  - reflexivity.
Qed.

(** C2: in every Reduce fold the attribute noop_with_empty_axes of the
    replaced op is read as its integer value, and as 0 when the op does not
    carry it; keepdims as its integer value, and as 1 when absent.  With an
    empty axes list and noop_with_empty_axes = 0 the reduction is over all the
    dimensions 0..rank-1 (the fold is the one of that explicit axes list);
    with an empty axes list and noop_with_empty_axes nonzero the fold is a
    no-op whose constant holds exactly the input's elements; and on a
    non-empty tensor with a non-empty effective axes set the produced shape
    keeps every reduced axis as a dimension of size 1 when keepdims is
    nonzero and removes it when keepdims is 0. *)
Theorem reduce_axes_attributes (reduceOp : ReduceOp) (replacingValue dataValue : Value)
    (st : PassState) (data : ElementsAttr) (attrs : gmap string Attribute)
    (noop keep : Z) :
  let rank := Z.of_nat (length (e_shape data)) in
  v_def dataValue = DefConstant (Some data) ->
  isShaped dataValue ->
  getDefiningOp replacingValue = Ok attrs ->
  rank <= 2 ^ 32 ->
  (attrs !! "noop_with_empty_axes" = Some (IntegerAttr noop)
   \/ attrs !! "noop_with_empty_axes" = None /\ noop = 0) ->
  (attrs !! "keepdims" = Some (IntegerAttr keep)
   \/ attrs !! "keepdims" = None /\ keep = 1) ->
  (getSIntAttr attrs "noop_with_empty_axes" 0 = noop
   /\ getSIntAttr attrs "keepdims" 1 = keep)
  /\ (noop = 0 ->
      effectiveAxes attrs rank [] = seqZ 0 rank
      /\ ConstPropReduceAxesRange reduceOp replacingValue dataValue [] st
         = ConstPropReduceAxesRange reduceOp replacingValue dataValue (seqZ 0 rank) st)
  /\ (noop <> 0 ->
      exists c st',
        ConstPropReduceAxesRange reduceOp replacingValue dataValue [] st
          = Ok (getResult c, st')
        /\ created st' = created st ++ [c]
        /\ c_value c = data
        /\ e_values (c_value c) = e_values data)
  /\ (forall axesRange absoluteAxes,
        supportedReduce reduceOp ->
        e_wf data -> Forall (fun d => 0 < d) (e_shape data) -> e_size data < 2 ^ 63 ->
        family (e_elementType data) <> BoolFam ->
        absoluteAxesOf rank axesRange = Ok absoluteAxes ->
        let axes := if bool_decide (absoluteAxes = []) && (noop =? 0)
                    then seqZ 0 rank else absoluteAxes in
        let keepdims := negb (keep =? 0) in
        axes <> [] ->
        exists c st',
          ConstPropReduceAxesRange reduceOp replacingValue dataValue axesRange st
            = Ok (getResult c, st')
          /\ created st' = created st ++ [c]
          /\ e_shape (c_value c) = reduceShape axes keepdims (e_shape data)
          /\ (keepdims = true ->
              length (e_shape (c_value c)) = length (e_shape data)
              /\ forall i d, e_shape data !! i = Some d ->
                   e_shape (c_value c) !! i
                   = Some (if bool_decide (Z.of_nat i ∈ axes) then 1 else d))
          /\ (keepdims = false ->
              e_shape (c_value c)
              = (filter (fun p => p.1 ∉ axes) (zip (seqZ 0 rank) (e_shape data))).*2)).
Proof.
  intros rank Hd Hs Hop Hrank Hnoop Hkeep.
  assert (Hn : getSIntAttr attrs "noop_with_empty_axes" 0 = noop).
  { unfold getSIntAttr. destruct Hnoop as [->|[-> ->]]; reflexivity. }
  assert (Hk : getSIntAttr attrs "keepdims" 1 = keep).
  { unfold getSIntAttr. destruct Hkeep as [->|[-> ->]]; reflexivity. }
  clear Hnoop Hkeep.
  split; [split; assumption|]. split; [|split].
  - intros Hz.
    assert (Heff : effectiveAxes attrs rank [] = seqZ 0 rank).
    { unfold effectiveAxes. rewrite bool_decide_eq_true_2 by reflexivity.
      rewrite Hn, Hz. simpl. apply map_to_unsigned_seqZ. exact Hrank. }
    split; [exact Heff|].
    rewrite (reduce_fold_prefix _ _ _ [] _ _ _ [] Hd Hs Hop) by reflexivity.
    rewrite (reduce_fold_prefix _ _ _ (seqZ 0 rank) _ _ _ (seqZ 0 rank) Hd Hs Hop)
      by (apply absoluteAxesOf_all; unfold rank; lia).
    fold rank. rewrite Heff, effectiveAxes_all by exact Hrank. reflexivity.
  - intros Hnz.
    rewrite (reduce_fold_prefix _ _ _ [] _ _ _ [] Hd Hs Hop) by reflexivity.
    fold rank.
    assert (Heff : effectiveAxes attrs rank [] = []).
    { unfold effectiveAxes. rewrite bool_decide_eq_true_2 by reflexivity.
      rewrite Hn. destruct (Z.eqb_spec noop 0); [contradiction|reflexivity]. }
    cbv zeta. rewrite Heff. rewrite bool_decide_eq_true_2 by reflexivity.
    eexists _, _. split; [apply replaceWith_run|]. simpl. auto.
  - intros axesRange absoluteAxes Hsup Hwf Hpos Hsize Ht Habs axes keepdims Hne.
    assert (Heff : effectiveAxes attrs rank absoluteAxes = axes).
    { unfold effectiveAxes, axes. rewrite Hn.
      destruct (bool_decide (absoluteAxes = []) && (noop =? 0)); [|reflexivity].
      apply map_to_unsigned_seqZ. exact Hrank. }
    destruct (reduce_fold_nonempty reduceOp replacingValue dataValue axesRange st
                data attrs absoluteAxes Hsup Hd Hs Hop Hwf Hpos Hsize Hrank Ht Habs)
      as (vs & c & st' & Hrun & Hcr & _ & Hval).
    { fold rank. rewrite Heff. exact Hne. }
    exists c, st'. split; [exact Hrun|]. split; [exact Hcr|].
    rewrite Hval. simpl e_shape. fold rank. rewrite Heff, Hk. fold keepdims.
    split; [reflexivity|]. split.
    + intros ->. unfold reduceShape. split; [apply reduceShapeFrom_keep_length|].
      intros i d Hi. rewrite reduceShapeFrom_keep_lookup, Hi. simpl.
      reflexivity.
    + intros ->. unfold reduceShape. apply reduceShapeFrom_drop.
Qed.

(** A ReduceSum that carries noop_with_empty_axes = 1, without axes: the
    constant is the 2x3 input.  A ReduceSum that carries no attribute, without
    axes: the fold over the axes 0 and 1.  And a ReduceMax of the same tensor
    over axis 1 that carries keepdims = 0: the shape [2]. *)
Lemma reduce_axes_attributes_witness :
  (exists c st',
     ConstPropReduceAxesRange (ReduceWith ONNXAddOp) noopReduceResult
       matrixData [] initialState = Ok (getResult c, st')
     /\ c_value c = matrixElements)
  /\ ConstPropReduceAxesRange (ReduceWith ONNXAddOp)
       (reduceResult "onnx.ReduceSum" ∅ (RankedTensorType [] I64))
       matrixData [] initialState
     = ConstPropReduceAxesRange (ReduceWith ONNXAddOp)
         (reduceResult "onnx.ReduceSum" ∅ (RankedTensorType [] I64))
         matrixData [0; 1] initialState
  /\ (exists c st',
        ConstPropReduceAxesRange (ReduceWith ONNXMaxOp) (rowReduceResult "onnx.ReduceMax")
          matrixData [1] initialState = Ok (getResult c, st')
        /\ e_shape (c_value c) = [2]).
Proof.
  split; [|split].
  - destruct (reduce_axes_attributes (ReduceWith ONNXAddOp) noopReduceResult
                matrixData initialState matrixElements
                {["noop_with_empty_axes" := IntegerAttr 1]} 1 1)
      as (_ & _ & H & _).
    + reflexivity.
    + exists [2; 3], I64. reflexivity.
    + reflexivity.
    + by vm_compute.
    + left. reflexivity.
    + right. split; reflexivity.
    + destruct H as (c & st' & Hrun & _ & Hval & _); [discriminate|].
      exists c, st'. split; [exact Hrun|exact Hval].
  - destruct (reduce_axes_attributes (ReduceWith ONNXAddOp)
                (reduceResult "onnx.ReduceSum" ∅ (RankedTensorType [] I64))
                matrixData initialState matrixElements ∅ 0 1)
      as (_ & H & _).
    + reflexivity.
    + exists [2; 3], I64. reflexivity.
    + reflexivity.
    + by vm_compute.
    + right. split; reflexivity.
    + right. split; reflexivity.
    + destruct H as [_ H]; [reflexivity|]. exact H.
  - destruct (reduce_axes_attributes (ReduceWith ONNXMaxOp)
                (rowReduceResult "onnx.ReduceMax") matrixData initialState
                matrixElements rowReduceAttrs 0 0) as (_ & _ & _ & H).
    + reflexivity.
    + exists [2; 3], I64. reflexivity.
    + reflexivity.
    + by vm_compute.
    + right. split; reflexivity.
    + left. reflexivity.
    + destruct (H [1] [1]) as (c & st' & Hrun & _ & Hshape & _).
      * exact I.
      * split; [repeat constructor; lia|reflexivity].
      * repeat constructor; lia.
      * by vm_compute.
      * discriminate.
      * reflexivity.
      * by vm_compute.
      * exists c, st'. split; [exact Hrun|]. rewrite Hshape. reflexivity.
Defined.

(** ** Strides and linear positions *)

Lemma sizesFit_tail d rest : sizesFit (d :: rest) -> sizesFit rest.
Proof.
  intros [Hpos Hfit]. split; [inversion Hpos; assumption|].
  intros j. exact (Hfit (S j)).
Qed.

Lemma getNumElements_nonneg shape :
  Forall (fun d => 0 <= d) shape -> 0 <= getNumElements shape.
Proof.
  unfold getNumElements. induction 1 as [|d s Hd _ IH]; simpl; lia.
Qed.

Lemma getStrides_count_exact shape :
  sizesFit shape ->
  getStrides_count shape = (rowMajorStrides shape, getNumElements shape).
Proof.
  induction shape as [|d rest IH]; intros Hfit; [reflexivity|].
  simpl. rewrite (IH (sizesFit_tail _ _ Hfit)).
  f_equal. destruct Hfit as [Hpos Hfit].
  pose proof (Hfit 0%nat) as H0. simpl in H0.
  pose proof (getNumElements_nonneg _ Hpos) as Hn.
  change (getNumElements (d :: rest)) with (d * getNumElements rest) in *.
  rewrite to_i64_small by lia. lia.
Qed.

Lemma getStrides_exact shape :
  sizesFit shape -> getStrides shape = rowMajorStrides shape.
Proof. intros H. unfold getStrides. rewrite getStrides_count_exact by exact H. reflexivity. Qed.

Lemma rowMajorStrides_length shape : length (rowMajorStrides shape) = length shape.
Proof. induction shape; simpl; auto. Qed.

Lemma rowMajorStrides_nonneg shape :
  Forall (fun d => 0 <= d) shape -> Forall (fun s => 0 <= s) (rowMajorStrides shape).
Proof.
  induction 1 as [|d s Hd Hs IH]; simpl; constructor; [|exact IH].
  apply getNumElements_nonneg. exact Hs.
Qed.

(** A tuple in range addresses a slab that lies within the tensor. *)
Lemma slab_in_bounds tuple : forall shape,
  Forall (fun d => 0 <= d) shape ->
  tupleInRange shape tuple ->
  (length tuple <= length shape)%nat ->
  0 <= dot tuple (rowMajorStrides shape)
  /\ dot tuple (rowMajorStrides shape) + getNumElements (drop (length tuple) shape)
     <= getNumElements shape.
Proof.
  unfold tupleInRange, dot.
  induction tuple as [|idx tuple IH]; intros shape Hpos Hr Hlen.
  - cbn [length zip_with fold_right]. rewrite drop_0. lia.
  - destruct shape as [|d rest]; [simpl in Hlen; lia|].
    simpl in Hr. inversion Hr as [|? ? ? ? Hidx Hrest]; subst.
    inversion Hpos as [|? ? Hd Hposr]; subst.
    simpl in Hlen.
    destruct (IH rest Hposr Hrest ltac:(lia)) as [IH1 IH2].
    cbn [length rowMajorStrides zip_with fold_right drop].
    change (getNumElements (d :: rest)) with (d * getNumElements rest).
    pose proof (getNumElements_nonneg _ Hposr).
    split; nia.
Qed.

Lemma dot_nonneg_terms tuple strides :
  Forall (fun i => 0 <= i) tuple -> Forall (fun s => 0 <= s) strides ->
  Forall (fun p => 0 <= p.1 * p.2) (zip tuple strides).
Proof.
  intros Ht. revert strides. induction Ht as [|i t Hi _ IH]; intros strides Hs.
  - constructor.
  - destruct Hs as [|s ss Hs Hss]; [constructor|].
    simpl. constructor; [simpl; lia|apply IH; exact Hss].
Qed.

Lemma linear_fold_exact (l : list (Z * Z)) : forall acc,
  0 <= acc ->
  Forall (fun p => 0 <= p.1 * p.2) l ->
  acc + fold_right Z.add 0 (map (fun p => p.1 * p.2) l) < 2 ^ 63 ->
  fold_left (fun index p => to_i64 (index + to_i64 (p.1 * p.2))) l acc
  = acc + fold_right Z.add 0 (map (fun p => p.1 * p.2) l).
Proof.
  induction l as [|p l IH]; intros acc Hacc Hl Hb; simpl; [lia|].
  inversion Hl as [|? ? Hp Hl']; subst. simpl in Hb.
  assert (Hsum : 0 <= fold_right Z.add 0 (map (fun p => p.1 * p.2) l)).
  { clear -Hl'. induction Hl'; simpl; lia. }
  rewrite (to_i64_small (p.1 * p.2)) by lia.
  rewrite to_i64_small by lia.
  rewrite IH by (try assumption; lia). lia.
Qed.

Lemma linearAccess_fold indices strides (n : nat) : forall s acc,
  (s + n)%nat = length strides ->
  (length strides <= length indices)%nat ->
  rfold (fun index i =>
           rbind (at_ indices (Z.of_nat i)) (fun idx =>
           Ok (to_i64 (index + to_i64 (idx * default 0 (strides !! i))))))
        (seq s n) acc
  = Ok (fold_left (fun index p => to_i64 (index + to_i64 (p.1 * p.2)))
          (zip (drop s indices) (drop s strides)) acc).
Proof.
  induction n as [|n IH]; intros s acc Hs Hlen.
  - simpl. rewrite (drop_ge strides) by lia. rewrite zip_with_nil_r. reflexivity.
  - destruct (lookup_lt_is_Some_2 strides s) as [st Hst]; [lia|].
    destruct (lookup_lt_is_Some_2 indices s) as [idx Hidx]; [lia|].
    rewrite (drop_S _ _ _ Hst), (drop_S _ _ _ Hidx). simpl.
    unfold at_ at 1. destruct (Z.ltb_spec (Z.of_nat s) 0); [lia|].
    rewrite Nat2Z.id, Hidx. simpl. rewrite Hst. simpl.
    apply IH; lia.
Qed.

Lemma dot_zip tuple strides :
  dot tuple strides = fold_right Z.add 0 (map (fun p => p.1 * p.2) (zip tuple strides)).
Proof.
  unfold dot. revert strides. induction tuple as [|i t IH]; intros [|s ss];
    simpl; try reflexivity. rewrite IH. reflexivity.
Qed.

Lemma zip_take_r {A B} (l : list A) (k : list B) :
  zip l (take (length l) k) = zip l k.
Proof.
  revert k. induction l as [|a l IH]; intros [|b k]; simpl; try reflexivity.
  rewrite IH. reflexivity.
Qed.

(** The linear access index of a tuple in range is its exact position, and the
    slab at that position lies within the data. *)
Lemma getLinearAccessIndex_exact shape tuple :
  sizesFit shape ->
  tupleInRange shape tuple ->
  (length tuple <= length shape)%nat ->
  getLinearAccessIndex tuple (take (length tuple) (rowMajorStrides shape))
  = Ok (dot tuple (rowMajorStrides shape))
  /\ 0 <= dot tuple (rowMajorStrides shape)
  /\ dot tuple (rowMajorStrides shape) + getNumElements (drop (length tuple) shape)
     <= getNumElements shape.
Proof.
  intros Hfit Hr Hlen. destruct Hfit as [Hpos Hfit].
  destruct (slab_in_bounds tuple shape Hpos Hr Hlen) as [H0 H1].
  split; [|split; assumption].
  unfold getLinearAccessIndex.
  rewrite (linearAccess_fold tuple _ _ 0%nat 0)
    by (rewrite ?length_take, ?rowMajorStrides_length; lia).
  f_equal. rewrite !drop_0. rewrite zip_take_r.
  rewrite linear_fold_exact.
  - rewrite dot_zip. lia.
  - lia.
  - apply dot_nonneg_terms; [|apply rowMajorStrides_nonneg; exact Hpos].
    unfold tupleInRange in Hr.
    clear -Hr. induction Hr; constructor; [lia|assumption].
  - rewrite <- dot_zip. pose proof (Hfit 0%nat) as Hf. rewrite drop_0 in Hf.
    pose proof (getNumElements_nonneg (drop (length tuple) shape)
                  (Forall_drop _ _ _ Hpos)). lia.
Qed.

(** ** Copies into a buffer *)

Lemma overwrite_length {A} (dst : list A) pos (src : list A) :
  0 <= pos -> pos + Z.of_nat (length src) <= Z.of_nat (length dst) ->
  length (overwrite dst pos src) = length dst.
Proof.
  intros H0 H1. unfold overwrite.
  rewrite !length_app, length_take, length_drop. lia.
Qed.

Lemma overwrite_lookup {A} (dst : list A) pos (src : list A) (p : nat) :
  0 <= pos -> pos + Z.of_nat (length src) <= Z.of_nat (length dst) ->
  overwrite dst pos src !! p
  = if bool_decide (pos <= Z.of_nat p < pos + Z.of_nat (length src))
    then src !! (p - Z.to_nat pos)%nat
    else dst !! p.
Proof.
  intros H0 H1. unfold overwrite.
  destruct (decide (pos <= Z.of_nat p < pos + Z.of_nat (length src))) as [Hin|Hout].
  - rewrite bool_decide_eq_true_2 by exact Hin.
    rewrite lookup_app_r by (rewrite length_take; lia).
    rewrite length_take. rewrite lookup_app_l by lia.
    f_equal. lia.
  - rewrite bool_decide_eq_false_2 by exact Hout.
    destruct (decide (Z.of_nat p < pos)) as [Hlt|Hge].
    + rewrite lookup_app_l by (rewrite length_take; lia).
      apply lookup_take_lt. lia.
    + rewrite lookup_app_r by (rewrite length_take; lia).
      rewrite length_take. rewrite lookup_app_r by lia.
      rewrite lookup_drop. f_equal. lia.
Qed.

Lemma copy_n_overwrite {A} (src : list A) from n (dst : list A) to :
  0 <= n -> 0 <= from -> from + n <= Z.of_nat (length src) ->
  0 <= to -> to + n <= Z.of_nat (length dst) ->
  copy_n src from n dst to
  = Ok (overwrite dst to (take (Z.to_nat n) (drop (Z.to_nat from) src))).
Proof.
  intros Hn Hf Hfs Ht Htd. unfold copy_n, overwrite.
  destruct (Z.leb_spec n 0) as [Hle|Hgt].
  - replace (Z.to_nat n) with 0%nat by lia. simpl. rewrite Nat.add_0_r.
    rewrite take_drop. reflexivity.
  - replace ((0 <=? from) && (from + n <=? Z.of_nat (length src))
             && (0 <=? to) && (to + n <=? Z.of_nat (length dst))) with true.
    + do 3 f_equal. rewrite length_take, length_drop. f_equal. lia.
    + symmetry. repeat (apply andb_true_intro; split); apply Z.leb_le; lia.
Qed.

(** ** The loop of ScatterND *)

Lemma arrayRefAt_tuple indices k (i : nat) :
  0 <= k -> (Z.of_nat i + 1) * k <= Z.of_nat (length indices) ->
  arrayRefAt indices (Z.of_nat i * k) k = Ok (indexTuple indices k i)
  /\ length (indexTuple indices k i) = Z.to_nat k.
Proof.
  intros Hk Hlen. unfold arrayRefAt, indexTuple.
  assert (Hpos : Z.to_nat (Z.of_nat i * k) = (i * Z.to_nat k)%nat) by nia.
  split.
  - destruct (Z.leb_spec k 0) as [Hle|Hgt].
    + replace (Z.to_nat k) with 0%nat by lia. reflexivity.
    + replace ((0 <=? Z.of_nat i * k)
               && (Z.of_nat i * k + k <=? Z.of_nat (length indices))) with true.
      * rewrite Hpos. reflexivity.
      * symmetry. apply andb_true_intro. split; apply Z.leb_le; nia.
  - rewrite length_take, length_drop. nia.
Qed.

Lemma scatterLoop_writes indices updates k slice_size sliceStrides
    (pos : nat -> Z) (m : nat) : forall i0 output,
  0 <= k -> 0 <= slice_size ->
  (Z.of_nat (i0 + m)) * k <= Z.of_nat (length indices) ->
  (Z.of_nat (i0 + m)) * slice_size <= Z.of_nat (length updates) ->
  (forall i, (i0 <= i < i0 + m)%nat ->
     getLinearAccessIndex (indexTuple indices k i) sliceStrides = Ok (pos i)
     /\ 0 <= pos i /\ pos i + slice_size <= Z.of_nat (length output)) ->
  scatterLoop m indices updates k slice_size sliceStrides
    (Z.of_nat i0 * k) (Z.of_nat i0 * slice_size) output
  = Ok (fold_left (fun out i => overwrite out (pos i) (updateSlab updates slice_size i))
          (seq i0 m) output).
Proof.
  induction m as [|m IH]; intros i0 output Hk Hs Hil Hul Hpos; [reflexivity|].
  simpl scatterLoop.
  destruct (arrayRefAt_tuple indices k i0 Hk) as [Href _]; [nia|].
  rewrite Href. simpl rbind.
  destruct (Hpos i0) as (Hlin & Hp0 & Hp1); [lia|].
  rewrite Hlin. simpl rbind.
  assert (Hslab : length (updateSlab updates slice_size i0) = Z.to_nat slice_size).
  { unfold updateSlab. rewrite length_take, length_drop. nia. }
  rewrite copy_n_overwrite by nia.
  simpl rbind.
  replace (Z.to_nat (Z.of_nat i0 * slice_size)) with (i0 * Z.to_nat slice_size)%nat
    by nia.
  fold (updateSlab updates slice_size i0).
  replace (Z.of_nat i0 * k + k) with (Z.of_nat (S i0) * k) by lia.
  replace (Z.of_nat i0 * slice_size + slice_size) with (Z.of_nat (S i0) * slice_size)
    by lia.
  rewrite (IH (S i0)); try assumption.
  - reflexivity.
  - replace (S i0 + m)%nat with (i0 + S m)%nat by lia. exact Hil.
  - replace (S i0 + m)%nat with (i0 + S m)%nat by lia. exact Hul.
  - intros i Hi. rewrite overwrite_length by lia.
    apply Hpos. lia.
Qed.

Lemma scatterWrites_length pos slab n : forall output,
  (forall i, (i < n)%nat ->
     0 <= pos i /\ pos i + Z.of_nat (length (slab i)) <= Z.of_nat (length output)) ->
  length (scatterWrites pos slab n output) = length output.
Proof.
  unfold scatterWrites. induction n as [|n IH]; intros output H; [reflexivity|].
  rewrite seq_S, fold_left_app. simpl.
  assert (Hl : length (fold_left (fun out i => overwrite out (pos i) (slab i))
                         (seq 0 n) output) = length output)
    by (apply IH; intros; apply H; lia).
  destruct (H n) as [H0 H1]; [lia|].
  rewrite overwrite_length; [exact Hl|exact H0|rewrite Hl; exact H1].
Qed.

(** Where two slabs overlap, the one written last remains. *)
Lemma scatterWrites_lookup pos slab slice_size n : forall output (p : nat),
  (forall i, (i < n)%nat ->
     0 <= pos i /\ pos i + slice_size <= Z.of_nat (length output)
     /\ Z.of_nat (length (slab i)) = slice_size) ->
  scatterWrites pos slab n output !! p
  = match last (writersOf pos slice_size n (Z.of_nat p)) with
    | Some i => slab i !! (p - Z.to_nat (pos i))%nat
    | None => output !! p
    end.
Proof.
  induction n as [|n IH]; intros output p H; [reflexivity|].
  unfold scatterWrites, writersOf in *.
  rewrite seq_S, fold_left_app, filter_app. simpl fold_left.
  destruct (H n) as (Hp0 & Hp1 & Hl); [lia|].
  pose proof (scatterWrites_length pos slab n output) as Hlen.
  unfold scatterWrites in Hlen.
  rewrite overwrite_lookup
    by (rewrite ?Hlen; try lia; intros i Hi; destruct (H i) as (? & ? & ?); lia).
  rewrite Hl. simpl seq.
  destruct (decide (pos n <= Z.of_nat p < pos n + slice_size)) as [Hin|Hout].
  - rewrite bool_decide_eq_true_2 by exact Hin.
    rewrite filter_cons_True by exact Hin. rewrite filter_nil, last_snoc.
    reflexivity.
  - rewrite bool_decide_eq_false_2 by exact Hout.
    rewrite filter_cons_False by exact Hout. rewrite filter_nil, app_nil_r.
    apply IH. intros i Hi. apply H. lia.
Qed.

Lemma e_values_length e :
  e_wf e -> Z.of_nat (length (e_values e)) = e_size e.
Proof.
  intros [Hpos Hwf]. unfold e_values. destruct (e_payload e); [exact Hwf|].
  rewrite length_replicate. pose proof (getNumElements_nonneg _ Hpos).
  unfold e_size. lia.
Qed.

Lemma hasStaticShape_nonneg shape :
  Forall (fun d => 0 <= d) shape -> hasStaticShape shape = true.
Proof.
  unfold hasStaticShape. induction 1 as [|d s Hd _ IH]; simpl; [reflexivity|].
  rewrite IH. apply andb_true_intro. split; [apply Z.leb_le; exact Hd|reflexivity].
Qed.

Lemma take_front_small {A} (l : list A) k :
  0 <= k <= Z.of_nat (length l) -> k < 2 ^ 63 ->
  take_front l k = take (Z.to_nat k) l.
Proof.
  intros Hk Hb. unfold take_front. rewrite to_size_t_small by lia.
  destruct (Z.geb_spec k (Z.of_nat (length l))); [|reflexivity].
  rewrite take_ge by lia. reflexivity.
Qed.

Lemma drop_front_app {A} (l1 l2 : list A) :
  drop_front (l1 ++ l2) (Z.of_nat (length l1)) = Ok l2.
Proof.
  unfold drop_front.
  replace ((0 <=? Z.of_nat (length l1))
           && (Z.of_nat (length l1) <=? Z.of_nat (length (l1 ++ l2)))) with true
    by (symmetry; apply andb_true_intro; split; apply Z.leb_le;
        rewrite ?length_app; lia).
  rewrite Nat2Z.id, drop_app_length. reflexivity.
Qed.

(** The run of [ScatterNDImpl] on well-formed operands with index tuples in
    range. *)
Lemma ScatterNDImpl_run data indices updates outer k output :
  let dataShape := e_shape data in
  let n := Z.to_nat (getNumElements outer) in
  let slice_size := getNumElements (drop (Z.to_nat k) dataShape) in
  let pos := slabPos dataShape (e_int64s indices) k in
  let slab := updateSlab (e_values updates) slice_size in
  e_wf data -> e_wf indices -> e_wf updates ->
  sizesFit dataShape ->
  e_shape indices = outer ++ [k] ->
  0 <= k <= Z.of_nat (length dataShape) -> k < 2 ^ 63 ->
  e_shape updates = outer ++ drop (Z.to_nat k) dataShape ->
  (forall i, (i < n)%nat -> tupleInRange dataShape (indexTuple (e_int64s indices) k i)) ->
  length output = length (e_values data) ->
  ScatterNDImpl data indices updates output
    = Ok (scatterWrites pos slab n (e_values data))
  /\ forall i, (i < n)%nat ->
       0 <= pos i /\ pos i + slice_size <= Z.of_nat (length (e_values data))
       /\ Z.of_nat (length (slab i)) = slice_size.
Proof.
  intros dataShape n slice_size pos slab Hwd Hwi Hwu Hfit Hish Hk Hk63 Hush Hrange Hout.
  pose proof (e_values_length _ Hwd) as Hld.
  pose proof (e_values_length _ Hwi) as Hli.
  pose proof (e_values_length _ Hwu) as Hlu.
  unfold e_size in Hld, Hli, Hlu. fold dataShape in Hld.
  rewrite Hish, getNumElements_app in Hli.
  change (getNumElements [k]) with (k * 1) in Hli.
  rewrite Hush, getNumElements_app in Hlu. fold slice_size in Hlu.
  assert (Houter : 0 <= getNumElements outer).
  { apply getNumElements_nonneg. destruct Hwi as [Hp _]. rewrite Hish in Hp.
    apply Forall_app in Hp. tauto. }
  assert (Hn : Z.of_nat n = getNumElements outer) by (unfold n; lia).
  destruct Hfit as [Hdpos Hdfit].
  assert (Hslice : 0 <= slice_size).
  { apply getNumElements_nonneg, Forall_drop. exact Hdpos. }
  assert (Hlen64 : length (e_int64s indices) = length (e_values indices)).
  { unfold e_int64s. apply length_map. }
  assert (Htuple : forall i, (i < n)%nat ->
    length (indexTuple (e_int64s indices) k i) = Z.to_nat k).
  { intros i Hi. apply arrayRefAt_tuple; [lia|]. rewrite Hlen64. nia. }
  assert (Hpos : forall i, (i < n)%nat ->
    getLinearAccessIndex (indexTuple (e_int64s indices) k i)
      (take (Z.to_nat k) (rowMajorStrides dataShape)) = Ok (pos i)
    /\ 0 <= pos i /\ pos i + slice_size <= Z.of_nat (length (e_values data))).
  { intros i Hi.
    destruct (getLinearAccessIndex_exact dataShape
                (indexTuple (e_int64s indices) k i) (conj Hdpos Hdfit) (Hrange i Hi))
      as (H1 & H2 & H3).
    { rewrite (Htuple i Hi). lia. }
    rewrite (Htuple i Hi) in H1, H3. fold slice_size in H3.
    unfold pos, slabPos. rewrite Hld. auto. }
  split.
  - unfold ScatterNDImpl, readElementsWideNums.
    rewrite bool_decide_eq_true_2 by (symmetry; exact Hout).
    simpl rbind at 1. rewrite Hish, last_snoc. simpl rbind at 1.
    rewrite removelast_last.
    rewrite Hush, drop_front_app. simpl rbind at 1.
    fold dataShape. fold slice_size.
    rewrite getStrides_exact by (split; assumption).
    rewrite take_front_small by (rewrite ?rowMajorStrides_length; lia).
    fold n.
    pose proof (scatterLoop_writes (e_int64s indices) (e_values updates) k slice_size
                  (take (Z.to_nat k) (rowMajorStrides dataShape)) pos n 0%nat
                  (e_values data)) as Hloop.
    change (Z.of_nat 0 * k) with 0 in Hloop.
    change (Z.of_nat 0 * slice_size) with 0 in Hloop.
    rewrite Hloop.
    + reflexivity.
    + lia.
    + exact Hslice.
    + rewrite Hlen64. simpl. nia.
    + simpl. nia.
    + intros i Hi. apply Hpos. lia.
  - intros i Hi. destruct (Hpos i Hi) as (_ & H2 & H3).
    split; [exact H2|]. split; [exact H3|].
    unfold slab, updateSlab. rewrite length_take, length_drop. nia.
Qed.

(** ** ScatterND (C3) *)

(** C3: the fold of a ScatterND with constant data, indices and updates
    (well-formed, with every index tuple in the range of the leading [k]
    dimensions of the data) produces the copy of the data in which, for the
    tuples of the indices taken in row-major order, the slab that the tuple
    addresses is overwritten by the corresponding slab of the updates; at a
    position that several tuples address, the value of the tuple that comes
    last in that order remains. *)
Theorem scatter_nd_last_write_wins (scatterNdOp : ScatterNDOp) (st : PassState)
    (data indices updates : ElementsAttr) (outer : Shape) (k : Z) :
  let dataShape := e_shape data in
  let n := Z.to_nat (getNumElements outer) in
  let slice_size := getNumElements (drop (Z.to_nat k) dataShape) in
  let pos := slabPos dataShape (e_int64s indices) k in
  let slab := updateSlab (e_values updates) slice_size in
  isRankedTensorType (scatter_resultType scatterNdOp) = true ->
  v_def (scatter_data scatterNdOp) = DefConstant (Some data) ->
  v_def (scatter_indices scatterNdOp) = DefConstant (Some indices) ->
  v_def (scatter_updates scatterNdOp) = DefConstant (Some updates) ->
  isShaped (scatter_data scatterNdOp) ->
  isShaped (scatter_indices scatterNdOp) ->
  isShaped (scatter_updates scatterNdOp) ->
  e_wf data -> e_wf indices -> e_wf updates ->
  sizesFit dataShape ->
  e_shape indices = outer ++ [k] ->
  0 <= k <= Z.of_nat (length dataShape) -> k < 2 ^ 63 ->
  e_shape updates = outer ++ drop (Z.to_nat k) dataShape ->
  (forall i, (i < n)%nat -> tupleInRange dataShape (indexTuple (e_int64s indices) k i)) ->
  exists c st',
    ConstPropScatterNDPattern scatterNdOp st = Ok (success, st')
    /\ created st' = created st ++ [c]
    /\ replaced st' = replaced st ++ [(scatter_loc scatterNdOp, [getResult c])]
    /\ c_value c = mkElements dataShape (e_elementType data)
                     (Dense (scatterWrites pos slab n (e_values data)))
    /\ length (e_values (c_value c)) = length (e_values data)
    /\ (forall i, (i < n)%nat ->
          0 <= pos i /\ pos i + slice_size <= Z.of_nat (length (e_values data))
          /\ Z.of_nat (length (slab i)) = slice_size)
    /\ forall p : nat,
         e_values (c_value c) !! p
         = match last (writersOf pos slice_size n (Z.of_nat p)) with
           | Some i => slab i !! (p - Z.to_nat (pos i))%nat
           | None => e_values data !! p
           end.
Proof.
  intros dataShape n slice_size pos slab Hranked Hd Hi Hu Hsd Hsi Hsu
    Hwd Hwi Hwu Hfit Hish Hk Hk63 Hush Hrange.
  pose proof (e_values_length _ Hwd) as Hld. unfold e_size in Hld.
  set (buffer := replicate (Z.to_nat (getNumElements (e_shape data))) (W_u64 0)).
  assert (Hbuf : length buffer = length (e_values data)).
  { unfold buffer. rewrite length_replicate. lia. }
  destruct (ScatterNDImpl_run data indices updates outer k buffer
              Hwd Hwi Hwu Hfit Hish Hk Hk63 Hush Hrange Hbuf) as [Himpl Hbounds].
  fold dataShape n slice_size pos slab in Himpl, Hbounds.
  eexists _, _. split; [|split; [|split; [|split; [|split; [|split]]]]].
  - unfold ConstPropScatterNDPattern, isDenseONNXConstant.
    rewrite Hranked, Hd, Hi, Hu. change (negb true) with false. cbv iota.
    unfold mbind at 1.
    rewrite count_shaped by (repeat constructor; assumption).
    unfold getConstValueElements. rewrite Hd, Hi, Hu.
    unfold mbind at 1. simpl lift at 1. cbv beta iota.
    unfold mbind at 1. simpl lift at 1. cbv beta iota.
    unfold mbind at 1. simpl lift at 1. cbv beta iota.
    unfold mbind at 1. unfold fromWideNums, e_type.
    rewrite hasStaticShape_nonneg by (destruct Hwd; assumption).
    simpl rassert. simpl rbind at 1. fold buffer. rewrite Himpl.
    simpl rbind. simpl lift. cbv beta iota.
    reflexivity.
  - reflexivity.
  - reflexivity.
  - reflexivity.
  - simpl. unfold e_values at 1. simpl.
    apply scatterWrites_length. intros i Hlt.
    destruct (Hbounds i Hlt) as (H1 & H2 & H3). lia.
  - exact Hbounds.
  - intros p. simpl c_value. unfold e_values at 1. simpl e_payload.
    apply scatterWrites_lookup. exact Hbounds.
Qed.

(** Two tuples that address row 1: the row holds the second update. *)
Lemma scatter_nd_last_write_wins_witness :
  exists c st',
    ConstPropScatterNDPattern collidingScatterOp initialState = Ok (success, st')
    /\ e_values (c_value c) = map W_i64 [10; 20; 3; 4]
    /\ e_values (c_value c) !! 2%nat = e_values collidingUpdates !! 2%nat.
Proof.
  destruct (scatter_nd_last_write_wins collidingScatterOp initialState
              collidingData collidingIndices collidingUpdates [2] 1)
    as (c & st' & Hrun & _ & _ & Hval & _ & _ & _).
  - reflexivity.
  - reflexivity.
  - reflexivity.
  - reflexivity.
  - exists [2; 2], I64. reflexivity.
  - exists [2; 1], I64. reflexivity.
  - exists [2; 2], I64. reflexivity.
  - split; [repeat constructor; lia|reflexivity].
  - split; [repeat constructor; lia|reflexivity].
  - split; [repeat constructor; lia|reflexivity].
  - split; [repeat constructor; lia|].
    intros [|[|[|j]]]; by vm_compute.
  - reflexivity.
  - split; by vm_compute.
  - by vm_compute.
  - reflexivity.
  - intros [|[|i]] Hi; [| |vm_compute in Hi; lia];
      (constructor; [vm_compute; split; [discriminate|reflexivity]|constructor]).
  - exists c, st'. split; [exact Hrun|]. rewrite Hval. split; reflexivity.
Defined.

(** ** Gather (C4) *)


(** *** The loops of Gather *)



















(** * Further properties of the folds *)

(** ** Strides and the linear access index *)

Lemma rowMajorStrides_lookup shape : forall i,
  (i < length shape)%nat ->
  rowMajorStrides shape !! i = Some (getNumElements (drop (S i) shape)).
Proof.
  induction shape as [|d rest IH]; intros i Hi; [simpl in Hi; lia|].
  destruct i as [|i]; [reflexivity|].
  simpl in Hi. simpl. apply IH. lia.
Qed.

Lemma getStrides_tail shape :
  sizesFit (tail shape) -> getStrides shape = rowMajorStrides shape.
Proof.
  destruct shape as [|d rest]; [reflexivity|]. simpl tail. intros Hfit.
  unfold getStrides. simpl.
  rewrite (getStrides_count_exact rest Hfit). reflexivity.
Qed.

(** X1: [getStrides] returns the row-major strides: one stride per dimension,
    the stride of dimension [i] being the number of elements of the
    dimensions after [i] (so the last stride is 1).  The extent of the first
    dimension plays no part: only the dimensions after it must be
    non-negative with products that fit [int64_t]. *)
Theorem getStrides_row_major (shape : Shape) :
  sizesFit (tail shape) ->
  length (getStrides shape) = length shape
  /\ (forall i, (i < length shape)%nat ->
        getStrides shape !! i = Some (getNumElements (drop (S i) shape)))
  /\ (forall d, getStrides (d :: tail shape) = getStrides (0 :: tail shape)).
Proof.
  intros Hfit. rewrite (getStrides_tail shape Hfit).
  split; [apply rowMajorStrides_length|].
  split; [apply rowMajorStrides_lookup|].
  intros d. rewrite !getStrides_tail by exact Hfit. reflexivity.
Qed.

(** The strides of a tensor<?x3x4>. *)
Lemma getStrides_row_major_witness :
  getStrides [kDynamic; 3; 4] = [12; 4; 1].
Proof.
  destruct (getStrides_row_major [kDynamic; 3; 4]) as (Hlen & Hlook & _).
  - split; [repeat constructor; lia|]. intros [|[|[|j]]]; by vm_compute.
  - apply list_eq. intros [|[|[|i]]].
    + rewrite Hlook by (simpl; lia). reflexivity.
    + rewrite Hlook by (simpl; lia). reflexivity.
    + rewrite Hlook by (simpl; lia). reflexivity.
    + rewrite lookup_ge_None_2 by (rewrite Hlen; simpl; lia). reflexivity.
Defined.

Lemma unravel_length shape : forall p, length (unravel shape p) = length shape.
Proof. induction shape as [|d rest IH]; intros p; simpl; auto. Qed.

Lemma tupleInRange_cons d rest i t :
  tupleInRange (d :: rest) (i :: t) <-> 0 <= i < d /\ tupleInRange rest t.
Proof.
  unfold tupleInRange. simpl. split.
  - intros H. inversion H; subst. auto.
  - intros [H1 H2]. constructor; assumption.
Qed.

Lemma dot_cons i t s ss : dot (i :: t) (s :: ss) = i * s + dot t ss.
Proof. reflexivity. Qed.

(** The multi-index of a position in range lies in range and has the position
    as its row-major offset. *)
Lemma dot_unravel shape : forall p,
  Forall (fun d => 0 <= d) shape ->
  0 <= p < getNumElements shape ->
  tupleInRange shape (unravel shape p)
  /\ dot (unravel shape p) (rowMajorStrides shape) = p.
Proof.
  induction shape as [|d rest IH]; intros p Hpos Hp.
  - change (getNumElements []) with 1 in Hp. split; [constructor|].
    unfold dot. simpl. lia.
  - apply Forall_cons in Hpos as [Hd Hrest].
    change (getNumElements (d :: rest)) with (d * getNumElements rest) in Hp.
    pose proof (getNumElements_nonneg _ Hrest) as Hn.
    assert (Hinner : 0 < getNumElements rest) by nia.
    simpl unravel. simpl rowMajorStrides.
    destruct (IH (p mod getNumElements rest) Hrest
                (Z.mod_pos_bound _ _ Hinner)) as [IH1 IH2].
    split.
    + apply tupleInRange_cons. split; [|exact IH1]. split.
      * apply Z.div_pos; lia.
      * apply Z.div_lt_upper_bound; lia.
    + rewrite dot_cons, IH2.
      pose proof (Z.div_mod p (getNumElements rest)). lia.
Qed.

(** The row-major offset of a multi-index in range has that multi-index. *)
Lemma unravel_dot shape : forall tuple,
  Forall (fun d => 0 <= d) shape ->
  length tuple = length shape ->
  tupleInRange shape tuple ->
  unravel shape (dot tuple (rowMajorStrides shape)) = tuple.
Proof.
  induction shape as [|d rest IH]; intros tuple Hpos Hlen Hr.
  - destruct tuple; [reflexivity|discriminate].
  - destruct tuple as [|i t]; [discriminate|].
    apply Forall_cons in Hpos as [Hd Hrest].
    apply tupleInRange_cons in Hr as [Hi Ht].
    simpl in Hlen. injection Hlen as Hlen.
    destruct (slab_in_bounds t rest Hrest Ht ltac:(lia)) as [H0 H1].
    rewrite Hlen, drop_all in H1. change (getNumElements []) with 1 in H1.
    simpl rowMajorStrides. rewrite dot_cons. simpl unravel.
    assert (Hdiv : (i * getNumElements rest + dot t (rowMajorStrides rest))
                     / getNumElements rest = i).
    { rewrite Z.add_comm, Z.div_add by lia. rewrite Z.div_small by lia. lia. }
    assert (Hmod : (i * getNumElements rest + dot t (rowMajorStrides rest))
                     mod getNumElements rest = dot t (rowMajorStrides rest)).
    { rewrite Z.add_comm, Z.mod_add by lia. apply Z.mod_small. lia. }
    rewrite Hdiv, Hmod, (IH t Hrest Hlen Ht). reflexivity.
Qed.

(** X2: with the strides of [getStrides], [getLinearAccessIndex] is a
    bijection between the multi-indices in range of a shape and the positions
    0 .. numElements - 1: the index of the multi-index of a position is that
    position, and a multi-index in range is the multi-index of its linear
    index.  Two different multi-indices in range never share a position. *)
Theorem linear_index_round_trip (shape : Shape) :
  sizesFit shape ->
  (forall p, 0 <= p < getNumElements shape ->
     tupleInRange shape (unravel shape p)
     /\ getLinearAccessIndex (unravel shape p) (getStrides shape) = Ok p)
  /\ (forall tuple, length tuple = length shape -> tupleInRange shape tuple ->
        exists p, getLinearAccessIndex tuple (getStrides shape) = Ok p
                  /\ 0 <= p < getNumElements shape
                  /\ unravel shape p = tuple)
  /\ (forall t1 t2 p,
        length t1 = length shape -> length t2 = length shape ->
        tupleInRange shape t1 -> tupleInRange shape t2 ->
        getLinearAccessIndex t1 (getStrides shape) = Ok p ->
        getLinearAccessIndex t2 (getStrides shape) = Ok p ->
        t1 = t2).
Proof.
  intros Hfit. pose proof Hfit as [Hpos _].
  assert (Hlin : forall tuple, length tuple = length shape ->
    tupleInRange shape tuple ->
    getLinearAccessIndex tuple (getStrides shape)
      = Ok (dot tuple (rowMajorStrides shape))
    /\ 0 <= dot tuple (rowMajorStrides shape) < getNumElements shape).
  { intros tuple Hlen Hr.
    destruct (getLinearAccessIndex_exact shape tuple Hfit Hr ltac:(lia))
      as (Hrun & H0 & H1).
    rewrite Hlen, drop_all in H1. change (getNumElements []) with 1 in H1.
    rewrite getStrides_exact by exact Hfit.
    rewrite Hlen, <- (rowMajorStrides_length shape), firstn_all in Hrun.
    split; [exact Hrun|lia]. }
  split; [|split].
  - intros p Hp. destruct (dot_unravel shape p Hpos Hp) as [Hr Hdot].
    split; [exact Hr|].
    destruct (Hlin _ (unravel_length shape p) Hr) as [-> _]. rewrite Hdot.
    reflexivity.
  - intros tuple Hlen Hr. destruct (Hlin tuple Hlen Hr) as [Hrun Hb].
    eexists. split; [exact Hrun|]. split; [exact Hb|].
    apply unravel_dot; assumption.
  - intros t1 t2 p Hl1 Hl2 Hr1 Hr2 H1 H2.
    destruct (Hlin t1 Hl1 Hr1) as [E1 _]. destruct (Hlin t2 Hl2 Hr2) as [E2 _].
    rewrite E1 in H1. rewrite E2 in H2.
    rewrite <- (unravel_dot shape t1 Hpos Hl1 Hr1).
    rewrite <- (unravel_dot shape t2 Hpos Hl2 Hr2). congruence.
Qed.

(** Position 17 of a 2x3x4 tensor is the element (1, 1, 1). *)
Lemma linear_index_round_trip_witness :
  unravel [2; 3; 4] 17 = [1; 1; 1]
  /\ getLinearAccessIndex [1; 1; 1] (getStrides [2; 3; 4]) = Ok 17.
Proof.
  destruct (linear_index_round_trip [2; 3; 4]) as (H & _ & _).
  - split; [repeat constructor; lia|]. intros [|[|[|[|j]]]]; by vm_compute.
  - destruct (H 17) as [_ Hrun]; [by vm_compute|].
    split; [reflexivity|exact Hrun].
Defined.

(** ** The axes of a reduction, as the loop of the fold takes them *)

Lemma normalizeIndex_inRange rank a :
  - rank <= a < rank -> 0 <= normalizeIndex rank a < rank.
Proof. unfold normalizeIndex. destruct (Z.ltb_spec a 0); lia. Qed.

Lemma absoluteAxesStep_valid rank acc a :
  0 <= rank <= 2 ^ 32 ->
  - rank <= a < rank ->
  normalizeIndex rank a ∉ acc ->
  absoluteAxesStep rank acc a = Ok (acc ++ [normalizeIndex rank a]).
Proof.
  intros Hr Ha Hnin. unfold absoluteAxesStep.
  replace ((- rank <=? a) && (a <? rank)) with true
    by (symmetry; apply andb_true_intro; split;
        [apply Z.leb_le|apply Z.ltb_lt]; lia).
  simpl rassert. simpl rbind.
  assert (Haxis : (if a <? 0 then to_i64 (a + rank) else a) = normalizeIndex rank a).
  { unfold normalizeIndex. destruct (a <? 0); [apply to_i64_small; lia|reflexivity]. }
  rewrite Haxis. rewrite bool_decide_eq_false_2 by exact Hnin. simpl.
  rewrite to_unsigned_small by (pose proof (normalizeIndex_inRange rank a Ha); lia).
  reflexivity.
Qed.

Lemma absoluteAxes_fold_valid rank l : forall acc,
  0 <= rank <= 2 ^ 32 ->
  Forall (fun a => - rank <= a < rank) l ->
  NoDup (acc ++ map (normalizeIndex rank) l) ->
  rfold (absoluteAxesStep rank) l acc = Ok (acc ++ map (normalizeIndex rank) l).
Proof.
  induction l as [|a l IH]; intros acc Hr Hl Hnd; simpl.
  - rewrite app_nil_r. reflexivity.
  - apply Forall_cons in Hl as [Ha Hl].
    rewrite absoluteAxesStep_valid; [|exact Hr|exact Ha|].
    + simpl rbind. rewrite IH; [|exact Hr|exact Hl|].
      * rewrite <- app_assoc. reflexivity.
      * rewrite <- app_assoc. exact Hnd.
    + apply NoDup_app in Hnd as (_ & Hdisj & _).
      intros Hin. apply (Hdisj _ Hin). simpl. left.
Qed.

Lemma absoluteAxes_fold_inv rank l : forall acc abs,
  rank <= 2 ^ 32 ->
  NoDup acc ->
  rfold (absoluteAxesStep rank) l acc = Ok abs ->
  Forall (fun a => - rank <= a < rank) l
  /\ NoDup (acc ++ map (normalizeIndex rank) l)
  /\ abs = acc ++ map (normalizeIndex rank) l.
Proof.
  induction l as [|a l IH]; intros acc abs Hr Hnd H; simpl in H.
  - inversion H; subst. rewrite app_nil_r. auto.
  - apply rbind_Ok in H as (acc' & Hstep & H).
    apply (absoluteAxesStep_Ok _ _ _ _ Hr) in Hstep as (Ha & Hnin & ->).
    fold (normalizeIndex rank a) in *.
    apply (IH _ _ Hr) in H as (Hl & Hnd' & ->).
    + rewrite <- app_assoc in *. simpl in *. split; [constructor; assumption|].
      split; [exact Hnd'|reflexivity].
    + apply NoDup_app. split; [exact Hnd|]. split; [|apply NoDup_singleton].
      intros x Hx Hx'. apply list_elem_of_singleton in Hx'. subst. contradiction.
Qed.

Lemma absoluteAxesStep_cases rank acc a :
  (exists acc', absoluteAxesStep rank acc a = Ok acc')
  \/ absoluteAxesStep rank acc a = Abort "axis out of range"
  \/ absoluteAxesStep rank acc a = Abort "duplicate axis".
Proof.
  unfold absoluteAxesStep.
  destruct ((- rank <=? a) && (a <? rank)); simpl; [|auto].
  destruct (negb _); simpl; eauto.
Qed.

Lemma absoluteAxes_fold_cases rank l : forall acc,
  (exists abs, rfold (absoluteAxesStep rank) l acc = Ok abs)
  \/ rfold (absoluteAxesStep rank) l acc = Abort "axis out of range"
  \/ rfold (absoluteAxesStep rank) l acc = Abort "duplicate axis".
Proof.
  induction l as [|a l IH]; intros acc; simpl; [eauto|].
  destruct (absoluteAxesStep_cases rank acc a) as [[acc' ->]|[-> | ->]];
    simpl; auto.
Qed.

(** X3: the loop that finds [absoluteAxes] accepts a list of axes exactly when
    every axis lies in [-rank, rank) and no two of them denote the same
    dimension once the negative ones are normalised; it then yields the
    normalised axes in the order given.  Any other list stops the compiler
    on one of the two assertions ("axis out of range", "duplicate axis"):
    an axis is never clamped and a repeated axis is never dropped. *)
Theorem absolute_axes_characterised (rank : Z) (axesRange : list Z) :
  0 <= rank <= 2 ^ 32 ->
  let valid := Forall (fun a => - rank <= a < rank) axesRange
               /\ NoDup (map (normalizeIndex rank) axesRange) in
  (valid ->
   absoluteAxesOf rank axesRange = Ok (map (normalizeIndex rank) axesRange))
  /\ (forall abs, absoluteAxesOf rank axesRange = Ok abs -> valid)
  /\ (~ valid ->
      absoluteAxesOf rank axesRange = Abort "axis out of range"
      \/ absoluteAxesOf rank axesRange = Abort "duplicate axis").
Proof.
  intros Hr valid. unfold absoluteAxesOf.
  assert (Hinv : forall abs,
    rfold (absoluteAxesStep rank) axesRange [] = Ok abs -> valid).
  { intros abs H.
    apply absoluteAxes_fold_inv in H as (Hl & Hnd & _);
      [|lia|constructor].
    split; assumption. }
  split; [|split].
  - intros [Hl Hnd].
    apply (absoluteAxes_fold_valid rank axesRange [] Hr Hl Hnd).
  - exact Hinv.
  - intros Hnot.
    destruct (absoluteAxes_fold_cases rank axesRange []) as [[abs H]|H];
      [|exact H].
    exfalso. exact (Hnot (Hinv abs H)).
Qed.

(** The axes -1 and 0 of a matrix are accepted as 1 and 0; the axes 1 and -1
    are the same dimension twice. *)
Lemma absolute_axes_characterised_witness :
  absoluteAxesOf 2 [-1; 0] = Ok [1; 0]
  /\ (absoluteAxesOf 2 [1; -1] = Abort "axis out of range"
      \/ absoluteAxesOf 2 [1; -1] = Abort "duplicate axis").
Proof.
  destruct (absolute_axes_characterised 2 [-1; 0]) as (H & _ & _); [lia|].
  destruct (absolute_axes_characterised 2 [1; -1]) as (_ & _ & H'); [lia|].
  split.
  - apply H. split; [repeat constructor; lia|].
    apply (bool_decide_unpack _). by vm_compute.
  - apply H'. intros [_ Hnd]. vm_compute in Hnd.
    apply NoDup_cons in Hnd as [Hnin _]. apply Hnin. left.
Defined.

Lemma absoluteAxesStep_normalised rank acc a :
  0 <= rank <= 2 ^ 32 ->
  - rank <= a < rank ->
  absoluteAxesStep rank acc (normalizeIndex rank a) = absoluteAxesStep rank acc a.
Proof.
  intros Hr Ha. unfold normalizeIndex at 1.
  destruct (Z.ltb_spec a 0) as [Hneg|Hpos]; [|reflexivity].
  unfold absoluteAxesStep.
  replace ((- rank <=? a + rank) && (a + rank <? rank)) with true
    by (symmetry; apply andb_true_intro; split;
        [apply Z.leb_le|apply Z.ltb_lt]; lia).
  replace ((- rank <=? a) && (a <? rank)) with true
    by (symmetry; apply andb_true_intro; split;
        [apply Z.leb_le|apply Z.ltb_lt]; lia).
  destruct (Z.ltb_spec (a + rank) 0); [lia|].
  destruct (Z.ltb_spec a 0); [|lia].
  rewrite to_i64_small by lia. reflexivity.
Qed.

Lemma absoluteAxes_fold_normalised rank l : forall acc,
  0 <= rank <= 2 ^ 32 ->
  Forall (fun a => - rank <= a < rank) l ->
  rfold (absoluteAxesStep rank) (map (normalizeIndex rank) l) acc
  = rfold (absoluteAxesStep rank) l acc.
Proof.
  induction l as [|a l IH]; intros acc Hr Hl; [reflexivity|].
  apply Forall_cons in Hl as [Ha Hl]. simpl.
  rewrite absoluteAxesStep_normalised by assumption.
  destruct (absoluteAxesStep rank acc a); simpl; try reflexivity.
  apply IH; assumption.
Qed.

(** X4: the two surface forms of a reduction agree, and so do a negative axis
    and its non-negative counterpart.  The fold with the axes as a constant
    operand is the fold with the same integers as an attribute; the none
    operand, the absent attribute and the empty attribute all give the fold
    with no axes; and for axes in [-rank, rank) the fold is the one of the
    normalised axes (the axis -1 of a matrix is its axis 1). *)
Theorem reduce_surface_forms_agree (reduceOp : ReduceOp)
    (replacingValue dataValue axesValue : Value) (st : PassState)
    (data : ElementsAttr) :
  let rank := Z.of_nat (length (e_shape data)) in
  v_def dataValue = DefConstant (Some data) ->
  rank <= 2 ^ 32 ->
  (forall axes, v_def axesValue = DefConstant (Some axes) ->
     ConstPropReduce reduceOp replacingValue dataValue axesValue st
     = ConstPropReduceAttr reduceOp replacingValue dataValue (Some (e_int64s axes)) st)
  /\ (isFromNone axesValue = true ->
      ConstPropReduce reduceOp replacingValue dataValue axesValue st
      = ConstPropReduceAttr reduceOp replacingValue dataValue None st)
  /\ ConstPropReduceAttr reduceOp replacingValue dataValue (Some []) st
     = ConstPropReduceAttr reduceOp replacingValue dataValue None st
  /\ (forall axesRange, Forall (fun a => - rank <= a < rank) axesRange ->
        ConstPropReduceAxesRange reduceOp replacingValue dataValue
          (map (normalizeIndex rank) axesRange) st
        = ConstPropReduceAxesRange reduceOp replacingValue dataValue axesRange st).
Proof.
  intros rank Hd Hr. split; [|split; [|split]].
  - intros axes Ha. unfold ConstPropReduce, isFromNone. rewrite Ha.
    unfold mbind, lift, getConstValueElements. rewrite Ha. reflexivity.
  - intros Hnone. unfold ConstPropReduce. rewrite Hnone. reflexivity.
  - reflexivity.
  - intros axesRange Hl. unfold ConstPropReduceAxesRange, mbind.
    destruct (Counters.count "Reduce" [dataValue] st) as [[u s1]| |];
      [|reflexivity|reflexivity].
    unfold getConstValueElements. rewrite Hd. cbv zeta. simpl lift at 1. simpl lift at 4.
    cbv beta iota. fold rank. unfold absoluteAxesOf.
    rewrite absoluteAxes_fold_normalised by (try assumption; unfold rank; lia).
    reflexivity.
Qed.

(** ReduceSum of [[1,2,3],[4,5,6]] over the axis -1 is the one over axis 1. *)
Lemma reduce_surface_forms_agree_witness :
  ConstPropReduceAxesRange (ReduceWith ONNXAddOp) (rowReduceResult "onnx.ReduceSum")
    matrixData [1] initialState
  = ConstPropReduceAxesRange (ReduceWith ONNXAddOp) (rowReduceResult "onnx.ReduceSum")
      matrixData [-1] initialState.
Proof.
  destruct (reduce_surface_forms_agree (ReduceWith ONNXAddOp)
              (rowReduceResult "onnx.ReduceSum") matrixData axisOne initialState
              matrixElements) as (_ & _ & _ & H).
  - reflexivity.
  - by vm_compute.
  - apply (H [-1]). repeat constructor; by vm_compute.
Defined.

(** X5: a reduction of a rank-0 tensor never computes anything.  Without
    axes it is a no-op for every reduction and every value of
    noop_with_empty_axes and keepdims, because there is no dimension to put
    into the axes; with any axis at all the assertion "axis out of range"
    stops the compiler. *)
Theorem reduce_of_scalar (reduceOp : ReduceOp) (replacingValue dataValue : Value)
    (st : PassState) (data : ElementsAttr) (attrs : gmap string Attribute) :
  v_def dataValue = DefConstant (Some data) ->
  isShaped dataValue ->
  getDefiningOp replacingValue = Ok attrs ->
  e_shape data = [] ->
  (exists c st',
     ConstPropReduceAxesRange reduceOp replacingValue dataValue [] st
       = Ok (getResult c, st')
     /\ created st' = created st ++ [c]
     /\ c_value c = data
     /\ c_type c = v_type replacingValue)
  /\ (forall a axesRange,
        ConstPropReduceAxesRange reduceOp replacingValue dataValue (a :: axesRange) st
        = Abort "axis out of range").
Proof.
  intros Hd Hs Hop Hshape. split.
  - rewrite (reduce_fold_prefix _ _ _ [] _ _ _ [] Hd Hs Hop) by reflexivity.
    rewrite Hshape. cbv zeta.
    assert (Heff : effectiveAxes attrs (Z.of_nat (length (@nil Z))) [] = []).
    { unfold effectiveAxes. destruct (_ && _); reflexivity. }
    rewrite Heff. rewrite bool_decide_eq_true_2 by reflexivity.
    eexists _, _. split; [apply replaceWith_run|]. simpl. auto.
  - intros a axesRange. unfold ConstPropReduceAxesRange.
    unfold mbind at 1. rewrite count_shaped by (constructor; [exact Hs|constructor]).
    unfold mbind at 1. rewrite Hop. simpl lift at 1. cbv beta iota.
    unfold mbind at 1. unfold getConstValueElements. rewrite Hd. simpl lift at 1.
    cbv beta iota. rewrite Hshape.
    unfold mbind at 1. unfold absoluteAxesOf. simpl rfold.
    unfold absoluteAxesStep at 1.
    assert (Hf : (- 0 <=? a) && (a <? 0) = false).
    { apply andb_false_iff.
      destruct (Z.leb_spec 0 a); [right; apply Z.ltb_ge; lia|left; apply Z.leb_gt; lia]. }
    change (Z.of_nat (length (@nil Z))) with 0. change (Z.of_nat 0) with 0.
    rewrite Hf. reflexivity.
Qed.

(** ReduceMin of a scalar: the scalar itself without axes, an abort with the
    axis 0. *)
Lemma reduce_of_scalar_witness :
  (exists c st',
     ConstPropReduceAxesRange (ReduceWith ONNXMinOp)
       (reduceResult "onnx.ReduceMin" ∅ (RankedTensorType [] I64)) scalarData []
       initialState = Ok (getResult c, st')
     /\ c_value c = scalarElements)
  /\ ConstPropReduceAxesRange (ReduceWith ONNXMinOp)
       (reduceResult "onnx.ReduceMin" ∅ (RankedTensorType [] I64)) scalarData [0]
       initialState = Abort "axis out of range".
Proof.
  destruct (reduce_of_scalar (ReduceWith ONNXMinOp)
              (reduceResult "onnx.ReduceMin" ∅ (RankedTensorType [] I64))
              scalarData initialState scalarElements ∅)
    as ((c & st' & Hrun & _ & Hval & _) & Habort).
  - reflexivity.
  - exists [], I64. reflexivity.
  - reflexivity.
  - reflexivity.
  - split; [exists c, st'; auto|apply Habort].
Defined.

(** ** What a fold changes of the pass state *)

Lemma count_state name operands st u st' :
  Counters.count name operands st = Ok (u, st') ->
  exists m, st' = mkState m (created st) (replaced st) (diagnostics st)
                    (outs st) (passFailed st).
Proof.
  unfold Counters.count. intros H.
  apply rbind_Ok in H as (m & _ & H). inversion H; subst. eexists. reflexivity.
Qed.

Lemma create_state replacingValue elements st c st' :
  createReplacingConstantOp replacingValue elements st = Ok (c, st') ->
  st' = mkState (counters st) (created st ++ [c]) (replaced st) (diagnostics st)
          (outs st) (passFailed st).
Proof. unfold createReplacingConstantOp. intros H. inversion H; subst. reflexivity. Qed.

Lemma replaceOp_state op vs st u st' :
  replaceOp op vs st = Ok (u, st') ->
  st' = mkState (counters st) (created st) (replaced st ++ [(op, vs)])
          (diagnostics st) (outs st) (passFailed st).
Proof. unfold replaceOp. intros H. inversion H; subst. reflexivity. Qed.

Lemma emitError_state loc msg st u st' :
  emitError loc msg st = Ok (u, st') ->
  st' = mkState (counters st) (created st) (replaced st)
          (diagnostics st ++ [(loc, msg)]) (outs st) (passFailed st).
Proof. unfold emitError. intros H. inversion H; subst. reflexivity. Qed.

(** Symbolic execution that keeps the whole state. *)
Ltac state_step :=
  match goal with
  | H : mbind _ _ _ = Ok (_, _) |- _ =>
      let a := fresh "a" in let s := fresh "s" in let H1 := fresh "Hrun" in
      apply mbind_Ok in H as (a & s & H1 & H)
  | H : ofValue _ _ = Ok (_, _) |- _ => unfold ofValue in H
  | H : ofLogicalResult _ _ = Ok (_, _) |- _ => unfold ofLogicalResult in H
  | H : replaceWith _ _ _ = Ok (_, _) |- _ => unfold replaceWith in H
  | H : lift _ _ = Ok (_, _) |- _ => apply lift_Ok in H as [_ ?]; subst
  | H : mret _ _ = Ok (_, _) |- _ => apply mret_Ok in H as [? ?]; subst
  | H : createReplacingConstantOp _ _ _ = Ok (_, _) |- _ =>
      apply create_state in H; subst
  | H : replaceOp _ _ _ = Ok (_, _) |- _ => apply replaceOp_state in H; subst
  | H : emitError _ _ _ = Ok (_, _) |- _ => apply emitError_state in H; subst
  | H : Counters.count _ _ _ = Ok (_, _) |- _ =>
      apply count_state in H as [? ?]; subst
  | H : (if ?c then _ else _) _ = Ok (_, _) |- _ => destruct c eqn:?
  | H : match ?x with _ => _ end _ = Ok (_, _) |- _ => destruct x eqn:?
  end.

Ltac state_all := repeat state_step.

Lemma createSplitResults_state splitOp resElements n : forall i st vs st',
  createSplitResults splitOp resElements i n st = Ok (vs, st') ->
  exists cs,
    vs = map getResult cs
    /\ st' = mkState (counters st) (created st ++ cs) (replaced st)
               (diagnostics st) (outs st) (passFailed st).
Proof.
  induction n as [|n IH]; intros i st vs st' H; simpl in H.
  - state_all. exists []. rewrite app_nil_r. destruct st. auto.
  - apply mbind_Ok in H as (r & s1 & Hr & H). apply lift_Ok in Hr as [_ ->].
    apply mbind_Ok in H as (e & s2 & He & H). apply lift_Ok in He as [_ ->].
    apply mbind_Ok in H as (c & s3 & Hc & H). apply create_state in Hc. subst s3.
    apply mbind_Ok in H as (rest & s4 & Hrest & H). apply mret_Ok in H as [-> ->].
    apply IH in Hrest as (cs & -> & ->). simpl.
    exists (c :: cs). rewrite <- app_assoc. auto.
Qed.

Lemma splitCommon_state splitOp splitAttr st r st' :
  ConstPropSplitPatternCommon splitOp splitAttr st = Ok (r, st') ->
  match r with
  | failure => st' = st
  | success =>
      exists m cs,
        st' = mkState m (created st ++ cs)
                (replaced st ++ [(split_loc splitOp, map getResult cs)])
                (diagnostics st) (outs st) (passFailed st)
  end.
Proof.
  unfold ConstPropSplitPatternCommon. intros H.
  destruct (negb (isDenseONNXConstant (split_input splitOp))).
  - apply mret_Ok in H as [-> ->]. reflexivity.
  - apply mbind_Ok in H as (u & s0 & Hc & H). apply count_state in Hc as [m ->].
    apply mbind_Ok in H as (a1 & s1 & H1 & H). apply lift_Ok in H1 as [_ ->].
    apply mbind_Ok in H as (a2 & s2 & H2 & H). apply lift_Ok in H2 as [_ ->].
    apply mbind_Ok in H as (a3 & s3 & H3 & H). apply lift_Ok in H3 as [_ ->].
    apply mbind_Ok in H as (a4 & s4 & H4 & H). apply lift_Ok in H4 as [_ ->].
    apply mbind_Ok in H as (a5 & s5 & H5 & H). apply lift_Ok in H5 as [_ ->].
    apply mbind_Ok in H as (vs & s6 & H6 & H).
    apply createSplitResults_state in H6 as (cs & -> & ->).
    apply mbind_Ok in H as (u7 & s7 & H7 & H). apply replaceOp_state in H7. subst s7.
    apply mret_Ok in H as [-> ->]. simpl. eauto.
Qed.

Lemma scatter_state op st r st' :
  ConstPropScatterNDPattern op st = Ok (r, st') ->
  match r with
  | failure => st' = st
  | success =>
      exists m c,
        st' = mkState m (created st ++ [c])
                (replaced st ++ [(scatter_loc op, [getResult c])])
                (diagnostics st) (outs st) (passFailed st)
  end.
Proof.
  unfold ConstPropScatterNDPattern. intros H.
  repeat match type of H with
         | (if ?c then _ else _) _ = _ =>
             destruct c; [apply mret_Ok in H as [-> ->]; reflexivity|]
         end.
  apply mbind_Ok in H as (u & s0 & Hc & H). apply count_state in Hc as [m ->].
  apply mbind_Ok in H as (a1 & s1 & H1 & H). apply lift_Ok in H1 as [_ ->].
  apply mbind_Ok in H as (a2 & s2 & H2 & H). apply lift_Ok in H2 as [_ ->].
  apply mbind_Ok in H as (a3 & s3 & H3 & H). apply lift_Ok in H3 as [_ ->].
  apply mbind_Ok in H as (a4 & s4 & H4 & H). apply lift_Ok in H4 as [_ ->].
  apply mbind_Ok in H as (c & s5 & H5 & H). apply create_state in H5. subst s5.
  apply mbind_Ok in H as (u6 & s6 & H6 & H). apply replaceOp_state in H6. subst s6.
  apply mret_Ok in H as [-> ->]. simpl. eauto.
Qed.

(** X6: what a fold leaves alone.  No fold writes to the output stream or
    marks the pass as failed.  A pattern that does not match leaves the whole
    state as it was, counters included.  A fold that succeeds emits no
    diagnostic and only appends the constants it creates; the function folds
    replace nothing themselves, and a hand-written pattern (Split, ScatterND)
    replaces its op once, by exactly the results of the constants it
    created, in order.  The only fold that can give up, Slice, then creates
    and replaces nothing and emits one diagnostic. *)
Theorem fold_frame (f : Fold) (st : PassState) (o : FoldOutcome) (st' : PassState) :
  runFold f st = Ok (o, st') ->
  outs st' = outs st
  /\ passFailed st' = passFailed st
  /\ match o with
     | NoMatch => st' = st
     | FoldFailed =>
         created st' = created st /\ replaced st' = replaced st
         /\ exists d, diagnostics st' = diagnostics st ++ [d]
     | Folded =>
         diagnostics st' = diagnostics st
         /\ exists cs,
              created st' = created st ++ cs
              /\ replaced st'
                 = replaced st ++ match replacedBy f with
                                  | Some loc => [(loc, map getResult cs)]
                                  | None => []
                                  end
     end.
Proof.
  assert (Hvalue : forall (m : M Value) (rb : option Loc),
    rb = None ->
    (forall v s, m st = Ok (v, s) ->
       exists mp c, s = mkState mp (created st ++ [c]) (replaced st)
                          (diagnostics st) (outs st) (passFailed st)) ->
    ofValue m st = Ok (o, st') ->
    outs st' = outs st /\ passFailed st' = passFailed st
    /\ match o with
       | NoMatch => st' = st
       | FoldFailed =>
           created st' = created st /\ replaced st' = replaced st
           /\ exists d, diagnostics st' = diagnostics st ++ [d]
       | Folded =>
           diagnostics st' = diagnostics st
           /\ exists cs,
                created st' = created st ++ cs
                /\ replaced st'
                   = replaced st ++ match rb with
                                    | Some loc => [(loc, map getResult cs)]
                                    | None => []
                                    end
       end).
  { intros m rb -> Hm H. unfold ofValue in H.
    apply mbind_Ok in H as (v & s & Hrun & H). apply mret_Ok in H as [-> ->].
    destruct (Hm v s Hrun) as (mp & c & ->). simpl.
    split; [reflexivity|]. split; [reflexivity|]. split; [reflexivity|].
    exists [c]. rewrite app_nil_r. auto. }
  assert (Hlogical : forall (m : M LogicalResult) loc,
    (forall r s, m st = Ok (r, s) ->
       match r with
       | failure => s = st
       | success =>
           exists mp cs,
             s = mkState mp (created st ++ cs)
                   (replaced st ++ [(loc, map getResult cs)])
                   (diagnostics st) (outs st) (passFailed st)
       end) ->
    ofLogicalResult m st = Ok (o, st') ->
    outs st' = outs st /\ passFailed st' = passFailed st
    /\ match o with
       | NoMatch => st' = st
       | FoldFailed =>
           created st' = created st /\ replaced st' = replaced st
           /\ exists d, diagnostics st' = diagnostics st ++ [d]
       | Folded =>
           diagnostics st' = diagnostics st
           /\ exists cs,
                created st' = created st ++ cs
                /\ replaced st' = replaced st ++ [(loc, map getResult cs)]
       end).
  { intros m loc Hm H. unfold ofLogicalResult in H.
    apply mbind_Ok in H as (r & s & Hrun & H). apply mret_Ok in H as [-> ->].
    specialize (Hm r s Hrun). destruct r.
    - destruct Hm as (mp & cs & ->). simpl. eauto 10.
    - subst s. auto. }
  intros H. destruct f; simpl in H; simpl replacedBy.
  - apply (Hvalue _ None eq_refl) in H; [exact H|].
    intros v s Hrun. unfold ConstPropElementwiseBinary in Hrun. state_all. eauto.
  - apply (Hvalue _ None eq_refl) in H; [exact H|].
    intros v s Hrun. unfold ConstPropElementwiseUnary in Hrun. state_all. eauto.
  - apply (Hvalue _ None eq_refl) in H; [exact H|].
    intros v s Hrun. unfold ConstPropWhere in Hrun. state_all. eauto.
  - apply (Hvalue _ None eq_refl) in H; [exact H|].
    intros v s Hrun. unfold ConstPropReduce, ConstPropReduceAxesRange in Hrun.
    state_all; eauto.
  - apply (Hvalue _ None eq_refl) in H; [exact H|].
    intros v s Hrun. unfold ConstPropReduceAttr, ConstPropReduceAxesRange in Hrun.
    destruct axesArray; state_all; eauto.
  - apply (Hvalue _ None eq_refl) in H; [exact H|].
    intros v s Hrun. unfold ConstPropTranspose in Hrun. state_all. eauto.
  - apply (Hvalue _ None eq_refl) in H; [exact H|].
    intros v s Hrun. unfold ConstPropUnsqueeze in Hrun. state_all. eauto.
  - apply (Hvalue _ None eq_refl) in H; [exact H|].
    intros v s Hrun. unfold ConstPropSqueeze in Hrun. state_all. eauto.
  - apply (Hlogical _ (split_loc splitOp)) in H; [exact H|].
    intros r s Hrun. unfold ConstPropSplitPattern in Hrun.
    destruct (getONNXConstantOp split0).
    + apply mbind_Ok in Hrun as (a & s0 & Hl & Hrun).
      apply lift_Ok in Hl as [_ ->].
      exact (splitCommon_state _ _ _ _ _ Hrun).
    + destruct (negb _).
      * unfold lift in Hrun. discriminate.
      * exact (splitCommon_state _ _ _ _ _ Hrun).
  - apply (Hlogical _ (split_loc splitOp)) in H; [exact H|].
    intros r s Hrun. exact (splitCommon_state _ _ _ _ _ Hrun).
  - apply (Hlogical _ (scatter_loc scatterNdOp)) in H; [exact H|].
    intros r s Hrun. apply scatter_state in Hrun. destruct r; [|exact Hrun].
    destruct Hrun as (mp & c & ->). exists mp, [c]. reflexivity.
  - apply (Hvalue _ None eq_refl) in H; [exact H|].
    intros v s Hrun. unfold ConstPropCast in Hrun. state_all. eauto.
  - unfold ConstPropSlice in H.
    apply mbind_Ok in H as (v & s & Hrun & H). apply mret_Ok in H as [-> ->].
    state_all; simpl.
    + split; [reflexivity|]. split; [reflexivity|]. split; [reflexivity|].
      eexists [_]. rewrite app_nil_r. split; reflexivity.
    + split; [reflexivity|]. split; [reflexivity|]. split; [reflexivity|].
      split; [reflexivity|]. eexists. reflexivity.
  - apply (Hvalue _ None eq_refl) in H; [exact H|].
    intros v s Hrun. unfold ConstPropConcat in Hrun. state_all; eauto.
  - apply (Hvalue _ None eq_refl) in H; [exact H|].
    intros v s Hrun. unfold ConstPropExpand in Hrun. state_all. eauto.
  - apply (Hvalue _ None eq_refl) in H; [exact H|].
    intros v s Hrun. unfold ConstPropGather in Hrun. state_all; eauto.
  - apply (Hvalue _ None eq_refl) in H; [exact H|].
    intros v s Hrun. unfold ConstPropReshape in Hrun. state_all. eauto.
Qed.

(** The fold of a ScatterND: one constant, one replacement, nothing written and
    no diagnostic. *)
Lemma fold_frame_witness :
  exists st',
    runFold (FoldScatterND collidingScatterOp) initialState = Ok (Folded, st')
    /\ outs st' = "" /\ passFailed st' = false /\ diagnostics st' = []
    /\ exists cs, created st' = cs
                  /\ replaced st' = [(scatter_loc collidingScatterOp, map getResult cs)].
Proof.
  assert (Hrun : runFold (FoldScatterND collidingScatterOp) initialState
                 = Ok (Folded, ltac:(
                     let r := eval vm_compute in
                       (runFold (FoldScatterND collidingScatterOp) initialState) in
                     match r with Ok (_, ?s) => exact s end)))
    by (vm_compute; reflexivity).
  destruct (fold_frame _ _ _ _ Hrun) as (Ho & Hp & Hd & cs & Hcr & Hrep).
  eexists. split; [exact Hrun|].
  split; [exact Ho|]. split; [exact Hp|]. split; [exact Hd|].
  exists cs. split; [exact Hcr|exact Hrep].
Defined.

(** ** The counters do not depend on the order of the folds *)

Lemma add_elms_fold_value operands : forall c,
  fold_left (fun c v => Counters.add_elms c (elementsOf v)) operands c
  = mkCounters (invocations c)
      (match operands with
       | [] => input_elms c
       | _ => to_size_t (input_elms c + totalElements operands)
       end).
Proof.
  induction operands as [|v ops IH]; intros c; [destruct c; reflexivity|].
  simpl fold_left. rewrite IH. simpl. f_equal.
  destruct ops as [|w ops].
  - unfold totalElements. simpl. f_equal. lia.
  - rewrite to_size_t_add_l. f_equal. unfold totalElements. simpl. lia.
Qed.

Lemma count_map_cases name operands m :
  Counters.count_map name operands m = Ok (counted name operands m)
  \/ Counters.count_map name operands m
     = Abort "cast<Ty>() argument of incompatible type!".
Proof.
  unfold Counters.count_map, counted.
  generalize (Counters.add_invocation (Counters.entry name m)) as c.
  induction operands as [|v ops IH]; intros c; [left; reflexivity|].
  simpl rfold. simpl fold_left. unfold getNumberOfElements at 1 3.
  destruct (v_type v) as [s t| |] eqn:Hv; simpl rbind;
    [|right; reflexivity|right; reflexivity].
  replace (elementsOf v) with (getNumElements s)
    by (unfold elementsOf; rewrite Hv; reflexivity).
  apply IH.
Qed.

Lemma count_map_abort_any name operands m m' :
  Counters.count_map name operands m
    = Abort "cast<Ty>() argument of incompatible type!" ->
  Counters.count_map name operands m'
    = Abort "cast<Ty>() argument of incompatible type!".
Proof.
  intros H. destruct (count_map_cases name operands m') as [E|E]; [|exact E].
  apply count_map_Ok_inv in E as [_ Hs].
  rewrite (count_map_shaped _ _ _ Hs) in H. discriminate.
Qed.

Lemma entry_insert name c m : Counters.entry name (<[name := c]> m) = c.
Proof. unfold Counters.entry. rewrite lookup_insert_eq. reflexivity. Qed.

Lemma entry_insert_ne name other c m :
  name <> other -> Counters.entry other (<[name := c]> m) = Counters.entry other m.
Proof. intros H. unfold Counters.entry. rewrite lookup_insert_ne by exact H. reflexivity. Qed.

Lemma counted_commute n1 o1 n2 o2 m :
  counted n1 o1 (counted n2 o2 m) = counted n2 o2 (counted n1 o1 m).
Proof.
  unfold counted. rewrite !add_elms_fold_value.
  destruct (decide (n1 = n2)) as [->|Hne].
  - rewrite !entry_insert, !insert_insert_eq. f_equal. simpl. f_equal.
    destruct o1 as [|v1 o1], o2 as [|v2 o2]; try reflexivity.
    rewrite !to_size_t_add_l. f_equal. lia.
  - rewrite !entry_insert_ne by congruence.
    apply insert_insert_ne. exact Hne.
Qed.

(** X7: the counter map does not depend on the order in which two folds are
    counted, whatever their names and operands: the two updates commute, for
    different names because they touch different entries and for the same
    name because the additions in [size_t] commute.  An operand that is not
    shaped stops either order on the same assertion. *)
Theorem count_order_independent (n1 n2 : string) (o1 o2 : list Value)
    (st : PassState) :
  mbind (Counters.count n1 o1) (fun _ => Counters.count n2 o2) st
  = mbind (Counters.count n2 o2) (fun _ => Counters.count n1 o1) st.
Proof.
  unfold mbind, Counters.count. destruct st as [m cr rp dg ou pf]. simpl.
  destruct (count_map_cases n1 o1 m) as [E1|E1],
           (count_map_cases n2 o2 m) as [E2|E2]; rewrite E1, E2; simpl.
  - apply count_map_Ok_inv in E1 as [_ Hs1]. apply count_map_Ok_inv in E2 as [_ Hs2].
    rewrite (count_map_shaped n2 o2 _ Hs2), (count_map_shaped n1 o1 _ Hs1).
    simpl. rewrite counted_commute. reflexivity.
  - rewrite (count_map_abort_any _ _ _ (counted n1 o1 m) E2). reflexivity.
  - rewrite (count_map_abort_any _ _ _ (counted n2 o2 m) E1). reflexivity.
  - reflexivity.
Qed.

(** ** The sizes of a Split, as the fold reads them *)

Lemma rmap_app {A B} (f : A -> Result B) (l1 l2 : list A) :
  rmap f (l1 ++ l2)
  = rbind (rmap f l1) (fun b1 => rbind (rmap f l2) (fun b2 => Ok (b1 ++ b2))).
Proof.
  induction l1 as [|a l1 IH]; simpl.
  - destruct (rmap f l2); reflexivity.
  - destruct (f a); simpl; try reflexivity. rewrite IH.
    destruct (rmap f l1); simpl; try reflexivity.
    destruct (rmap f l2); reflexivity.
Qed.

Lemma rmap_at_front {A} (suf : list A) : forall pre extra,
  rmap (fun i => at_ (pre ++ suf ++ extra) i)
    (seqZ (Z.of_nat (length pre)) (Z.of_nat (length suf)))
  = Ok suf.
Proof.
  induction suf as [|a suf IH]; intros pre extra; [reflexivity|].
  rewrite seqZ_cons by (simpl; lia). simpl rmap.
  unfold at_ at 1. destruct (Z.ltb_spec (Z.of_nat (length pre)) 0); [lia|].
  rewrite Nat2Z.id.
  change (pre ++ (a :: suf) ++ extra) with (pre ++ a :: (suf ++ extra)).
  rewrite list_lookup_middle by reflexivity. simpl rbind.
  replace (Z.succ (Z.of_nat (length pre))) with (Z.of_nat (length (pre ++ [a])))
    by (rewrite length_app; simpl; lia).
  replace (Z.pred (Z.of_nat (S (length suf)))) with (Z.of_nat (length suf)) by lia.
  replace (pre ++ a :: suf ++ extra) with ((pre ++ [a]) ++ suf ++ extra)
    by (rewrite <- app_assoc; reflexivity).
  rewrite IH. reflexivity.
Qed.

(** X9: how the fold reads explicit split sizes.  It takes the first
    [numResults] entries of the list and ignores any further entry; a list
    with fewer entries than the op has results stops the compiler on the
    bounds assertion of the array; and the entries taken are accepted exactly
    when their sum, added up in an [int], equals the extent of the split
    axis: otherwise the assertion "split values must sum to axis size"
    stops the compiler. *)
Theorem split_sizes_read (numResults splitAxisSize : Z) (sizes extra : list Z) :
  0 < numResults ->
  Z.of_nat (length sizes) = numResults ->
  splitSizesOf numResults splitAxisSize (Some (sizes ++ extra))
    = (if splitAxisSize =? accumulate_int sizes then Ok sizes
       else Abort "split values must sum to axis size")
  /\ (forall short, (length short < length sizes)%nat ->
        splitSizesOf numResults splitAxisSize (Some short) = Abort "Invalid index!").
Proof.
  intros Hn Hlen. split.
  - unfold splitSizesOf. destruct (Z.eqb_spec numResults 0) as [|_]; [lia|].
    rewrite <- Hlen.
    pose proof (rmap_at_front sizes [] extra) as Hat.
    change (rmap (fun i => at_ (sizes ++ extra) i)
              (seqZ 0 (Z.of_nat (length sizes))) = Ok sizes) in Hat.
    rewrite Hat. simpl rbind.
    destruct (splitAxisSize =? accumulate_int sizes); reflexivity.
  - intros short Hshort. unfold splitSizesOf.
    destruct (Z.eqb_spec numResults 0) as [|_]; [lia|].
    replace numResults
      with (Z.of_nat (length short) + Z.of_nat (length sizes - length short)) by lia.
    rewrite seqZ_app by lia. rewrite rmap_app.
    pose proof (rmap_at_front short [] []) as Hat.
    rewrite app_nil_r in Hat.
    change (rmap (fun i => at_ short i) (seqZ 0 (Z.of_nat (length short))) = Ok short)
      in Hat.
    rewrite Hat. simpl rbind at 1.
    rewrite seqZ_cons by lia. simpl rmap.
    unfold at_ at 1. rewrite Z.add_0_l.
    destruct (Z.ltb_spec (Z.of_nat (length short)) 0); [lia|].
    rewrite Nat2Z.id, lookup_ge_None_2 by lia. reflexivity.
Qed.

(** Two results: the sizes [1, 3, 9] are read as [1, 3], and [4] alone is too
    short. *)
Lemma split_sizes_read_witness :
  splitSizesOf 2 4 (Some [1; 3; 9]) = Ok [1; 3]
  /\ splitSizesOf 2 4 (Some [4]) = Abort "Invalid index!".
Proof.
  destruct (split_sizes_read 2 4 [1; 3] [9]) as [H1 H2]; [lia|reflexivity|].
  split; [exact H1|]. apply H2. simpl. lia.
Defined.

(** ** Gather along an axis of extent zero *)

(** X10: a Gather along an axis of extent zero divides by zero.  The length
    of a slab is computed as [inputStride / axisSize] before any index is
    looked at, so the behaviour is undefined whatever the indices are, also
    when there is no index at all. *)
Theorem gather_empty_axis (outputShape : Shape) (inputElements indicesElements : ElementsAttr)
    (axis : Z) (outputData : list WideNum) :
  0 <= axis < 2 ^ 63 ->
  e_shape inputElements !! Z.to_nat axis = Some 0 ->
  ConstPropGatherImpl outputShape inputElements indicesElements axis outputData
  = Undefined.
Proof.
  intros Haxis Hs. unfold ConstPropGatherImpl.
  assert (Hax : to_size_t axis = axis)
    by (unfold to_size_t, wrap_u; apply Z.mod_small; lia).
  rewrite Hax. unfold at_. destruct (Z.ltb_spec axis 0); [lia|].
  rewrite Hs. simpl rbind. unfold drop_front.
  assert (Hlt : (Z.to_nat axis < length (e_shape inputElements))%nat)
    by (eapply lookup_lt_Some; exact Hs).
  replace ((0 <=? axis) && (axis <=? Z.of_nat (length (e_shape inputElements))))
    with true
    by (symmetry; apply andb_true_intro; split; apply Z.leb_le; lia).
  reflexivity.
Qed.

(** A tensor<0x3xi64> gathered along axis 0 with no index. *)
Lemma gather_empty_axis_witness :
  ConstPropGatherImpl [0; 3] (mkElements [0; 3] I64 (Dense []))
    (mkElements [0] I64 (Dense [])) 0 []
  = Undefined.
Proof.
  apply (gather_empty_axis [0; 3] (mkElements [0; 3] I64 (Dense []))
           (mkElements [0] I64 (Dense [])) 0 []).
  - lia.
  - reflexivity.
Defined.

(** ** Slice *)

Lemma to_size_t_add_both x y : to_size_t (to_size_t x + to_size_t y) = to_size_t (x + y).
Proof. unfold to_size_t, wrap_u. symmetry. apply Zplus_mod. Qed.

Lemma to_size_t_add_r x y : to_size_t (x + to_size_t y) = to_size_t (x + y).
Proof. unfold to_size_t, wrap_u. apply Zplus_mod_idemp_r. Qed.

Lemma tupleInRange_full shape idx :
  Forall (fun d => 0 <= d) shape ->
  length idx = length shape ->
  tupleInRange shape idx ->
  0 <= dot idx (rowMajorStrides shape) < getNumElements shape.
Proof.
  intros Hpos Hlen Hr.
  destruct (slab_in_bounds idx shape Hpos Hr ltac:(lia)) as [H0 H1].
  rewrite Hlen, drop_all in H1. change (getNumElements []) with 1 in H1. lia.
Qed.

Lemma dot_nil_l s : dot [] s = 0.
Proof. reflexivity. Qed.

(** The recursive traversal writes, at the row-major position of every
    multi-index of the remaining dimensions, the element that lies that many
    steps from the source position, and nothing else. *)
Lemma traverse_spec (input : list WideNum) :
  Z.of_nat (length input) < 2 ^ 64 ->
  forall (sizes trueSteps : list Z) (P D : Z) (out : list WideNum),
  length trueSteps = length sizes ->
  Forall (fun d => 0 <= d) sizes ->
  0 <= D ->
  D + getNumElements sizes <= Z.of_nat (length out) ->
  Z.of_nat (length out) < 2 ^ 64 ->
  (forall idx, length idx = length sizes -> tupleInRange sizes idx ->
     0 <= P + dot idx trueSteps < Z.of_nat (length input)) ->
  exists out',
    traverse (zip (zip (map to_size_t trueSteps) (rowMajorStrides sizes)) sizes)
      input (to_size_t P) D out = Ok out'
    /\ length out' = length out
    /\ (forall q : nat, Z.of_nat q < D \/ D + getNumElements sizes <= Z.of_nat q ->
          out' !! q = out !! q)
    /\ (forall idx, length idx = length sizes -> tupleInRange sizes idx ->
          out' !! Z.to_nat (D + dot idx (rowMajorStrides sizes))
          = input !! Z.to_nat (P + dot idx trueSteps)).
Proof.
  intros Hin. induction sizes as [|n rest IH]; intros trueSteps P D out Hlen Hpos HD HDN Hout Hreads.
  - destruct trueSteps; [|discriminate]. simpl zip. simpl traverse.
    change (getNumElements []) with 1 in *.
    pose proof (Hreads [] eq_refl ltac:(constructor)) as HP.
    rewrite dot_nil_l, Z.add_0_r in HP.
    rewrite (to_size_t_small P) by lia.
    unfold at_. destruct (Z.ltb_spec P 0); [lia|]. destruct (Z.ltb_spec D 0); [lia|].
    destruct (lookup_lt_is_Some_2 input (Z.to_nat P)) as [v Hv]; [lia|].
    destruct (lookup_lt_is_Some_2 out (Z.to_nat D)) as [w Hw]; [lia|].
    rewrite Hv, Hw. simpl rbind. eexists. split; [reflexivity|].
    split; [apply length_insert|]. split.
    + intros q Hq. apply list_lookup_insert_ne. lia.
    + intros idx Hl _. destruct idx; [|discriminate].
      rewrite !dot_nil_l, !Z.add_0_r, Hv.
      apply list_lookup_insert_eq. lia.
  - destruct trueSteps as [|a steps]; [discriminate|].
    simpl in Hlen. injection Hlen as Hlen.
    apply Forall_cons in Hpos as [Hn Hrest].
    change (getNumElements (n :: rest)) with (n * getNumElements rest) in *.
    pose proof (getNumElements_nonneg _ Hrest) as HN'.
    set (N' := getNumElements rest) in *.
    simpl map. simpl rowMajorStrides. fold N'. simpl zip.
    set (dims' := zip (zip (map to_size_t steps) (rowMajorStrides rest)) rest).
    cbn [traverse]. fold dims'.
    set (loop := fix loop (n0 : nat) (srcPos dstPos : Z) (outputData : list WideNum)
                   {struct n0} : Result (list WideNum) :=
           match n0 with
           | O => Ok outputData
           | S n' =>
               rbind (traverse dims' input srcPos dstPos outputData) (fun outputData' =>
               loop n' (to_size_t (srcPos + to_size_t a)) (to_size_t (dstPos + N'))
                 outputData')
           end).
    assert (Hloop : forall (m i : nat) (out_i : list WideNum),
      (i + m)%nat = Z.to_nat n ->
      length out_i = length out ->
      (forall q : nat, Z.of_nat q < D \/ D + Z.of_nat i * N' <= Z.of_nat q ->
         out_i !! q = out !! q) ->
      (forall (j : nat) idx, (j < i)%nat -> length idx = length rest ->
         tupleInRange rest idx ->
         out_i !! Z.to_nat (D + Z.of_nat j * N' + dot idx (rowMajorStrides rest))
         = input !! Z.to_nat (P + Z.of_nat j * a + dot idx steps)) ->
      exists out',
        loop m (to_size_t (P + Z.of_nat i * a)) (D + Z.of_nat i * N') out_i = Ok out'
        /\ length out' = length out
        /\ (forall q : nat, Z.of_nat q < D \/ D + n * N' <= Z.of_nat q ->
              out' !! q = out !! q)
        /\ (forall (j : nat) idx, (j < Z.to_nat n)%nat -> length idx = length rest ->
              tupleInRange rest idx ->
              out' !! Z.to_nat (D + Z.of_nat j * N' + dot idx (rowMajorStrides rest))
              = input !! Z.to_nat (P + Z.of_nat j * a + dot idx steps))).
    { induction m as [|m IHm]; intros i out_i Him Hli Hframe Hcont.
      - exists out_i. split; [reflexivity|]. split; [exact Hli|].
        rewrite Nat.add_0_r in Him. subst i. split.
        + intros q Hq. apply Hframe. rewrite Z2Nat.id by lia. exact Hq.
        + exact Hcont.
      - assert (Hi : Z.of_nat i < n) by lia.
        assert (HDi : D + Z.of_nat i * N' + N' <= Z.of_nat (length out)) by nia.
        destruct (IH steps (P + Z.of_nat i * a) (D + Z.of_nat i * N') out_i)
          as (out1 & Hrun & Hl1 & Hf1 & Hc1);
          [exact Hlen|exact Hrest|nia|rewrite Hli; exact HDi|rewrite Hli; exact Hout| |].
        { intros idx Hl Hr.
          pose proof (Hreads (Z.of_nat i :: idx)) as H. simpl in H.
          rewrite dot_cons in H.
          replace (P + Z.of_nat i * a + dot idx steps)
            with (P + (Z.of_nat i * a + dot idx steps)) by lia.
          apply H; [congruence|].
          apply tupleInRange_cons. split; [lia|exact Hr]. }
        change (loop (S m) (to_size_t (P + Z.of_nat i * a)) (D + Z.of_nat i * N') out_i)
          with (rbind (traverse dims' input (to_size_t (P + Z.of_nat i * a))
                         (D + Z.of_nat i * N') out_i) (fun outputData' =>
                loop m (to_size_t (to_size_t (P + Z.of_nat i * a) + to_size_t a))
                  (to_size_t (D + Z.of_nat i * N' + N')) outputData')).
        unfold dims'. rewrite Hrun. simpl rbind. fold dims'.
        rewrite to_size_t_add_both.
        rewrite (to_size_t_small (D + Z.of_nat i * N' + N')) by nia.
        replace (P + Z.of_nat i * a + a) with (P + Z.of_nat (S i) * a) by lia.
        replace (D + Z.of_nat i * N' + N') with (D + Z.of_nat (S i) * N') by lia.
        apply IHm.
        + lia.
        + congruence.
        + intros q Hq. rewrite Hf1 by nia. apply Hframe. nia.
        + intros j idx Hj Hl Hr.
          destruct (tupleInRange_full rest idx Hrest Hl Hr) as [Hd0 Hd1]. fold N' in Hd1.
          destruct (decide (j = i)) as [->|Hne].
          * apply Hc1; assumption.
          * assert (Hji : Z.of_nat j + 1 <= Z.of_nat i) by lia.
            rewrite Hf1; [apply Hcont; [lia|assumption|assumption]|].
            left. rewrite Z2Nat.id by nia. nia. }
    destruct (Hloop (Z.to_nat n) 0%nat out) as (out' & Hrun & Hl & Hf & Hc).
    + lia.
    + reflexivity.
    + intros q Hq. reflexivity.
    + intros j idx Hj. lia.
    + exists out'. simpl Z.of_nat in Hrun. rewrite Z.mul_0_l, !Z.add_0_r in Hrun.
      split; [exact Hrun|]. split; [exact Hl|]. split; [exact Hf|].
      intros idx Hlidx Hr. destruct idx as [|j idx]; [discriminate|].
      simpl in Hlidx. injection Hlidx as Hlidx.
      apply tupleInRange_cons in Hr as [Hj Hr].
      rewrite !dot_cons.
      specialize (Hc (Z.to_nat j) idx ltac:(lia) Hlidx Hr).
      rewrite Z2Nat.id in Hc by lia.
      replace (D + (j * N' + dot idx (rowMajorStrides rest)))
        with (D + j * N' + dot idx (rowMajorStrides rest)) by lia.
      replace (P + (j * a + dot idx steps)) with (P + j * a + dot idx steps) by lia.
      exact Hc.
Qed.

Lemma slice_start_steps (sts sps ins : list Z) (m : nat) : forall (k : nat) acc l,
  (k + m)%nat = length sts ->
  length sps = length sts -> length ins = length sts ->
  rfold (fun acc axis =>
           rbind (at_ sts (Z.of_nat axis)) (fun st =>
           rbind (at_ sps (Z.of_nat axis)) (fun sp =>
           match ins !! axis with
           | None => Undefined
           | Some inStride =>
               Ok (to_size_t (fst acc + st * inStride),
                   snd acc ++ [to_size_t (sp * inStride)])
           end)))
        (seq k m) (to_size_t acc, l)
  = Ok (to_size_t (acc + dot (drop k sts) (drop k ins)),
        l ++ map to_size_t (zip_with Z.mul (drop k sps) (drop k ins))).
Proof.
  induction m as [|m IH]; intros k acc l Hk Hsp Hin.
  - rewrite !drop_ge by lia. simpl. rewrite dot_nil_l, Z.add_0_r, app_nil_r.
    reflexivity.
  - destruct (lookup_lt_is_Some_2 sts k) as [st Hst]; [lia|].
    destruct (lookup_lt_is_Some_2 sps k) as [sp Hspk]; [lia|].
    destruct (lookup_lt_is_Some_2 ins k) as [i Hi]; [lia|].
    rewrite (drop_S _ _ _ Hst), (drop_S _ _ _ Hspk), (drop_S _ _ _ Hi).
    simpl seq. simpl rfold. unfold at_ at 1 2.
    destruct (Z.ltb_spec (Z.of_nat k) 0); [lia|].
    rewrite Nat2Z.id, Hst, Hspk, Hi. simpl rbind. simpl fst. simpl snd.
    rewrite to_size_t_add_l. rewrite IH by lia.
    rewrite dot_cons. simpl zip_with. simpl map. rewrite <- app_assoc. simpl.
    rewrite Z.add_assoc. reflexivity.
Qed.

Lemma dot_sliceIndex (sts : list Z) : forall idx sps ins,
  length idx = length sts -> length sps = length sts -> length ins = length sts ->
  dot (zip_with Z.add sts (zip_with Z.mul idx sps)) ins
  = dot sts ins + dot idx (zip_with Z.mul sps ins).
Proof.
  induction sts as [|st sts IH]; intros [|i idx] [|sp sps] [|n ins] H1 H2 H3;
    try discriminate; [reflexivity|].
  simpl zip_with. rewrite !dot_cons.
  rewrite IH by (simpl in *; lia). lia.
Qed.

Lemma map_to_size_t_small (l : list Z) :
  Forall (fun d => 0 <= d < 2 ^ 64) l -> map to_size_t l = l.
Proof.
  induction 1 as [|d l Hd _ IH]; [reflexivity|].
  simpl. rewrite IH, to_size_t_small by exact Hd. reflexivity.
Qed.

Lemma rowMajorStrides_fit shape :
  sizesFit shape -> Forall (fun d => 0 <= d < 2 ^ 64) (rowMajorStrides shape).
Proof.
  induction shape as [|d rest IH]; intros Hfit; [constructor|].
  pose proof (sizesFit_tail _ _ Hfit) as Hrest.
  simpl. constructor; [|apply IH; exact Hrest].
  destruct Hrest as [Hpos Hf]. pose proof (Hf 0%nat) as H0. rewrite drop_0 in H0.
  pose proof (getNumElements_nonneg _ Hpos). lia.
Qed.

(** The run of [ConstPropSliceImpl] on multi-indices that stay in the input. *)
Lemma ConstPropSliceImpl_run (outputShape : Shape) (shapeHelper : SliceShapeHelper)
    (inputElements : ElementsAttr) (outputData : list WideNum) :
  let rank := length outputShape in
  let inputShape := e_shape inputElements in
  sizesFit outputShape ->
  Forall (fun d => d < 2 ^ 63) outputShape ->
  sizesFit inputShape ->
  e_wf inputElements ->
  length inputShape = rank ->
  length (starts shapeHelper) = rank ->
  length (steps shapeHelper) = rank ->
  Z.of_nat (length outputData) = getNumElements outputShape ->
  (forall idx, length idx = rank -> tupleInRange outputShape idx ->
     tupleInRange inputShape (sliceIndex shapeHelper idx)) ->
  exists out,
    ConstPropSliceImpl outputShape shapeHelper inputElements outputData = Ok out
    /\ length out = length outputData
    /\ forall p, 0 <= p < getNumElements outputShape ->
         out !! Z.to_nat p
         = e_values inputElements
             !! Z.to_nat (dot (sliceIndex shapeHelper (unravel outputShape p))
                            (rowMajorStrides inputShape)).
Proof.
  intros rank inputShape Hfo Hdims Hfi Hwf Hli Hlst Hlsp Hbuf Hrange.
  pose proof Hfo as [Hopos Hofit]. pose proof Hfi as [Hipos Hifit].
  pose proof (e_values_length _ Hwf) as Hvals. unfold e_size in Hvals.
  fold inputShape in Hvals.
  pose proof (Hofit 0%nat) as HoN. rewrite drop_0 in HoN.
  pose proof (Hifit 0%nat) as HiN. rewrite drop_0 in HiN.
  unfold ConstPropSliceImpl. fold rank inputShape.
  rewrite !getStrides_exact by assumption.
  change (0, @nil Z) with (to_size_t 0, @nil Z).
  rewrite (slice_start_steps (starts shapeHelper) (steps shapeHelper)
             (rowMajorStrides inputShape) rank 0%nat 0 [])
    by (rewrite ?rowMajorStrides_length; lia).
  rewrite !drop_0, Z.add_0_l, app_nil_l. simpl rbind. simpl fst. simpl snd.
  rewrite (map_to_size_t_small (rowMajorStrides outputShape))
    by (apply rowMajorStrides_fit; exact Hfo).
  rewrite (map_to_size_t_small outputShape).
  2:{ apply Forall_forall. intros d Hd.
      rewrite Forall_forall in Hopos, Hdims.
      specialize (Hopos d Hd). specialize (Hdims d Hd). lia. }
  set (trueSteps := zip_with Z.mul (steps shapeHelper) (rowMajorStrides inputShape)).
  assert (Hsrc : forall idx, length idx = rank -> tupleInRange outputShape idx ->
    dot (starts shapeHelper) (rowMajorStrides inputShape) + dot idx trueSteps
    = dot (sliceIndex shapeHelper idx) (rowMajorStrides inputShape)
    /\ 0 <= dot (sliceIndex shapeHelper idx) (rowMajorStrides inputShape)
         < Z.of_nat (length (e_values inputElements))).
  { intros idx Hl Hr. unfold sliceIndex, trueSteps.
    rewrite dot_sliceIndex by (rewrite ?rowMajorStrides_length; lia).
    split; [reflexivity|].
    rewrite <- dot_sliceIndex by (rewrite ?rowMajorStrides_length; lia).
    rewrite Hvals. apply tupleInRange_full; [exact Hipos| |apply Hrange; assumption].
    rewrite !length_zip_with. lia. }
  destruct (traverse_spec (e_values inputElements) ltac:(lia) outputShape trueSteps
              (dot (starts shapeHelper) (rowMajorStrides inputShape)) 0 outputData)
    as (out & Hrun & Hlen & _ & Hcont).
  - unfold trueSteps. rewrite length_zip_with, rowMajorStrides_length. lia.
  - exact Hopos.
  - lia.
  - lia.
  - lia.
  - intros idx Hl Hr. destruct (Hsrc idx Hl Hr) as [-> H]. exact H.
  - exists out. split; [exact Hrun|]. split; [exact Hlen|].
    intros p Hp. destruct (dot_unravel outputShape p Hopos Hp) as [Hr Hdot].
    pose proof (unravel_length outputShape p) as Hl.
    specialize (Hcont _ Hl Hr). rewrite Hdot, Z.add_0_l in Hcont.
    destruct (Hsrc _ Hl Hr) as [E _]. rewrite E in Hcont. exact Hcont.
Qed.

(** X11: the element of a Slice at the multi-index [idx] of its output is the
    element of the input at the multi-index [start + idx * step], axis by
    axis, whenever these multi-indices lie in the input.  Steps may be
    negative: the positions are then advanced by adding a wrapped [size_t],
    which goes backwards.  The fold never reads outside the input and writes
    every element of the output once. *)
Theorem slice_elements (outputShape : Shape) (shapeHelper : SliceShapeHelper)
    (inputElements : ElementsAttr) (outputData : list WideNum) :
  let rank := length outputShape in
  let inputShape := e_shape inputElements in
  sizesFit outputShape ->
  Forall (fun d => d < 2 ^ 63) outputShape ->
  sizesFit inputShape ->
  e_wf inputElements ->
  length inputShape = rank ->
  length (starts shapeHelper) = rank ->
  length (steps shapeHelper) = rank ->
  Z.of_nat (length outputData) = getNumElements outputShape ->
  (forall idx, length idx = rank -> tupleInRange outputShape idx ->
     tupleInRange inputShape (sliceIndex shapeHelper idx)) ->
  exists out,
    ConstPropSliceImpl outputShape shapeHelper inputElements outputData = Ok out
    /\ length out = length outputData
    /\ forall p, 0 <= p < getNumElements outputShape ->
         out !! Z.to_nat p
         = e_values inputElements
             !! Z.to_nat (dot (sliceIndex shapeHelper (unravel outputShape p))
                            (rowMajorStrides inputShape)).
Proof.
  intros rank inputShape Hfo Hdims Hfi Hwf Hli Hlst Hlsp Hbuf Hrange.
  destruct (ConstPropSliceImpl_run outputShape shapeHelper inputElements outputData
              Hfo Hdims Hfi Hwf Hli Hlst Hlsp Hbuf Hrange)
    as (out & Hrun & Hlen & Hcont).
  exists out. split; [exact Hrun|]. split; [exact Hlen|exact Hcont].
Qed.

(** Every third element of 0..9 from 9 backwards: 9, 6, 3. *)
Lemma slice_elements_witness :
  exists out,
    ConstPropSliceImpl [3] backwardSlice tenElements (replicate 3 (W_u64 0)) = Ok out
    /\ out !! 1%nat = Some (W_i64 6).
Proof.
  destruct (slice_elements [3] backwardSlice tenElements (replicate 3 (W_u64 0)))
    as (out & Hrun & _ & Hcont).
  - split; [repeat constructor; lia|]. intros [|[|j]]; by vm_compute.
  - repeat constructor; lia.
  - split; [repeat constructor; lia|]. intros [|[|j]]; by vm_compute.
  - split; [repeat constructor; lia|reflexivity].
  - reflexivity.
  - reflexivity.
  - reflexivity.
  - reflexivity.
  - intros [|i [|? ?]] Hl Hr; try discriminate.
    apply tupleInRange_cons in Hr as [Hi _].
    apply tupleInRange_cons. split; [lia|constructor].
  - exists out. split; [exact Hrun|].
    change 1%nat with (Z.to_nat 1). rewrite (Hcont 1) by (by vm_compute).
    reflexivity.
Defined.

(** ** Concat *)

Lemma row_step_le (a b s : Z) : 0 <= s -> a + 1 <= b -> a * s + s <= b * s.
Proof. intros Hs Hab. nia. Qed.

Lemma stridedCopy_nothing {A} (src dst : list A) stride : forall fuel offset,
  0 <= offset ->
  Z.of_nat (length dst) - offset < Z.of_nat fuel ->
  0 < stride \/ Z.of_nat (length dst) <= offset ->
  Z.of_nat (length dst) + stride < 2 ^ 64 ->
  stridedCopy fuel src 0 0 0 dst offset stride = Ok (dst, 0).
Proof.
  induction fuel as [|fuel IH]; intros offset Ho Hfuel Hs Hfit.
  - simpl. destruct (Z.ltb_spec offset (Z.of_nat (length dst))); [lia|reflexivity].
  - simpl stridedCopy.
    destruct (Z.ltb_spec offset (Z.of_nat (length dst))); [|reflexivity].
    change (copy_n src 0 0 dst offset) with (Ok dst : Result (list A)).
    simpl rbind. rewrite to_size_t_small by lia.
    apply IH; lia.
Qed.

Lemma stridedCopy_rows_pos {A} (src dst : list A) (outer : nat) len stride start :
  0 < len -> 0 <= start -> start + len <= stride ->
  Z.of_nat (length dst) = Z.of_nat outer * stride ->
  Z.of_nat (length src) = Z.of_nat outer * len ->
  Z.of_nat (length dst) + stride < 2 ^ 64 ->
  forall (c o : nat) (d : list A) (fuel : nat),
  (o + c)%nat = outer -> (c < fuel)%nat -> length d = length dst ->
  exists d',
    stridedCopy fuel src (Z.of_nat o * len) len len d (Z.of_nat o * stride + start) stride
      = Ok (d', Z.of_nat outer * len)
    /\ length d' = length d
    /\ (forall (o' : nat) t, (o <= o' < outer)%nat -> 0 <= t < len ->
          d' !! Z.to_nat (Z.of_nat o' * stride + start + t)
          = src !! Z.to_nat (Z.of_nat o' * len + t))
    /\ (forall (o' : nat) t', 0 <= t' < stride ->
          (o' < o)%nat \/ t' < start \/ start + len <= t' ->
          d' !! Z.to_nat (Z.of_nat o' * stride + t')
          = d !! Z.to_nat (Z.of_nat o' * stride + t')).
Proof.
  intros Hlen Hstart Hfits Hdst Hsrc Hfit.
  induction c as [|c IH]; intros o d fuel Ho Hfuel Hd.
  - replace o with outer by lia.
    exists d. split.
    + destruct fuel; [lia|]. simpl.
      destruct (Z.ltb_spec (Z.of_nat outer * stride + start) (Z.of_nat (length d)));
        [lia|reflexivity].
    + split; [reflexivity|]. split; [intros; lia|reflexivity].
  - destruct fuel as [|fuel]; [lia|].
    assert (Hoff : Z.of_nat o * stride + start + len <= Z.of_nat (length d)) by nia.
    simpl stridedCopy.
    destruct (Z.ltb_spec (Z.of_nat o * stride + start) (Z.of_nat (length d))); [|lia].
    rewrite copy_n_overwrite by nia. simpl rbind.
    rewrite to_size_t_small by nia.
    replace (Z.of_nat o * len + len) with (Z.of_nat (S o) * len) by lia.
    replace (Z.of_nat o * stride + start + stride)
      with (Z.of_nat (S o) * stride + start) by lia.
    set (row := take (Z.to_nat len) (drop (Z.to_nat (Z.of_nat o * len)) src)).
    assert (Hrow : Z.of_nat (length row) = len).
    { unfold row. rewrite length_take, length_drop. nia. }
    set (d1 := overwrite d (Z.of_nat o * stride + start) row).
    assert (Hd1 : length d1 = length d)
      by (apply overwrite_length; nia).
    destruct (IH (S o) d1 fuel ltac:(lia) ltac:(lia) ltac:(congruence))
      as (d' & Hrun & Hl & Hcont & Hframe).
    exists d'. split; [exact Hrun|]. split; [congruence|]. split.
    + intros o' t Ho' Ht. destruct (decide (o' = o)) as [->|Hne].
      * replace (Z.of_nat o * stride + start + t)
          with (Z.of_nat o * stride + (start + t)) by lia.
        rewrite Hframe by lia. unfold d1.
        rewrite overwrite_lookup by nia.
        rewrite bool_decide_eq_true_2 by (rewrite Z2Nat.id by nia; lia).
        unfold row. rewrite lookup_take_lt by lia. rewrite lookup_drop.
        f_equal. nia.
      * apply Hcont; lia.
    + intros o' t' Ht' Hcase. rewrite Hframe by lia. unfold d1.
      rewrite overwrite_lookup by nia.
      rewrite bool_decide_eq_false_2; [reflexivity|].
      rewrite Z2Nat.id by nia. rewrite Hrow. intros [H1 H2].
      destruct (decide (o' < o)%nat) as [Hlt|Hge].
      * pose proof (row_step_le (Z.of_nat o') (Z.of_nat o) stride). lia.
      * destruct (decide (o' = o)) as [->|Hne]; [lia|].
        pose proof (row_step_le (Z.of_nat o) (Z.of_nat o') stride). lia.
Qed.

(** The strided loop copies row [o] of the source to the offset [start] of
    row [o] of the destination and ends at the end of the source. *)
Lemma stridedCopy_rows {A} (src dst : list A) (outer : nat) len stride start :
  0 <= len -> 0 <= start -> start + len <= stride ->
  Z.of_nat (length dst) = Z.of_nat outer * stride ->
  Z.of_nat (length src) = Z.of_nat outer * len ->
  Z.of_nat (length dst) + stride < 2 ^ 64 ->
  exists d',
    stridedCopy (S (length dst)) src 0 len len dst start stride
      = Ok (d', Z.of_nat outer * len)
    /\ length d' = length dst
    /\ (forall (o : nat) t, (o < outer)%nat -> 0 <= t < len ->
          d' !! Z.to_nat (Z.of_nat o * stride + start + t)
          = src !! Z.to_nat (Z.of_nat o * len + t))
    /\ (forall (o : nat) t', 0 <= t' < stride ->
          t' < start \/ start + len <= t' ->
          d' !! Z.to_nat (Z.of_nat o * stride + t')
          = dst !! Z.to_nat (Z.of_nat o * stride + t')).
Proof.
  intros Hlen Hstart Hfits Hdst Hsrc Hfit.
  destruct (Z.eq_dec len 0) as [->|Hne].
  - exists dst. rewrite Z.mul_0_r. split.
    + apply stridedCopy_nothing; [lia|lia| |lia].
      destruct (Z.eq_dec stride 0) as [E|E]; [right; rewrite E in Hdst; lia|left; lia].
    + split; [reflexivity|]. split; [intros; lia|reflexivity].
  - assert (Hfuel : (outer < S (length dst))%nat) by nia.
    destruct (stridedCopy_rows_pos src dst outer len stride start
                ltac:(lia) Hstart Hfits Hdst Hsrc Hfit outer 0%nat dst (S (length dst))
                ltac:(lia) Hfuel eq_refl)
      as (d' & Hrun & Hl & Hcont & Hframe).
    simpl Z.of_nat in Hrun. rewrite !Z.mul_0_l, Z.add_0_l in Hrun.
    exists d'. split; [exact Hrun|]. split; [exact Hl|]. split.
    + intros o t Ho Ht. apply Hcont; lia.
    + intros o t' Ht' Hcase. apply Hframe; [exact Ht'|right; exact Hcase].
Qed.

Section ConcatLoop.
Variables (pre post : Shape) (total : Z) (outer : nat).
Let inner := getNumElements post.
Hypothesis Hpre : Forall (fun d => 0 <= d) pre.
Hypothesis Hpost : Forall (fun d => 0 <= d) post.
Hypothesis Houter : Z.of_nat outer = getNumElements pre.
Hypothesis Hrank : Z.of_nat (length pre) < 2 ^ 63.
Hypothesis Hrow : total * inner < 2 ^ 63.
Hypothesis Hall : Z.of_nat outer * (total * inner) < 2 ^ 63.

Lemma concatLoop_spec inputs extents :
  Forall2 (fun input a => e_shape input = pre ++ a :: post /\ e_wf input /\ 0 <= a)
    inputs extents ->
  forall startExt out_cur,
  0 <= startExt ->
  startExt + fold_right Z.add 0 extents <= total ->
  Z.of_nat (length out_cur) = Z.of_nat outer * (total * inner) ->
  exists out,
    concatLoop inputs (Z.of_nat (length pre)) (total * inner) (startExt * inner) out_cur
      = Ok out
    /\ length out = length out_cur
    /\ (forall (o : nat) t', 0 <= t' < total * inner ->
          t' < startExt * inner
          \/ (startExt + fold_right Z.add 0 extents) * inner <= t' ->
          out !! Z.to_nat (Z.of_nat o * (total * inner) + t')
          = out_cur !! Z.to_nat (Z.of_nat o * (total * inner) + t'))
    /\ (forall (i : nat) input a (o : nat) t,
          inputs !! i = Some input -> extents !! i = Some a ->
          (o < outer)%nat -> 0 <= t < a * inner ->
          out !! Z.to_nat (Z.of_nat o * (total * inner)
                           + (startExt + fold_right Z.add 0 (take i extents)) * inner + t)
          = e_values input !! Z.to_nat (Z.of_nat o * (a * inner) + t)).
Proof.
  assert (Hinner : 0 <= inner) by (apply getNumElements_nonneg; exact Hpost).
  induction 1 as [|input a inputs extents (Hshape & Hwf & Ha) Hrest IH];
    intros startExt out_cur Hs Hsum Hlen.
  - exists out_cur. split; [reflexivity|]. split; [reflexivity|].
    split; [reflexivity|]. intros i input a o t Hi. discriminate.
  - simpl fold_right in Hsum.
    assert (Hsumrest : 0 <= fold_right Z.add 0 extents).
    { clear -Hrest. induction Hrest as [|? ? ? ? (_ & _ & ?)]; simpl; lia. }
    cbn [concatLoop].
    rewrite to_size_t_small by lia.
    rewrite Hshape, drop_front_app. cbn [rbind].
    change (getNumElements (a :: post)) with (a * inner).
    assert (Halen : 0 <= a * inner <= total * inner) by nia.
    rewrite (to_size_t_small (a * inner)) by lia.
    pose proof (e_values_length _ Hwf) as Hvals. unfold e_size in Hvals.
    rewrite Hshape, getNumElements_app in Hvals.
    change (getNumElements (a :: post)) with (a * inner) in Hvals.
    rewrite <- Houter in Hvals.
    destruct (stridedCopy_rows (e_values input) out_cur outer (a * inner)
                (total * inner) (startExt * inner))
      as (out1 & Hrun & Hl1 & Hc1 & Hf1); [lia|nia|nia|exact Hlen|exact Hvals|lia|].
    rewrite Hrun. cbn [rbind fst snd].
    rewrite Hvals, Z.eqb_refl. cbn [rassert rbind].
    replace (startExt * inner + a * inner) with ((startExt + a) * inner) by lia.
    rewrite to_size_t_small by nia.
    destruct (IH (startExt + a) out1) as (out & Hrun2 & Hl2 & Hf2 & Hc2);
      [lia|lia|congruence|].
    exists out. split; [exact Hrun2|]. split; [congruence|]. split.
    + intros o t' Ht' Hcase. simpl fold_right in Hcase.
      rewrite Hf2 by nia. apply Hf1; [exact Ht'|nia].
    + intros i input' a' o t Hi Ha' Ho Ht. destruct i as [|i].
      * simpl in Hi, Ha'. injection Hi as <-. injection Ha' as <-.
        simpl take. simpl fold_right. rewrite Z.add_0_r.
        replace (Z.of_nat o * (total * inner) + startExt * inner + t)
          with (Z.of_nat o * (total * inner) + (startExt * inner + t)) by lia.
        rewrite Hf2 by nia.
        replace (Z.of_nat o * (total * inner) + (startExt * inner + t))
          with (Z.of_nat o * (total * inner) + startExt * inner + t) by lia.
        apply Hc1; [exact Ho|exact Ht].
      * simpl in Hi, Ha'. simpl take. simpl fold_right.
        replace (startExt + (a + fold_right Z.add 0 (take i extents)))
          with (startExt + a + fold_right Z.add 0 (take i extents)) by lia.
        apply Hc2; assumption.
Qed.

End ConcatLoop.

(** The run of [ConstPropConcatImpl] on inputs that agree with the output
    outside the axis. *)
Lemma ConstPropConcatImpl_run (pre post : Shape) (inputElements : list ElementsAttr)
    (extents : list Z) (outputData : list WideNum) :
  let total := fold_right Z.add 0 extents in
  let outputShape := pre ++ total :: post in
  let inner := getNumElements post in
  sizesFit outputShape ->
  Z.of_nat (length pre) < 2 ^ 63 ->
  Forall2 (fun input a => e_shape input = pre ++ a :: post /\ e_wf input /\ 0 <= a)
    inputElements extents ->
  Z.of_nat (length outputData) = getNumElements outputShape ->
  exists out,
    ConstPropConcatImpl outputShape inputElements (Z.of_nat (length pre)) outputData
      = Ok out
    /\ length out = length outputData
    /\ forall (i : nat) input a o t,
         inputElements !! i = Some input -> extents !! i = Some a ->
         0 <= o < getNumElements pre -> 0 <= t < a * inner ->
         out !! Z.to_nat (o * (total * inner)
                          + fold_right Z.add 0 (take i extents) * inner + t)
         = e_values input !! Z.to_nat (o * (a * inner) + t).
Proof.
  intros total outputShape inner Hfit Hrank Hinputs Hbuf.
  pose proof Hfit as [Hpos Hsuffix].
  unfold outputShape in Hpos. apply Forall_app in Hpos as [Hpre Hpost'].
  apply Forall_cons in Hpost' as [Htotal Hpost].
  pose proof (getNumElements_nonneg _ Hpre) as Houter.
  pose proof (Hsuffix 0%nat) as Hall. rewrite drop_0 in Hall.
  pose proof (Hsuffix (length pre)) as Hrow.
  unfold outputShape in Hall, Hrow, Hbuf.
  rewrite drop_app_length in Hrow.
  rewrite getNumElements_app in Hall, Hbuf.
  change (getNumElements (total :: post)) with (total * inner) in *.
  unfold ConstPropConcatImpl, outputShape.
  rewrite to_size_t_small by lia. rewrite drop_front_app. cbn [rbind].
  change (getNumElements (total :: post)) with (total * inner).
  assert (Hinner : 0 <= inner) by (apply getNumElements_nonneg; exact Hpost).
  rewrite to_size_t_small by nia.
  destruct (concatLoop_spec pre post total (Z.to_nat (getNumElements pre))
              Hpost ltac:(lia) Hrank Hrow ltac:(rewrite Z2Nat.id by lia; exact Hall)
              inputElements extents Hinputs 0 outputData)
    as (out & Hrun & Hlen & _ & Hcont).
  - lia.
  - fold total. lia.
  - rewrite Z2Nat.id by lia. exact Hbuf.
  - fold inner in Hrun, Hcont. rewrite Z.mul_0_l in Hrun.
    exists out. split; [exact Hrun|]. split; [exact Hlen|].
    intros i input a o t Hi Ha Ho Ht.
    specialize (Hcont i input a (Z.to_nat o) t Hi Ha ltac:(lia) Ht).
    rewrite Z2Nat.id, Z.add_0_l in Hcont by lia. exact Hcont.
Qed.

(** X12: the output of a Concat along an axis holds, for every position
    before the axis, the rows of the inputs one after the other: the element
    [t] of row [o] of the [i]-th input lies in row [o] of the output, after
    the rows of the inputs before it.  The assertion on the number of
    elements of each input holds, inputs of extent zero add nothing, and
    nothing outside the rows of an input is written for it. *)
Theorem concat_elements (pre post : Shape) (inputElements : list ElementsAttr)
    (extents : list Z) (outputData : list WideNum) :
  let total := fold_right Z.add 0 extents in
  let outputShape := pre ++ total :: post in
  let inner := getNumElements post in
  sizesFit outputShape ->
  Z.of_nat (length pre) < 2 ^ 63 ->
  Forall2 (fun input a => e_shape input = pre ++ a :: post /\ e_wf input /\ 0 <= a)
    inputElements extents ->
  Z.of_nat (length outputData) = getNumElements outputShape ->
  exists out,
    ConstPropConcatImpl outputShape inputElements (Z.of_nat (length pre)) outputData
      = Ok out
    /\ length out = length outputData
    /\ forall (i : nat) input a o t,
         inputElements !! i = Some input -> extents !! i = Some a ->
         0 <= o < getNumElements pre -> 0 <= t < a * inner ->
         out !! Z.to_nat (o * (total * inner)
                          + fold_right Z.add 0 (take i extents) * inner + t)
         = e_values input !! Z.to_nat (o * (a * inner) + t).
Proof.
  intros total outputShape inner Hfit Hrank Hinputs Hbuf.
  destruct (ConstPropConcatImpl_run pre post inputElements extents outputData
              Hfit Hrank Hinputs Hbuf)
    as (out & Hrun & Hlen & Hcont).
  exists out. split; [exact Hrun|]. split; [exact Hlen|exact Hcont].
Qed.

(** [[1],[2]] and [[3,4],[5,6]] along axis 1: the element (1, 1) of the output
    is the element (1, 0) of the second operand. *)
Lemma concat_elements_witness :
  exists out,
    ConstPropConcatImpl [2; 3] [concatLeft; concatRight] 1 (replicate 6 (W_u64 0))
      = Ok out
    /\ out !! 4%nat = Some (W_i64 5).
Proof.
  destruct (concat_elements [2] [] [concatLeft; concatRight] [1; 2]
              (replicate 6 (W_u64 0)))
    as (out & Hrun & _ & Hcont).
  - split; [simpl; repeat constructor; lia|]. intros [|[|[|j]]]; by vm_compute.
  - by vm_compute.
  - constructor; [|constructor; [|constructor]];
      (split; [reflexivity|]; split; [|lia];
       split; [repeat constructor; lia|reflexivity]).
  - reflexivity.
  - exists out. split; [exact Hrun|].
    change 4%nat with (Z.to_nat (1 * (fold_right Z.add 0 [1; 2] * getNumElements [])
                                 + fold_right Z.add 0 (take 1 [1; 2]) * getNumElements []
                                 + 0)).
    rewrite (Hcont 1%nat concatRight 2 1 0) by (reflexivity || by vm_compute).
    reflexivity.
Defined.

(** ** The lengths of the arguments of the linear access index *)

Lemma zip_app_l {A B} (l e : list A) (k : list B) :
  length l = length k -> zip (l ++ e) k = zip l k.
Proof.
  revert k. induction l as [|a l IH]; intros [|b k] H; try discriminate.
  - destruct e; reflexivity.
  - simpl. rewrite IH by (simpl in H; lia). reflexivity.
Qed.

Lemma linearAccess_short (indices strides : list Z) (n : nat) : forall (s : nat) acc,
  (s <= length indices < s + n)%nat ->
  rfold (fun index i =>
           rbind (at_ indices (Z.of_nat i)) (fun idx =>
           Ok (to_i64 (index + to_i64 (idx * default 0 (strides !! i))))))
        (seq s n) acc
  = Abort "Invalid index!".
Proof.
  induction n as [|n IH]; intros s acc Hs; [lia|].
  simpl seq. simpl rfold. unfold at_ at 1.
  destruct (Z.ltb_spec (Z.of_nat s) 0); [lia|]. rewrite Nat2Z.id.
  destruct (indices !! s) as [idx|] eqn:Hidx.
  - simpl rbind. apply IH. apply lookup_lt_Some in Hidx. lia.
  - reflexivity.
Qed.

(** X14: [getLinearAccessIndex] walks the strides, not the indices.  Indices
    beyond the number of strides are ignored, so an index tuple that is
    longer than the strides it is paired with addresses the same position as
    its prefix; a tuple shorter than the strides stops the compiler on the
    bounds assertion of the array. *)
Theorem linear_index_lengths (indices extra strides : list Z) :
  length indices = length strides ->
  getLinearAccessIndex (indices ++ extra) strides = getLinearAccessIndex indices strides
  /\ (forall short, (length short < length strides)%nat ->
        getLinearAccessIndex short strides = Abort "Invalid index!").
Proof.
  intros Hlen. split.
  - unfold getLinearAccessIndex.
    rewrite (linearAccess_fold (indices ++ extra) strides (length strides) 0%nat 0)
      by (rewrite ?length_app; lia).
    rewrite (linearAccess_fold indices strides (length strides) 0%nat 0) by lia.
    rewrite !drop_0, zip_app_l by exact Hlen. reflexivity.
  - intros short Hshort. unfold getLinearAccessIndex.
    apply linearAccess_short. lia.
Qed.

(** With the strides [3, 1] the tuples (1, 2, 7) and (1, 2) give position 5,
    and the tuple (1) is too short. *)
Lemma linear_index_lengths_witness :
  getLinearAccessIndex [1; 2; 7] [3; 1] = Ok 5
  /\ getLinearAccessIndex [1] [3; 1] = Abort "Invalid index!".
Proof.
  destruct (linear_index_lengths [1; 2] [7] [3; 1]) as [H1 H2]; [reflexivity|].
  split.
  - change ([1; 2; 7]) with ([1; 2] ++ [7]). rewrite H1. reflexivity.
  - apply H2. simpl. lia.
Defined.

(** ** The assertions on element types *)

(** X15: the folds check the element types of their operands before they
    compute.  An element-wise binary fold with operands of different element
    types, an element-wise unary fold whose result is declared with another
    element type than its operand, a Where whose condition is not of type i1
    and a Where whose branches differ in element type each stop the compiler
    on the assertion that names the broken rule; a Transpose without a
    [perm] attribute stops on the cast of the missing attribute (the default
    permutation is not implemented). *)
Theorem fold_type_assertions (replacingValue : Value) (st : PassState) :
  v_type replacingValue <> NoneType ->
  (forall op lhsValue rhsValue lhs rhs,
     v_def lhsValue = DefConstant (Some lhs) -> isShaped lhsValue ->
     v_def rhsValue = DefConstant (Some rhs) -> isShaped rhsValue ->
     e_elementType lhs <> e_elementType rhs ->
     ConstPropElementwiseBinary op replacingValue lhsValue rhsValue st
     = Abort "all element-wise binary ops have matching operands element types")
  /\ (forall op constValue constElements replacingElemType,
        v_def constValue = DefConstant (Some constElements) -> isShaped constValue ->
        getElementType (v_type replacingValue) = Ok replacingElemType ->
        replacingElemType <> e_elementType constElements ->
        ConstPropElementwiseUnary op replacingValue constValue st
        = Abort "all element-wise unary ops preserve element type")
  /\ (forall condValue lhsValue rhsValue cond,
        v_def condValue = DefConstant (Some cond) -> isShaped condValue ->
        isShaped lhsValue -> isShaped rhsValue ->
        e_elementType cond <> I1 ->
        ConstPropWhere replacingValue condValue lhsValue rhsValue st
        = Abort "ONNXWhereOp condition has bool element type")
  /\ (forall condValue lhsValue rhsValue cond lhs rhs,
        v_def condValue = DefConstant (Some cond) -> isShaped condValue ->
        v_def lhsValue = DefConstant (Some lhs) -> isShaped lhsValue ->
        v_def rhsValue = DefConstant (Some rhs) -> isShaped rhsValue ->
        e_elementType cond = I1 ->
        e_elementType lhs <> e_elementType rhs ->
        ConstPropWhere replacingValue condValue lhsValue rhsValue st
        = Abort "ONNXWhereOp branches have matching element types")
  /\ (forall constValue attrs,
        isShaped constValue ->
        getDefiningOp replacingValue = Ok attrs ->
        attrs !! "perm" = None ->
        exists msg, ConstPropTranspose replacingValue constValue st = Abort msg).
Proof.
  intros Hty.
  assert (Hcast : castShapedType (v_type replacingValue) = Ok (v_type replacingValue)).
  { unfold castShapedType. destruct (v_type replacingValue); congruence. }
  split; [|split; [|split; [|split]]].
  - intros op lhsValue rhsValue lhs rhs Hl Hsl Hr Hsr Hne.
    unfold ConstPropElementwiseBinary. unfold mbind at 1.
    rewrite count_shaped by (repeat constructor; assumption).
    unfold mbind at 1. rewrite Hcast. simpl lift at 1. cbv beta iota.
    unfold getConstValueElements. rewrite Hl, Hr.
    unfold mbind at 1. simpl lift at 1. cbv beta iota.
    unfold mbind at 1. simpl lift at 1. cbv beta iota.
    unfold mbind at 1. rewrite bool_decide_eq_false_2 by exact Hne. reflexivity.
  - intros op constValue constElements replacingElemType Hc Hs Het Hne.
    unfold ConstPropElementwiseUnary. unfold mbind at 1.
    rewrite count_shaped by (repeat constructor; assumption).
    unfold mbind at 1. rewrite Het. simpl lift at 1. cbv beta iota.
    unfold getConstValueElements. rewrite Hc.
    unfold mbind at 1. simpl lift at 1. cbv beta iota.
    unfold mbind at 1. rewrite bool_decide_eq_false_2 by exact Hne. reflexivity.
  - intros condValue lhsValue rhsValue cond Hc Hsc Hsl Hsr Hne.
    unfold ConstPropWhere. unfold mbind at 1.
    rewrite count_shaped by (repeat constructor; assumption).
    unfold mbind at 1. rewrite Hcast. simpl lift at 1. cbv beta iota.
    unfold getConstValueElements at 1. rewrite Hc.
    unfold mbind at 1. simpl lift at 1. cbv beta iota.
    unfold mbind at 1. rewrite bool_decide_eq_false_2 by exact Hne. reflexivity.
  - intros condValue lhsValue rhsValue cond lhs rhs Hc Hsc Hl Hsl Hr Hsr Hb Hne.
    unfold ConstPropWhere. unfold mbind at 1.
    rewrite count_shaped by (repeat constructor; assumption).
    unfold mbind at 1. rewrite Hcast. simpl lift at 1. cbv beta iota.
    unfold getConstValueElements. rewrite Hc, Hl, Hr.
    unfold mbind at 1. simpl lift at 1. cbv beta iota.
    unfold mbind at 1. rewrite bool_decide_eq_true_2 by exact Hb.
    simpl lift at 1. cbv beta iota.
    unfold mbind at 1. simpl lift at 1. cbv beta iota.
    unfold mbind at 1. simpl lift at 1. cbv beta iota.
    unfold mbind at 1. rewrite bool_decide_eq_false_2 by exact Hne. reflexivity.
  - intros constValue attrs Hs Hop Hperm.
    unfold ConstPropTranspose. unfold mbind at 1.
    rewrite count_shaped by (repeat constructor; assumption).
    unfold mbind at 1. rewrite Hop. simpl lift at 1. cbv beta iota.
    unfold mbind at 1. rewrite Hperm. eexists. reflexivity.
Qed.

(** An Add of a tensor<2xf32> and a tensor<2xi64>. *)
Lemma fold_type_assertions_witness :
  ConstPropElementwiseBinary ONNXAddOp addResult floatPair intPair initialState
  = Abort "all element-wise binary ops have matching operands element types".
Proof.
  destruct (fold_type_assertions addResult initialState) as (H & _).
  - discriminate.
  - apply (H ONNXAddOp floatPair intPair
             (mkElements [2] F32 (Splat (W_dbl (S754_zero false))))
             (mkElements [2] I64 (Dense [W_i64 1; W_i64 2]))).
    + reflexivity.
    + exists [2], F32. reflexivity.
    + reflexivity.
    + exists [2], I64. reflexivity.
    + discriminate.
Defined.

(** ** Slices that compose *)

Lemma sliceIndex_full shape : forall idx,
  length idx = length shape -> sliceIndex (fullSlice shape) idx = idx.
Proof.
  unfold sliceIndex, fullSlice. simpl.
  induction shape as [|d shape IH]; intros [|i idx] H; try discriminate; [reflexivity|].
  simpl. rewrite IH by (simpl in H; lia). f_equal. lia.
Qed.

Lemma sliceIndex_reverse shape : forall idx,
  length idx = length shape ->
  sliceIndex (reverseSlice shape) idx = reverseIndex shape idx.
Proof.
  unfold sliceIndex, reverseSlice, reverseIndex. simpl.
  induction shape as [|d shape IH]; intros [|i idx] H; try discriminate; [reflexivity|].
  simpl. rewrite IH by (simpl in H; lia). f_equal. lia.
Qed.

Lemma reverseIndex_length shape idx :
  length idx = length shape -> length (reverseIndex shape idx) = length shape.
Proof. intros H. unfold reverseIndex. rewrite length_zip_with. lia. Qed.

Lemma reverseIndex_inRange shape : forall idx,
  length idx = length shape -> tupleInRange shape idx ->
  tupleInRange shape (reverseIndex shape idx).
Proof.
  induction shape as [|d shape IH]; intros [|i idx] H Hr; try discriminate;
    [constructor|].
  apply tupleInRange_cons in Hr as [Hi Hr]. unfold reverseIndex. simpl.
  apply tupleInRange_cons. split; [lia|]. apply IH; [simpl in H; lia|exact Hr].
Qed.

Lemma reverseIndex_involutive shape : forall idx,
  length idx = length shape -> reverseIndex shape (reverseIndex shape idx) = idx.
Proof.
  unfold reverseIndex.
  induction shape as [|d shape IH]; intros [|i idx] H; try discriminate; [reflexivity|].
  simpl. rewrite IH by (simpl in H; lia). f_equal. lia.
Qed.

Lemma list_eq_upto {A} (l k : list A) (n : Z) :
  Z.of_nat (length l) = n -> Z.of_nat (length k) = n ->
  (forall p, 0 <= p < n -> l !! Z.to_nat p = k !! Z.to_nat p) ->
  l = k.
Proof.
  intros Hl Hk H. apply list_eq. intros i.
  destruct (decide (Z.of_nat i < n)) as [Hi|Hi].
  - specialize (H (Z.of_nat i) ltac:(lia)). rewrite Nat2Z.id in H. exact H.
  - rewrite !lookup_ge_None_2 by lia. reflexivity.
Qed.

(** X16: a Slice that starts at 0 with step 1 on every axis returns the
    elements of its input unchanged, and the Slice that reverses every axis
    (start at the last index, step -1) is its own inverse: applied to its own
    result it gives back the elements of the input.  The backward steps are
    taken by adding a wrapped [size_t]. *)
Theorem slice_identity_and_reverse (inputElements : ElementsAttr)
    (outputData : list WideNum) :
  let shape := e_shape inputElements in
  sizesFit shape ->
  Forall (fun d => d < 2 ^ 63) shape ->
  e_wf inputElements ->
  Z.of_nat (length outputData) = getNumElements shape ->
  ConstPropSliceImpl shape (fullSlice shape) inputElements outputData
    = Ok (e_values inputElements)
  /\ exists reversed,
       ConstPropSliceImpl shape (reverseSlice shape) inputElements outputData
         = Ok reversed
       /\ (forall p, 0 <= p < getNumElements shape ->
             reversed !! Z.to_nat p
             = e_values inputElements
                 !! Z.to_nat (dot (reverseIndex shape (unravel shape p))
                                (rowMajorStrides shape)))
       /\ ConstPropSliceImpl shape (reverseSlice shape)
            (mkElements shape (e_elementType inputElements) (Dense reversed))
            outputData
          = Ok (e_values inputElements).
Proof.
  intros shape Hfit Hdims Hwf Hbuf.
  pose proof Hfit as [Hpos _].
  pose proof (e_values_length _ Hwf) as Hvals. unfold e_size in Hvals. fold shape in Hvals.
  assert (Hshape : e_shape inputElements = shape) by reflexivity.
  clearbody shape.
  split.
  - destruct (ConstPropSliceImpl_run shape (fullSlice shape) inputElements outputData)
      as (out & Hrun & Hlen & Hcont); rewrite ?Hshape; try assumption; try reflexivity.
    + unfold fullSlice. simpl. apply length_map.
    + unfold fullSlice. simpl. apply length_map.
    + intros idx Hl Hr. rewrite sliceIndex_full by exact Hl. exact Hr.
    + rewrite Hshape in Hcont. rewrite Hrun. f_equal.
      apply (list_eq_upto _ _ (getNumElements shape)); [lia|exact Hvals|].
      intros p Hp. rewrite Hcont by exact Hp.
      rewrite sliceIndex_full by apply unravel_length.
      destruct (dot_unravel shape p Hpos Hp) as [_ ->]. reflexivity.
  - destruct (ConstPropSliceImpl_run shape (reverseSlice shape) inputElements outputData)
      as (rev & Hrun & Hlen & Hcont); rewrite ?Hshape; try assumption; try reflexivity.
    + unfold reverseSlice. simpl. apply length_map.
    + unfold reverseSlice. simpl. apply length_map.
    + intros idx Hl Hr. rewrite sliceIndex_reverse by exact Hl.
      apply reverseIndex_inRange; assumption.
    + assert (Hrev : forall p, 0 <= p < getNumElements shape ->
        rev !! Z.to_nat p
        = e_values inputElements
            !! Z.to_nat (dot (reverseIndex shape (unravel shape p))
                           (rowMajorStrides shape))).
      { rewrite Hshape in Hcont. intros p Hp. rewrite Hcont by exact Hp.
        rewrite sliceIndex_reverse by apply unravel_length. reflexivity. }
      exists rev. split; [exact Hrun|]. split; [exact Hrev|].
      set (revElements := mkElements shape (e_elementType inputElements) (Dense rev)).
      destruct (ConstPropSliceImpl_run shape (reverseSlice shape) revElements outputData)
        as (out & Hrun2 & Hlen2 & Hcont2); try assumption; try reflexivity.
      * split; [exact Hpos|]. simpl. unfold e_size. simpl. lia.
      * unfold reverseSlice. simpl. apply length_map.
      * unfold reverseSlice. simpl. apply length_map.
      * intros idx Hl Hr. rewrite sliceIndex_reverse by exact Hl.
        apply reverseIndex_inRange; assumption.
      * rewrite Hrun2. f_equal.
        apply (list_eq_upto _ _ (getNumElements shape)); [lia|exact Hvals|].
        intros p Hp. rewrite Hcont2 by exact Hp.
        rewrite sliceIndex_reverse by apply unravel_length.
        destruct (dot_unravel shape p Hpos Hp) as [Hr Hdot].
        pose proof (unravel_length shape p) as Hl.
        pose proof (reverseIndex_inRange shape _ Hl Hr) as Hrr.
        pose proof (reverseIndex_length shape _ Hl) as Hlr.
        destruct (tupleInRange_full shape _ Hpos Hlr Hrr) as [Hq0 Hq1].
        unfold revElements, e_values at 1. cbn [e_payload e_shape].
        rewrite (Hrev _ (conj Hq0 Hq1)).
        rewrite unravel_dot by assumption.
        rewrite reverseIndex_involutive by exact Hl.
        rewrite Hdot. reflexivity.
Qed.

(** The elements 0..9 taken as a whole. *)
Lemma slice_identity_and_reverse_witness :
  ConstPropSliceImpl [10] (fullSlice [10]) tenElements (replicate 10 (W_u64 0))
  = Ok (e_values tenElements).
Proof.
  destruct (slice_identity_and_reverse tenElements (replicate 10 (W_u64 0)))
    as (H & _).
  - split; [repeat constructor; lia|]. intros [|[|j]]; by vm_compute.
  - repeat constructor; lia.
  - split; [repeat constructor; lia|reflexivity].
  - reflexivity.
  - exact H.
Defined.

(** ** Slice and Concat *)

Lemma zip_with_keep (post : Shape) : forall ir,
  length ir = length post ->
  zip_with Z.add (map (fun _ => 0) post) (zip_with Z.mul ir (map (fun _ => 1) post)) = ir.
Proof.
  induction post as [|d post IH]; intros [|i ir] H; try discriminate; [reflexivity|].
  simpl. rewrite IH by (simpl in H; lia). f_equal. lia.
Qed.

Lemma sliceIndex_from (pre post : Shape) k : forall ip j ir,
  length ip = length pre -> length ir = length post ->
  sliceIndex (sliceFrom pre post k) (ip ++ j :: ir) = ip ++ (k + j) :: ir.
Proof.
  unfold sliceIndex, sliceFrom. simpl.
  induction pre as [|d pre IH]; intros [|i ip] j ir Hp Hr; try discriminate.
  - simpl. rewrite zip_with_keep by exact Hr. f_equal. lia.
  - simpl. rewrite IH by (simpl in Hp; lia || exact Hr). f_equal. lia.
Qed.

Lemma tupleInRange_app (pre : Shape) : forall rest ip ir,
  length ip = length pre ->
  tupleInRange (pre ++ rest) (ip ++ ir) <-> tupleInRange pre ip /\ tupleInRange rest ir.
Proof.
  induction pre as [|d pre IH]; intros rest [|i ip] ir H; try discriminate.
  - simpl. split; [intros Hr; split; [constructor|exact Hr]|intros [_ Hr]; exact Hr].
  - simpl app. rewrite !tupleInRange_cons, IH by (simpl in H; lia). tauto.
Qed.

Lemma split_tuple (pre : Shape) : forall (idx : list Z) (rest : Shape),
  length idx = length (pre ++ rest) ->
  exists ip ir, idx = ip ++ ir /\ length ip = length pre /\ length ir = length rest.
Proof.
  intros idx rest H. exists (take (length pre) idx), (drop (length pre) idx).
  rewrite length_app in H.
  split; [symmetry; apply take_drop|].
  rewrite length_take, length_drop. lia.
Qed.

Lemma dot_app_strides (pre : Shape) : forall rest ip ir,
  length ip = length pre ->
  dot (ip ++ ir) (rowMajorStrides (pre ++ rest))
  = dot ip (rowMajorStrides pre) * getNumElements rest + dot ir (rowMajorStrides rest).
Proof.
  induction pre as [|d pre IH]; intros rest [|i ip] ir H; try discriminate.
  - simpl. rewrite dot_nil_l. lia.
  - simpl app. simpl rowMajorStrides. rewrite !dot_cons, IH by (simpl in H; lia).
    rewrite getNumElements_app. lia.
Qed.

Lemma sliceFrom_inRange (pre post : Shape) k a n idx :
  0 <= k -> k + a <= n ->
  length idx = length (pre ++ a :: post) ->
  tupleInRange (pre ++ a :: post) idx ->
  tupleInRange (pre ++ n :: post) (sliceIndex (sliceFrom pre post k) idx).
Proof.
  intros Hk Hka Hl Hr.
  destruct (split_tuple pre idx (a :: post) Hl) as (ip & ir & -> & Hlp & Hlr).
  destruct ir as [|j ir]; [discriminate|]. simpl in Hlr.
  rewrite sliceIndex_from by lia.
  apply tupleInRange_app in Hr as [Hp Hr]; [|exact Hlp].
  apply tupleInRange_cons in Hr as [Hj Hr].
  apply tupleInRange_app; [exact Hlp|]. split; [exact Hp|].
  apply tupleInRange_cons. split; [lia|exact Hr].
Qed.

(** The element of the part of extent [a] taken from [k] on, at row [o] and
    place [t] of the row, is the element of the input at row [o] and place
    [k * inner + t]. *)
Lemma sliceFrom_position (pre post : Shape) k a n (o t : Z) :
  Forall (fun d => 0 <= d) pre -> Forall (fun d => 0 <= d) post ->
  0 <= a -> 0 <= k -> k + a <= n ->
  0 <= o < getNumElements pre -> 0 <= t < a * getNumElements post ->
  dot (sliceIndex (sliceFrom pre post k)
         (unravel (pre ++ a :: post) (o * (a * getNumElements post) + t)))
      (rowMajorStrides (pre ++ n :: post))
  = o * (n * getNumElements post) + (k * getNumElements post + t).
Proof.
  intros Hpre Hpost Ha Hk Hka Ho Ht.
  set (inner := getNumElements post) in *.
  assert (Hinner : 0 < inner) by nia.
  set (j := t / inner). set (r := t mod inner).
  assert (Hjr : t = j * inner + r) by (unfold j, r; pose proof (Z.div_mod t inner); lia).
  assert (Hr : 0 <= r < inner) by (apply Z.mod_pos_bound; lia).
  assert (Hj : 0 <= j < a).
  { split; [apply Z.div_pos; lia|apply Z.div_lt_upper_bound; lia]. }
  destruct (dot_unravel pre o Hpre Ho) as [Hrp Hdp].
  destruct (dot_unravel post r Hpost Hr) as [Hrr Hdr].
  set (idx := unravel pre o ++ j :: unravel post r).
  assert (Hidx : unravel (pre ++ a :: post) (o * (a * inner) + t) = idx).
  { rewrite <- (unravel_dot (pre ++ a :: post) idx).
    - f_equal. unfold idx.
      rewrite dot_app_strides by apply unravel_length.
      simpl rowMajorStrides. rewrite dot_cons, Hdp, Hdr.
      change (getNumElements (a :: post)) with (a * inner). fold inner. lia.
    - apply Forall_app. split; [exact Hpre|]. constructor; assumption.
    - unfold idx. rewrite !length_app. simpl. rewrite !unravel_length. reflexivity.
    - unfold idx. apply tupleInRange_app; [apply unravel_length|].
      split; [exact Hrp|]. apply tupleInRange_cons. split; [exact Hj|exact Hrr]. }
  rewrite Hidx. unfold idx.
  rewrite sliceIndex_from by apply unravel_length.
  rewrite dot_app_strides by apply unravel_length.
  simpl rowMajorStrides. rewrite dot_cons, Hdp, Hdr.
  change (getNumElements (n :: post)) with (n * inner). fold inner. lia.
Qed.

Lemma sizesFit_cons d s :
  sizesFit (d :: s) <-> 0 <= d /\ getNumElements (d :: s) < 2 ^ 63 /\ sizesFit s.
Proof.
  split.
  - intros H. pose proof (sizesFit_tail _ _ H) as Ht. destruct H as [Hpos Hf].
    apply Forall_cons in Hpos as [Hd _]. pose proof (Hf 0%nat) as H0.
    rewrite drop_0 in H0. auto.
  - intros (Hd & Hn & [Hpos Hf]). split; [constructor; assumption|].
    intros [|j]; [rewrite drop_0; exact Hn|apply Hf].
Qed.

Lemma sizesFit_shrink (pre post : Shape) a n :
  0 <= a <= n -> sizesFit (pre ++ n :: post) -> sizesFit (pre ++ a :: post).
Proof.
  intros Ha. induction pre as [|d pre IH]; simpl; intros H.
  - apply sizesFit_cons in H as (Hn & Hb & Hs).
    apply sizesFit_cons. split; [lia|]. split; [|exact Hs].
    change (getNumElements (n :: post)) with (n * getNumElements post) in Hb.
    change (getNumElements (a :: post)) with (a * getNumElements post).
    destruct Hs as [Hpos _]. pose proof (getNumElements_nonneg _ Hpos). nia.
  - apply sizesFit_cons in H as (Hd & Hb & Hs).
    specialize (IH Hs). apply sizesFit_cons. split; [exact Hd|]. split; [|exact IH].
    change (getNumElements (d :: pre ++ n :: post))
      with (d * getNumElements (pre ++ n :: post)) in Hb.
    change (getNumElements (d :: pre ++ a :: post))
      with (d * getNumElements (pre ++ a :: post)).
    rewrite getNumElements_app in *.
    change (getNumElements (n :: post)) with (n * getNumElements post) in Hb.
    change (getNumElements (a :: post)) with (a * getNumElements post).
    destruct Hs as [Hpos _]. apply Forall_app in Hpos as [Hp Hq].
    apply Forall_cons in Hq as [_ Hq].
    pose proof (getNumElements_nonneg _ Hp). pose proof (getNumElements_nonneg _ Hq).
    assert (a * getNumElements post <= n * getNumElements post) by nia.
    assert (getNumElements pre * (a * getNumElements post)
            <= getNumElements pre * (n * getNumElements post)) by nia.
    nia.
Qed.

(** The part of extent [a] that a slice takes from [k] on along the axis
    after [pre]. *)
Lemma slice_part (pre post : Shape) (n k a : Z) (x : ElementsAttr) (buf : list WideNum) :
  e_shape x = pre ++ n :: post -> e_wf x ->
  sizesFit (pre ++ n :: post) -> Forall (fun d => d < 2 ^ 63) (pre ++ n :: post) ->
  0 <= k -> 0 <= a -> k + a <= n ->
  Z.of_nat (length buf) = getNumElements (pre ++ a :: post) ->
  exists part,
    ConstPropSliceImpl (pre ++ a :: post) (sliceFrom pre post k) x buf = Ok part
    /\ Z.of_nat (length part) = getNumElements (pre ++ a :: post)
    /\ forall o t, 0 <= o < getNumElements pre -> 0 <= t < a * getNumElements post ->
         part !! Z.to_nat (o * (a * getNumElements post) + t)
         = e_values x !! Z.to_nat (o * (n * getNumElements post)
                                   + (k * getNumElements post + t)).
Proof.
  intros Hshape Hwf Hfit Hdims Hk Ha Hka Hbuf.
  pose proof Hfit as [Hpos _]. apply Forall_app in Hpos as [Hpre Hpost].
  apply Forall_cons in Hpost as [Hn Hpost].
  destruct (ConstPropSliceImpl_run (pre ++ a :: post) (sliceFrom pre post k) x buf)
    as (part & Hrun & Hlen & Hcont).
  - apply (sizesFit_shrink pre post a n); [lia|exact Hfit].
  - apply Forall_app in Hdims as [Hd1 Hd2]. apply Forall_cons in Hd2 as [Hd2 Hd3].
    apply Forall_app. split; [exact Hd1|]. constructor; [lia|exact Hd3].
  - rewrite Hshape. exact Hfit.
  - exact Hwf.
  - rewrite Hshape, !length_app. reflexivity.
  - unfold sliceFrom. simpl. rewrite !length_app. simpl. rewrite !length_map. reflexivity.
  - unfold sliceFrom. simpl. rewrite !length_app. simpl. rewrite !length_map. reflexivity.
  - exact Hbuf.
  - intros idx Hl Hr. rewrite Hshape. apply (sliceFrom_inRange pre post k a n); assumption.
  - exists part. split; [exact Hrun|]. split; [lia|].
    intros o t Ho Ht. rewrite Hshape in Hcont.
    pose proof (getNumElements_nonneg _ Hpost).
    rewrite Hcont.
    + rewrite (sliceFrom_position pre post k a n o t) by assumption. reflexivity.
    + rewrite getNumElements_app.
      change (getNumElements (a :: post)) with (a * getNumElements post). nia.
Qed.

(** X17: cutting a constant in two along an axis with Slice and putting the
    parts together again with Concat gives back the constant: for every cut
    point [k] of an axis of extent [n], the Concat along that axis of the
    Slice of the indices below [k] and the Slice of the indices from [k] on
    holds exactly the elements of the input (either part may be empty). *)
Theorem slice_concat_round_trip (pre post : Shape) (n k : Z) (x : ElementsAttr)
    (bufLo bufHi bufOut : list WideNum) :
  let lower := pre ++ k :: post in
  let upper := pre ++ (n - k) :: post in
  e_shape x = pre ++ n :: post -> e_wf x ->
  sizesFit (pre ++ n :: post) -> Forall (fun d => d < 2 ^ 63) (pre ++ n :: post) ->
  Z.of_nat (length pre) < 2 ^ 63 ->
  0 <= k <= n ->
  Z.of_nat (length bufLo) = getNumElements lower ->
  Z.of_nat (length bufHi) = getNumElements upper ->
  Z.of_nat (length bufOut) = getNumElements (pre ++ n :: post) ->
  exists lo hi,
    ConstPropSliceImpl lower (sliceFrom pre post 0) x bufLo = Ok lo
    /\ ConstPropSliceImpl upper (sliceFrom pre post k) x bufHi = Ok hi
    /\ ConstPropConcatImpl (pre ++ n :: post)
         [mkElements lower (e_elementType x) (Dense lo);
          mkElements upper (e_elementType x) (Dense hi)]
         (Z.of_nat (length pre)) bufOut
       = Ok (e_values x).
Proof.
  intros lower upper Hshape Hwf Hfit Hdims Hrank Hk HbLo HbHi HbOut.
  pose proof Hfit as [Hpos _]. apply Forall_app in Hpos as [Hpre Hpost].
  apply Forall_cons in Hpost as [Hn Hpost].
  pose proof (getNumElements_nonneg _ Hpre) as Houter.
  pose proof (getNumElements_nonneg _ Hpost) as Hinner.
  set (inner := getNumElements post) in *.
  destruct (slice_part pre post n 0 k x bufLo) as (lo & HrunLo & HlenLo & HcLo);
    try assumption; try lia.
  destruct (slice_part pre post n k (n - k) x bufHi) as (hi & HrunHi & HlenHi & HcHi);
    try assumption; try lia.
  fold inner in HcLo, HcHi.
  exists lo, hi. split; [exact HrunLo|]. split; [exact HrunHi|].
  set (loE := mkElements lower (e_elementType x) (Dense lo)).
  set (hiE := mkElements upper (e_elementType x) (Dense hi)).
  assert (Htotal : fold_right Z.add 0 [k; n - k] = n) by (simpl; lia).
  destruct (ConstPropConcatImpl_run pre post [loE; hiE] [k; n - k] bufOut)
    as (out & Hrun & Hlen & Hcont).
  - rewrite Htotal. exact Hfit.
  - exact Hrank.
  - constructor; [|constructor; [|constructor]].
    + split; [reflexivity|]. split; [|lia]. split.
      * simpl. apply Forall_app. split; [exact Hpre|]. constructor; [lia|exact Hpost].
      * simpl. exact HlenLo.
    + split; [reflexivity|]. split; [|lia]. split.
      * simpl. apply Forall_app. split; [exact Hpre|]. constructor; [lia|exact Hpost].
      * simpl. exact HlenHi.
  - rewrite Htotal. exact HbOut.
  - rewrite Htotal in Hrun, Hcont. fold inner in Hcont. rewrite Hrun. f_equal.
    pose proof (e_values_length _ Hwf) as Hvals. unfold e_size in Hvals.
    rewrite Hshape in Hvals.
    apply (list_eq_upto _ _ (getNumElements (pre ++ n :: post))); [lia|exact Hvals|].
    intros p Hp. rewrite getNumElements_app in Hp.
    change (getNumElements (n :: post)) with (n * inner) in Hp.
    assert (Hrow : 0 < n * inner) by nia.
    set (o := p / (n * inner)). set (t := p mod (n * inner)).
    assert (Hpt : p = o * (n * inner) + t)
      by (unfold o, t; pose proof (Z.div_mod p (n * inner)); lia).
    assert (Ht : 0 <= t < n * inner) by (apply Z.mod_pos_bound; lia).
    assert (Ho : 0 <= o < getNumElements pre).
    { split; [apply Z.div_pos; lia|apply Z.div_lt_upper_bound; lia]. }
    rewrite Hpt.
    destruct (Z.lt_ge_cases t (k * inner)) as [Hlt|Hge].
    + specialize (Hcont 0%nat loE k o t eq_refl eq_refl Ho ltac:(lia)).
      simpl take in Hcont. simpl fold_right in Hcont.
      rewrite Z.mul_0_l, Z.add_0_r in Hcont. rewrite Hcont.
      unfold loE, e_values at 1. cbn [e_payload].
      rewrite HcLo by lia. rewrite Z.mul_0_l, Z.add_0_l. reflexivity.
    + specialize (Hcont 1%nat hiE (n - k) o (t - k * inner) eq_refl eq_refl Ho
                    ltac:(lia)).
      simpl take in Hcont. simpl fold_right in Hcont.
      replace (o * (n * inner) + (k + 0) * inner + (t - k * inner))
        with (o * (n * inner) + t) in Hcont by lia.
      rewrite Hcont. unfold hiE, e_values at 1. cbn [e_payload].
      rewrite HcHi by lia. f_equal. f_equal. lia.
Qed.

(** [[1,2,3],[4,5,6]] cut after its first column and put together again. *)
Lemma slice_concat_round_trip_witness :
  exists lo hi,
    ConstPropSliceImpl [2; 1] (sliceFrom [2] [] 0) matrixElements
      (replicate 2 (W_u64 0)) = Ok lo
    /\ ConstPropSliceImpl [2; 2] (sliceFrom [2] [] 1) matrixElements
         (replicate 4 (W_u64 0)) = Ok hi
    /\ ConstPropConcatImpl [2; 3]
         [mkElements [2; 1] I64 (Dense lo); mkElements [2; 2] I64 (Dense hi)] 1
         (replicate 6 (W_u64 0))
       = Ok (e_values matrixElements).
Proof.
  destruct (slice_concat_round_trip [2] [] 3 1 matrixElements
              (replicate 2 (W_u64 0)) (replicate 4 (W_u64 0)) (replicate 6 (W_u64 0)))
    as (lo & hi & H).
  - reflexivity.
  - split; [repeat constructor; lia|reflexivity].
  - split; [repeat constructor; lia|]. intros [|[|[|j]]]; by vm_compute.
  - repeat constructor; lia.
  - by vm_compute.
  - lia.
  - reflexivity.
  - reflexivity.
  - reflexivity.
  - exists lo, hi. exact H.
Defined.

(** ** Negative axes of Concat and Gather *)

(** X18: a negative axis of Concat or Gather counts from the last axis: for
    [-rank <= a < 0] the fold with axis [a] is the fold with axis [a + rank],
    in its result and in the state it leaves, where the rank is the one of the
    result type for Concat and the one of the input type for Gather. *)
Theorem negative_axis_normalised (st : PassState) (shape : Shape)
    (elt : ElementType) (a : Z) :
  let rank := Z.of_nat (length shape) in
  - rank <= a < 0 -> rank < 2 ^ 62 ->
  (forall replacingValue operands,
     v_type replacingValue = RankedTensorType shape elt ->
     ConstPropConcat replacingValue operands a st
     = ConstPropConcat replacingValue operands (a + rank) st)
  /\ (forall replacingValue inputValue indicesValue attrs,
        v_type inputValue = RankedTensorType shape elt ->
        v_def replacingValue = DefOp "onnx.Gather" attrs ->
        attrs !! "axis" = Some (IntegerAttr a) ->
        ConstPropGather replacingValue inputValue indicesValue st
        = ConstPropGather
            (mkValue (v_loc replacingValue) (v_type replacingValue)
               (DefOp "onnx.Gather" (<["axis" := IntegerAttr (a + rank)]> attrs)))
            inputValue indicesValue st).
Proof.
  intros rank Ha Hr.
  assert (Hneg : (a <? 0) = true) by (apply Z.ltb_lt; lia).
  assert (Hpos : (a + rank <? 0) = false) by (apply Z.ltb_ge; lia).
  split.
  - intros replacingValue operands Hty. unfold ConstPropConcat, mbind.
    destruct (Counters.count "Concat" operands st) as [[u s1]| |]; try reflexivity.
    rewrite Hty, Hneg, Hpos. simpl. fold rank.
    rewrite to_i64_small by lia. reflexivity.
  - intros replacingValue inputValue indicesValue attrs Hty Hdef Haxis.
    unfold ConstPropGather, mbind.
    destruct (Counters.count "Gather" [inputValue; indicesValue] st) as [[u s1]| |];
      try reflexivity.
    unfold castDefiningOp. rewrite Hdef. simpl v_def.
    rewrite bool_decide_eq_true_2 by reflexivity. simpl lift.
    unfold getSIntAttr. rewrite Haxis, lookup_insert_eq.
    rewrite Hty, Hneg, Hpos. simpl. fold rank.
    rewrite to_i64_small by lia. reflexivity.
Qed.

(** The Concat of [[1],[2]] and [[3,4],[5,6]] along axis -1, and a Gather
    from a tensor<2x3xi64> along axis -1. *)
Lemma negative_axis_normalised_witness :
  (let r := mkValue 5%nat (RankedTensorType [2; 3] I64) (DefOp "onnx.Concat" ∅) in
   let operands := [constantValue 0%nat concatLeft; constantValue 1%nat concatRight] in
   ConstPropConcat r operands (-1) initialState
   = ConstPropConcat r operands 1 initialState)
  /\ (let input := constantValue 0%nat (mkElements [2; 3] I64 (Splat (W_i64 4))) in
      let indices := constantValue 1%nat (mkElements [1] I64 (Dense [W_i64 0])) in
      ConstPropGather
        (mkValue 5%nat (RankedTensorType [2; 1] I64)
           (DefOp "onnx.Gather" {["axis" := IntegerAttr (-1)]}))
        input indices initialState
      = ConstPropGather
          (mkValue 5%nat (RankedTensorType [2; 1] I64)
             (DefOp "onnx.Gather"
                (<["axis" := IntegerAttr 1]> {["axis" := IntegerAttr (-1)]})))
          input indices initialState).
Proof.
  destruct (negative_axis_normalised initialState [2; 3] I64 (-1)) as (HC & HG).
  - simpl; lia.
  - simpl; lia.
  - split.
    + apply HC. reflexivity.
    + apply (HG (mkValue 5%nat (RankedTensorType [2; 1] I64)
                   (DefOp "onnx.Gather" {["axis" := IntegerAttr (-1)]}))).
      * reflexivity.
      * reflexivity.
      * reflexivity.
Defined.
